(* ===== verification/_CoqProject ===== *)
-Q . S2P
Prelude.v
Decimal.v
Redis.v
Radix.v
Utf8.v
GoTesting.v
KeyHelpers.v
Serial.v
Workers.v
Parallel.v
Runs.v
Launch.v
Rounds.v
Main.v
