(* ===== verification/Prelude.v ===== *)
(** * A verification development of BenchmarkRedisWithGo

    The repository is a Go benchmark harness for counter increments on a
    Redis server, written against the radix v3 client:

    - [src/common/redisHelper.go]: the connection provider,
      [ConnectToCluster] and [ConnectToSingleNode], thin wrappers around
      [radix.NewCluster] and [radix.NewPool] that prefix the error message;
    - [src/main.go]: [main] connects to [127.0.0.1] with pool size 1 and
      prints the error, if any;
    - [src/main_test.go]: the key lifecycle helpers [GetKey], [RemoveKey],
      [GetHKey], [RemoveHKey] (a command through [Pool.Do], a panic on any
      error) and six benchmarks: [INCR], [INCRBY key 1] and
      [HINCRBY hash field 1], each in a serialized form (a [for] loop over
      [b.N] on the benchmark goroutine) and in a parallel form
      ([b.RunParallel] with [pb.Next] on worker goroutines that share one
      pool).

    The components interact through two shared resources: the Redis
    keyspace (every command of every goroutine is applied to it atomically,
    one at a time) and the benchmark object [b] (timer, failure flag, log).

    ** Files of the development, in dependency order

    - [Prelude]: this header; the bounds of the 64-bit integers of Redis
      and Go; a state-and-exception monad [ST] with its notation in
      [bench_scope]; the equivalence [≡] of computations (same final
      state and outcome from every state) with the [Proper] instances of
      bind and of the loops, for setoid rewriting; the [go_for] loop of Go
      with its invariant rule and its abort rule; sums over lists; the
      hint databases [bench] and [bench_rw].
    - [Decimal] (Module [Decimal]): the decimal text of 64-bit integers,
      as Redis prints them ([ll2string], also what radix writes into a Go
      string for an integer reply) and parses them ([string2ll]); the
      round trip [string2ll (ll2string z) = Some z] on the whole range.
    - [Redis] (Module [Redis]): the server, an external collaborator
      modelled from the spec and the commands it names (GET, DEL, HGET,
      HDEL, INCR, INCRBY, HINCRBY): the keyspace as a [gmap] from keys to
      string or hash values, each command a function from keyspace to
      keyspace and reply, with the 64-bit overflow checks and WRONGTYPE;
      [exec] dispatches a request. Lemmas: the functional behaviour of
      each increment on every branch, errors leave the keyspace
      unchanged, no command leaves an empty hash.
    - [Radix] (Module [Radix]): the radix v3 client, modelled from the
      spec: the network as the class [Dialer] (its law: a TCP dial of an
      address without a port fails; and the answer of a server to
      [CLUSTER SLOTS]), [NewPool], [NewCluster] (seeds dialled in order,
      then the topology read from the first reachable one), [Cmd], the round trip of [Pool.Do] with a transport
      fault before the request is sent or after the server applied it,
      and the decoding of replies into Go strings and ints; and the two
      wrappers of [src/common/redisHelper.go], [ConnectToSingleNode] and
      [ConnectToCluster], with the specification of the latter.
    - [Utf8] (Module [Utf8]): Go's [string(int32)] ([encoderune]), used
      to build the random key.
    - [GoTesting] (Module [GoTesting]): the [World] of a benchmark run
      (keyspace, round-trip counter and fault oracle, timer and measured
      round trips, failure flag, log) and the monad [Go]; [ResetTimer],
      [StartTimer], [StopTimer], [Logf], [Fatalf] (log, fail,
      [runtime.Goexit]) and [panic]; [keeps P m], a property [P] of the
      keyspace that the computation [m] keeps, from [kept P req] for each
      request it sends, with its rules (hint database [keeps], tactic
      [keeps_tac]).
    - [KeyHelpers] (Module [KeyHelpers]): [GetKey], [RemoveKey],
      [GetHKey], [RemoveHKey] of [src/main_test.go] and the naming of the
      benchmark key; the key collision of [string(rand.Int31())].
    - [Serial] (Module [Serial]): the three serialized benchmarks, one
      template [serial_benchmark] with three instances.
    - [Workers] (Module [Workers]): the workers of [b.RunParallel]: the
      loop body of the parallel benchmarks as one atomic action per step
      of a worker ([worker_step]: [pb.Next] with its grain, taking an
      idle pooled connection, the round trip with its [b.Fatalf]), the
      interleavings as the step relation [pstep] over a shared
      [Config], the invariants of every reachable state, the measure
      and the scheduler [finish] that waits for every worker.
    - [Parallel] (Module [Parallel]): [b.RunParallel] over the workers
      (grain, start, [wg.Wait], the final check) and the three parallel
      benchmarks, one template [parallel_benchmark].
    - [Runs] (Module [Runs]): the runs of the six benchmarks on one
      server as the step relation [bench_run]; what a request may change
      ([writes_only], [no_new_string]) and so what a run may change; the
      invariant [server_inv] of the server across runs.
    - [Launch] (Module [Launch]): the calls of a benchmark function by
      Go's [testing] package (Go 1.12): [runN] (set [b.N], reset and
      start the timer, call, stop, remember [previousN] and
      [previousDuration]), [run1], and [launch], whose loop predicts the
      next [b.N] ([predictN], [roundUp], [roundDown10]) until the run
      fails, fills the benchmark time or reaches [1e9].
    - [Rounds] (Module [Rounds]): the benchmarks under [run1] and
      [launch]: a benchmark whose fault-free call makes its [b.N]
      measured round trips, updates the keyspace and logs one line is
      called once per value of [b.N] that [growth] computes, or twice
      under [-benchtime=nx]; a first call that exits ends the run.
    - [Main] (Module [Main]): [main] of [src/main.go] as the text it
      prints.

    ** What the theorems show

    - Serialized benchmarks ([Serial]): a fault-free run logs [b.N],
      measures exactly the [b.N] increments and removes the key; a
      transport fault in the loop ends the run by [b.Fatalf] before the
      cleanup and leaves the key; a string at the
      hash key makes the hash benchmark panic, serialized or parallel.
    - Parallel benchmarks ([Parallel]), for every interleaving: no
      interleaving runs forever and
      [wg.Wait] returns; whatever the faults, the round trips never exceed
      [b.N]; without faults the body of [RunParallel] has exactly the
      effect of the serialized loop (a refinement), and the key benchmarks
      log the old value of the key plus [b.N] since they do not reset it;
      with faults, a failed worker ends alone and the benchmark still
      reads and removes the key; when the key holds a string that is not
      an integer, between one and [min b.N numProcs] workers log the
      server's refusal and exit, and the benchmark is marked failed.
    - Equivalence and invariants: [INCRBY key "1"] has the effect of
      [INCR key], so the INCRBY benchmarks are equivalent ([≡]) to the
      INCR benchmarks, serialized and parallel, for every world, fault
      and interleaving; in every reachable state of [RunParallel] a
      returned worker has seen the counter pass [b.N + grain] and an
      exited one has marked the benchmark failed.
    - Across runs: a serialized run stopped by a fault leaves a key that
      a later parallel run (same key for almost every draw) counts on;
      under [go test -bench], fault-free, the calls with growing [b.N]
      do not interfere: each logs exactly its own [b.N], serialized or
      parallel, and every [b.N] is between 1 and [2e11]; the same for
      the two calls of [-benchtime=nx].
    - Failures under [go test] ([Rounds]): with the server unreachable, each benchmark fails in its first call and is
      never called again; a transport fault in the first call of the
      serialized INCR benchmark ends the run with its key left behind.
    - One server, many runs ([Runs]): whatever its faults and however it
      ends, a key benchmark changes no key but its counter key and a hash
      benchmark none but [manjinder]; across any sequence of runs the
      server keeps no empty hash and no string at [manjinder], so the
      hash benchmarks' cleanup never meets WRONGTYPE unless another
      client wrote there.
    - Helpers and keys ([KeyHelpers], [Utf8]): the four helpers on
      every branch, transport faults and WRONGTYPE included; all but a tiny share of [rand.Int31()] values give
      the same benchmark key, and the valid code points give distinct
      keys (the UTF-8 bytes decode back, [rune_of_bytes_encoderune]).
    - Provider and entry point ([Radix], [Main]): [ConnectToCluster] on
      every branch: seeded by the first reachable address, failing when
      none is reachable or when that one cannot give the topology; [main] always prints a
      connection error (its address has no port).

    ** Bounds and fuel

    [ull2string] renders with 20 digit steps of fuel, enough for any
    value below [2^64] (20 decimal digits). The round trips are indexed
    from 0 by [w_ops]; the theorems quantify over the fault oracle. Time
    is modelled as the number of round trips made while the timer runs.
    [RunParallel] first runs the interleaving chosen by the scheduler (a
    list of worker indices), then lets the first worker that can move
    take a step, with fuel one more than the measure of the configuration
    ([finish]): every step lowers the measure ([pstep_measure]), so the
    fuel is always enough and all workers have returned
    ([finish_spec]). [roundDown10] divides by 10 at most 19 times, enough
    for a 64-bit [int] (below [10^19]). The loop of [launch] has fuel
    [launch_fuel = 37]: every [b.N] it tries is a round number above the
    last, there are 35 of them between 1 and [1e9], and [rounds_above]
    drops at every run, so more fuel changes nothing
    ([launch_loop_fuel]). The wall-clock time of a run is its measured
    round trips times a cost [tick_ns] per round trip.

    ** Not modelled

    The wall-clock timer beyond a fixed cost per round trip (so the
    rounds of [launch] are followed exactly only for runs whose every
    round trip costs the same); the garbage collection, race detection
    and memory statistics of [runN]; the [rand] generator (the benchmarks
    take its draws as a parameter);
    pipelining and connection creation inside radix (the spec takes the
    pool as a fixed-size set of connections, whereas radix v3 by default
    opens a new connection after waiting on an empty pool, so no theorem
    here bounds the commands in flight by the pool size); the
    connections [Cluster.Sync] opens to the other nodes of the topology;
    [b.N] is a [nat]: the theorems on whole runs keep it at most [2e11],
    far below Go's [MaxInt64]; [Cluster] commands (the
    benchmarks only use the single-node pool); printing by [fmt] beyond
    the text of [main]. The lines of [src/main.go] and
    [src/common/redisHelper.go] outside [main], [ConnectToCluster] and
    [ConnectToSingleNode] are package clauses, imports, comments and
    blank lines: there is no behaviour left in them to model. *)

From stdpp Require Export base gmap strings list.
From Stdlib Require Export ZArith String Ascii Lia.

Declare Scope bench_scope.
Delimit Scope bench_scope with bench.

Create HintDb bench.
Create Rewrite HintDb bench_rw.

(** ** 64-bit signed integers *)

(** [LLONG_MIN] and [LLONG_MAX] of C (Redis) and [math.MinInt64],
    [math.MaxInt64] of Go. *)
Definition LLONG_MIN : Z := - 2 ^ 63.
Definition LLONG_MAX : Z := 2 ^ 63 - 1.

Definition in_int64 (z : Z) : bool := (LLONG_MIN <=? z)%Z && (z <=? LLONG_MAX)%Z.

Lemma in_int64_spec z : in_int64 z = true <-> (LLONG_MIN <= z <= LLONG_MAX)%Z.
Proof. unfold in_int64. rewrite andb_true_iff, !Z.leb_le. tauto. Qed.

Lemma in_int64_false z : in_int64 z = false <-> (z < LLONG_MIN \/ LLONG_MAX < z)%Z.
Proof.
  unfold in_int64. rewrite andb_false_iff, !Z.leb_gt. tauto.
Qed.

Ltac int64_bounds :=
  repeat match goal with
  | H : in_int64 _ = true |- _ => apply in_int64_spec in H
  | H : in_int64 _ = false |- _ => apply in_int64_false in H
  | |- in_int64 _ = true => apply in_int64_spec
  | |- in_int64 _ = false => apply in_int64_false
  end;
  unfold LLONG_MIN, LLONG_MAX in *.

(** Case analysis on every boolean comparison of integers in the goal. *)
Ltac zbool :=
  repeat match goal with
  | |- context [(?a <? ?b)%Z] => destruct (Z.ltb_spec a b)
  | |- context [(?a <=? ?b)%Z] => destruct (Z.leb_spec a b)
  | |- context [(?a >? ?b)%Z] => destruct (Z.gtb_spec a b)
  end; simpl.

(** ** Go's [(value, error)] results *)

(** A Go function returning [(T, error)] returns [Ok v] when the error is
    [nil] and [Err msg] otherwise ([msg] is the text of [err.Error()]). *)
Inductive result (A : Type) : Type :=
| Ok (a : A)
| Err (msg : string).
Arguments Ok {A} a.
Arguments Err {A} msg.

(** ** A state monad with abrupt exits

    Go code that can stop early (a [panic], or [runtime.Goexit] through
    [b.Fatalf]) is modelled as a function from a state to a new state and
    an [outcome]: [Normal] with a result, or [Abrupt] with the reason. *)

Inductive outcome (E A : Type) : Type :=
| Normal (a : A)
| Abrupt (e : E).
Arguments Normal {E A} a.
Arguments Abrupt {E A} e.

Definition ST (St E A : Type) : Type := St -> St * outcome E A.

Definition st_ret {St E A} (a : A) : ST St E A := fun s => (s, Normal a).

Definition st_bind {St E A B} (m : ST St E A) (k : A -> ST St E B) : ST St E B :=
  fun s =>
    match m s with
    | (s', Normal a) => k a s'
    | (s', Abrupt e) => (s', Abrupt e)
    end.

Definition st_get {St E} : ST St E St := fun s => (s, Normal s).
Definition st_modify {St E} (f : St -> St) : ST St E unit := fun s => (f s, Normal tt).
Definition st_throw {St E A} (e : E) : ST St E A := fun s => (s, Abrupt e).

Notation "x <- m ;; k" := (st_bind m (fun x => k))
  (at level 100, m at next level, right associativity) : bench_scope.
Notation "m ;; k" := (st_bind m (fun _ => k))
  (at level 100, right associativity) : bench_scope.

Open Scope bench_scope.

Lemma st_bind_normal {St E A B} (m : ST St E A) (k : A -> ST St E B) s s' a :
  m s = (s', Normal a) -> st_bind m k s = k a s'.
Proof. intros H. unfold st_bind. by rewrite H. Qed.

Lemma st_bind_abrupt {St E A B} (m : ST St E A) (k : A -> ST St E B) s s' e :
  m s = (s', Abrupt e) -> st_bind m k s = (s', Abrupt e).
Proof. intros H. unfold st_bind. by rewrite H. Qed.

Lemma st_bind_ret {St E A B} (a : A) (k : A -> ST St E B) s : st_bind (st_ret a) k s = k a s.
Proof. done. Qed.

Lemma st_bind_modify {St E B} (f : St -> St) (k : unit -> ST St E B) s :
  st_bind (st_modify f) k s = k tt (f s).
Proof. done. Qed.

(** ** The [for i := 0; i < n; i++] loop of Go *)

Fixpoint go_for_from {St E} (i k : nat) (body : nat -> ST St E unit) : ST St E unit :=
  match k with
  | O => st_ret tt
  | S k' => body i ;; go_for_from (S i) k' body
  end.

Definition go_for {St E} (n : nat) (body : nat -> ST St E unit) : ST St E unit :=
  go_for_from 0 n body.

Section LoopRule.
Context {St E : Type}.
Variable body : nat -> ST St E unit.
(** A loop invariant indexed by the loop counter, for a loop of [n] trips. *)
Variable inv : nat -> St -> Prop.
Variable n : nat.
Hypothesis body_step :
  forall i s, i < n -> inv i s -> exists s', body i s = (s', Normal tt) /\ inv (S i) s'.

Lemma go_for_from_inv k : forall i s, i + k <= n -> inv i s ->
  exists s', go_for_from i k body s = (s', Normal tt) /\ inv (i + k) s'.
Proof.
  induction k as [|k IH]; intros i s Hk Hi; simpl.
  - exists s. rewrite Nat.add_0_r. done.
  - destruct (body_step i s ltac:(lia) Hi) as (s1 & Hb & H1).
    rewrite (st_bind_normal _ _ _ _ _ Hb).
    destruct (IH (S i) s1 ltac:(lia) H1) as (s2 & Hl & H2).
    exists s2. rewrite Nat.add_succ_r. done.
Qed.

Lemma go_for_inv s : inv 0 s -> exists s', go_for n body s = (s', Normal tt) /\ inv n s'.
Proof. intros H0. by apply (go_for_from_inv n 0 s). Qed.

End LoopRule.

Section LoopAbort.
Context {St E : Type}.
Variable body : nat -> ST St E unit.
Variable inv : nat -> St -> Prop.
Variables n j : nat.
(** The trips before [j] end normally; trip [j] exits abruptly. *)
Hypothesis prefix_step :
  forall i s, i < j -> inv i s -> exists s', body i s = (s', Normal tt) /\ inv (S i) s'.
Variable s_fail : St -> St.
Variable e : E.
Hypothesis trip_fails : forall s, inv j s -> body j s = (s_fail s, Abrupt e).

(** An abrupt exit of the body at trip [j < n] stops the loop there. *)
Lemma go_for_abort s :
  j < n -> inv 0 s -> exists s', inv j s' /\ go_for n body s = (s_fail s', Abrupt e).
Proof.
  intros Hj H0. unfold go_for.
  assert (Hgen : forall k i s, i + k = n -> i <= j -> inv i s ->
    exists s', inv j s' /\ go_for_from i k body s = (s_fail s', Abrupt e)).
  { intros k. induction k as [|k IH]; intros i s1 Hik Hij Hi; [lia|].
    simpl. destruct (decide (i = j)) as [->|Hne].
    - exists s1. split; [done|]. by rewrite (st_bind_abrupt _ _ _ _ _ (trip_fails s1 Hi)).
    - destruct (prefix_step i s1 ltac:(lia) Hi) as (s2 & Hb & H2).
      rewrite (st_bind_normal _ _ _ _ _ Hb). apply IH; [lia|lia|done]. }
  apply (Hgen n 0 s); [done|lia|done].
Qed.
End LoopAbort.

(** ** Equivalent computations

    Two computations are equivalent ([≡]) when, from every state, they
    end in the same state with the same outcome. Binds and loops respect
    it, so a part of a program can be exchanged for an equivalent one by
    setoid rewriting. *)
#[export] Instance st_equiv {St E A} : Equiv (ST St E A) := fun m1 m2 => forall s, m1 s = m2 s.

#[export] Instance st_equiv_equivalence {St E A} : Equivalence (≡@{ST St E A}).
Proof.
  split; unfold equiv, st_equiv; [done|intros m1 m2 H s; by rewrite H|].
  intros m1 m2 m3 H1 H2 s. by rewrite H1, H2.
Qed.

#[export] Instance st_bind_proper {St E A B} :
  Proper ((≡) ==> pointwise_relation A (≡) ==> (≡)) (@st_bind St E A B).
Proof.
  intros m1 m2 Hm k1 k2 Hk s. unfold st_bind. rewrite (Hm s).
  destruct (m2 s) as [s' [a|e]]; [apply Hk|done].
Qed.

#[export] Instance go_for_from_proper {St E} i k :
  Proper (pointwise_relation nat (≡) ==> (≡)) (@go_for_from St E i k).
Proof.
  revert i. induction k as [|k IH]; intros i b1 b2 Hb; simpl; [done|].
  f_equiv; [apply Hb|intros _; by apply IH].
Qed.

#[export] Instance go_for_proper {St E} n :
  Proper (pointwise_relation nat (≡) ==> (≡)) (@go_for St E n).
Proof. apply go_for_from_proper. Qed.

(** ** Sums over lists updated in place *)

Lemma sum_list_with_insert {A} (f : A -> nat) (l : list A) i x y :
  l !! i = Some x -> sum_list_with f (<[i := y]> l) + f x = sum_list_with f l + f y.
Proof.
  revert i. induction l as [|z l IH]; intros [|i] Hi; simpl in *; try discriminate.
  - injection Hi as ->. lia.
  - specialize (IH i Hi). lia.
Qed.

Lemma sum_list_with_insert_same {A} (f : A -> nat) (l : list A) i x y :
  l !! i = Some x -> f x = f y -> sum_list_with f (<[i := y]> l) = sum_list_with f l.
Proof. intros Hi Hf. pose proof (sum_list_with_insert f l i x y Hi). lia. Qed.

Lemma sum_list_with_le_length {A} (f : A -> nat) (l : list A) :
  (forall x, f x <= 1) -> sum_list_with f l <= List.length l.
Proof. intros Hf. induction l as [|x l IH]; simpl; [lia|]. specialize (Hf x). lia. Qed.

Lemma sum_list_with_lookup {A} (f : A -> nat) (l : list A) i x :
  l !! i = Some x -> f x <= sum_list_with f l.
Proof. intros Hi. apply sum_list_with_in. by eapply list_elem_of_lookup_2. Qed.

Lemma sum_list_with_zero {A} (f : A -> nat) (l : list A) :
  (forall i x, l !! i = Some x -> f x = 0) -> sum_list_with f l = 0.
Proof.
  induction l as [|y l IH]; simpl; intros H; [done|].
  rewrite (H 0 y eq_refl), IH; [done|]. intros i x. apply (H (S i)).
Qed.

(** An invariant of a relation holds along its reflexive-transitive
    closure. *)
Lemma rtc_preserve {A} (R : relation A) (I : A -> Prop) :
  (forall x y, R x y -> I x -> I y) -> forall x y, rtc R x y -> I x -> I y.
Proof. intros Hstep x y H. induction H; eauto. Qed.

Lemma forallb_false_lookup {A} (f : A -> bool) (l : list A) :
  forallb f l = false -> exists i x, l !! i = Some x /\ f x = false.
Proof.
  induction l as [|y l IH]; simpl; [discriminate|].
  destruct (f y) eqn:E; simpl; [|intros _; by exists 0, y].
  intros H. destruct (IH H) as (i & x & ? & ?). by exists (S i), x.
Qed.

Lemma forallb_lookup {A} (f : A -> bool) (l : list A) i x :
  forallb f l = true -> l !! i = Some x -> f x = true.
Proof.
  rewrite forallb_forall. intros H Hi. apply H, list_elem_of_In.
  by eapply list_elem_of_lookup_2.
Qed.

(** The default of [List.last] does not matter on a non-empty list. *)
Lemma last_cons_default {A} (x : A) l a b : List.last (x :: l) a = List.last (x :: l) b.
Proof.
  revert x. induction l as [|y l IH]; intros x; [done|].
  change (List.last (y :: l) a = List.last (y :: l) b). apply IH.
Qed.

Lemma Forall_last {A} (P : A -> Prop) x l d : Forall P (x :: l) -> P (List.last (x :: l) d).
Proof.
  revert x. induction l as [|y l IH]; intros x Hl; [by inversion Hl|].
  change (P (List.last (y :: l) d)). apply IH. by inversion Hl.
Qed.

(** ** Options and strings *)

Lemma string_app_assoc (a b c : string) : (a ++ b ++ c = (a ++ b) ++ c)%string.
Proof.
  induction a as [|x a IH]; [done|].
  change (String x (a ++ b ++ c) = String x ((a ++ b) ++ c))%string. by rewrite IH.
Qed.


Lemma string_length_app (a b : string) :
  String.length (a ++ b) = String.length a + String.length b.
Proof.
  induction a as [|x a IH]; [done|].
  change (S (String.length (a ++ b)) = S (String.length a + String.length b)). by rewrite IH.
Qed.

Lemma list_ascii_of_string_app (a b : string) :
  list_ascii_of_string (a ++ b) = list_ascii_of_string a ++ list_ascii_of_string b.
Proof. induction a as [|c a IH]; simpl; [done|by rewrite IH]. Qed.

Lemma list_ascii_of_string_inj (a b : string) : list_ascii_of_string a = list_ascii_of_string b -> a = b.
Proof. intros E. by rewrite <- (string_of_list_ascii_of_string a), E, string_of_list_ascii_of_string. Qed.

(** Cancelling a common prefix and suffix of strings. *)
Lemma string_app_cancel (p s1 s2 q : string) : ((p ++ s1) ++ q = (p ++ s2) ++ q)%string -> s1 = s2.
Proof.
  intros E. apply (f_equal list_ascii_of_string) in E. rewrite !list_ascii_of_string_app in E.
  apply app_inv_tail, app_inv_head in E. by apply list_ascii_of_string_inj.
Qed.

#[export] Hint Rewrite string_app_assoc string_length_app : bench_rw.
