(* ===== verification/Decimal.v ===== *)
(** * Decimal text of 64-bit integers

    Redis keeps counters as strings: [INCR] parses the stored value with
    [string2ll] (util.c) and stores the incremented value printed by
    [ll2string]; the reply to [GET] is that text, and the radix client
    prints integer replies decoded into a Go string the same way
    ([strconv.FormatInt]). This file models both functions over Stdlib
    strings (a Go or C string is a sequence of bytes, one [ascii] each) and
    proves the round trip in both directions on the 64-bit range. *)

From S2P Require Import Prelude.

Module Decimal.

(** [ULLONG_MAX] of C: the parser accumulates in an unsigned 64-bit
    integer and refuses a value that would exceed it. *)
Definition ULLONG_MAX : Z := 2 ^ 64 - 1.

(** [LONG_STR_SIZE] of util.c: strings of 21 bytes or more are refused. *)
Definition LONG_STR_SIZE : nat := 21.

Definition is_digit (c : ascii) : bool :=
  (48 <=? N_of_ascii c)%N && (N_of_ascii c <=? 57)%N.

Definition digit_value (c : ascii) : Z := Z.of_N (N_of_ascii c) - 48.

Definition digit_char (d : Z) : ascii := ascii_of_N (Z.to_N (48 + d)).

(** ** Printing: [ll2string] *)

(** The digits of a non-negative value, most significant first; [fuel]
    bounds the number of divisions by ten (20 digits cover [ULLONG_MAX]). *)
Fixpoint utoa (fuel : nat) (v : Z) : string :=
  match fuel with
  | O => String (digit_char (v mod 10)) EmptyString
  | S f =>
      if (v <? 10)%Z then String (digit_char v) EmptyString
      else (utoa f (v / 10) ++ String (digit_char (v mod 10)) EmptyString)%string
  end.

Definition ull2string (v : Z) : string := utoa 20 v.

Definition ll2string (z : Z) : string :=
  if (z <? 0)%Z then String "-" (ull2string (- z)) else ull2string z.

(** ** Parsing: [string2ll] *)

(** The digit loop of [string2ll]: [v] is the unsigned accumulator; a
    non-digit byte or an accumulator above [ULLONG_MAX] refuses. *)
Fixpoint s2ll_loop (s : string) (v : Z) : option Z :=
  match s with
  | EmptyString => Some v
  | String c s' =>
      if is_digit c then
        if (v >? ULLONG_MAX / 10)%Z then None
        else
          let v1 := (v * 10)%Z in
          if (v1 >? ULLONG_MAX - digit_value c)%Z then None
          else s2ll_loop s' (v1 + digit_value c)
      else None
  end.

(** After the optional sign, the first digit must be 1..9, so neither
    leading zeros nor ["-0"] are accepted; the single byte ["0"] is taken
    by the one-digit fast path. *)
Definition s2ll_unsigned (s : string) : option Z :=
  match s with
  | String c s' =>
      if is_digit c && negb (Ascii.eqb c "0") then s2ll_loop s' (digit_value c)
      else None
  | EmptyString => None
  end.

Definition string2ll (s : string) : option Z :=
  let slen := String.length s in
  if (slen =? 0) || (LONG_STR_SIZE <=? slen) then None
  else
    match s with
    | EmptyString => None
    | String c rest =>
        if (slen =? 1) && is_digit c then Some (digit_value c)
        else if Ascii.eqb c "-" then
          match s2ll_unsigned rest with
          | Some v => if (v >? - LLONG_MIN)%Z then None else Some (- v)%Z
          | None => None
          end
        else
          match s2ll_unsigned s with
          | Some v => if (v >? LLONG_MAX)%Z then None else Some v
          | None => None
          end
    end.

(** ** Digits *)

Lemma digit_char_value d : (0 <= d <= 9)%Z -> digit_value (digit_char d) = d.
Proof.
  intros Hd. unfold digit_value, digit_char.
  rewrite N_ascii_embedding by lia. lia.
Qed.

Lemma digit_char_is_digit d : (0 <= d <= 9)%Z -> is_digit (digit_char d) = true.
Proof.
  intros Hd. unfold is_digit, digit_char.
  rewrite N_ascii_embedding by lia. apply andb_true_iff; split; apply N.leb_le; lia.
Qed.

Lemma digit_char_nonzero d : (1 <= d <= 9)%Z -> Ascii.eqb (digit_char d) "0" = false.
Proof.
  intros Hd. apply Ascii.eqb_neq. intros He.
  apply (f_equal digit_value) in He. rewrite digit_char_value in He by lia.
  vm_compute in He. lia.
Qed.

Lemma digit_char_not_minus d : (0 <= d <= 9)%Z -> Ascii.eqb (digit_char d) "-" = false.
Proof.
  intros Hd. apply Ascii.eqb_neq. intros He.
  apply (f_equal digit_value) in He. rewrite digit_char_value in He by lia.
  vm_compute in He. lia.
Qed.

#[export] Hint Rewrite digit_char_value digit_char_is_digit digit_char_nonzero
  digit_char_not_minus using lia : bench_rw.

(** ** Lemmas on the digit loop *)

Lemma s2ll_loop_app a b v :
  s2ll_loop (a ++ b) v = match s2ll_loop a v with Some w => s2ll_loop b w | None => None end.
Proof.
  revert v. induction a as [|c a IH]; intros v; [done|].
  change (String c a ++ b)%string with (String c (a ++ b)). simpl.
  destruct (is_digit c), (v >? ULLONG_MAX / 10)%Z; try done.
  destruct (v * 10 >? ULLONG_MAX - digit_value c)%Z; auto.
Qed.

Lemma s2ll_loop_digit d w :
  (0 <= d <= 9)%Z -> (0 <= w)%Z -> (w * 10 + d <= ULLONG_MAX)%Z ->
  s2ll_loop (String (digit_char d) EmptyString) w = Some (w * 10 + d)%Z.
Proof.
  intros Hd Hw Hb. simpl. autorewrite with bench_rw.
  destruct (Z.gtb_spec w (ULLONG_MAX / 10)) as [H|H].
  - exfalso. unfold ULLONG_MAX in *.
    assert (w * 10 <= 2 ^ 64 - 1)%Z by lia.
    assert (w <= (2 ^ 64 - 1) / 10)%Z by (apply Z.div_le_lower_bound; lia). lia.
  - destruct (Z.gtb_spec (w * 10) (ULLONG_MAX - d)); [lia | done].
Qed.

(** The digits printed for [v] read back as [v], appended to any
    accumulator [w] whose extension stays below [ULLONG_MAX]. *)
Lemma utoa_loop f v w :
  (0 <= v < 10 ^ Z.of_nat (S f))%Z -> (0 <= w)%Z ->
  (w * 10 ^ Z.of_nat (String.length (utoa f v)) + v <= ULLONG_MAX)%Z ->
  s2ll_loop (utoa f v) w = Some (w * 10 ^ Z.of_nat (String.length (utoa f v)) + v)%Z.
Proof.
  revert v w. induction f as [|f IH]; intros v w Hv Hw Hb.
  - cbn [utoa String.length Z.of_nat] in *. rewrite Z.mod_small in * by lia.
    rewrite s2ll_loop_digit by lia. f_equal; lia.
  - cbn [utoa] in *. destruct (Z.ltb_spec v 10).
    + cbn [String.length Z.of_nat] in *. rewrite s2ll_loop_digit by lia. f_equal; lia.
    + rewrite s2ll_loop_app.
      rewrite string_length_app in *. simpl String.length in *.
      rewrite Nat2Z.inj_add, Z.pow_add_r in * by lia.
      pose proof (Z.div_mod v 10 ltac:(lia)) as Hdm.
      pose proof (Z.mod_pos_bound v 10 ltac:(lia)) as Hm.
      set (n := Z.of_nat (String.length (utoa f (v / 10)))) in *.
      assert (0 <= 10 ^ n)%Z by lia.
      change (10 ^ Z.of_nat 1)%Z with 10%Z in *.
      rewrite IH; fold n.
      2: { split; [apply Z.div_pos; lia|].
           apply Z.div_lt_upper_bound; [lia|]. rewrite Nat2Z.inj_succ, Z.pow_succ_r in Hv; lia. }
      2: lia.
      2: nia.
      rewrite s2ll_loop_digit by nia. f_equal; nia.
Qed.

Lemma utoa_length f v k :
  (0 <= v < 10 ^ Z.of_nat k)%Z -> 1 <= k -> String.length (utoa f v) <= k.
Proof.
  revert v k. induction f as [|f IH]; intros v k Hv Hk; simpl; [lia|].
  destruct (Z.ltb_spec v 10); simpl; [lia|].
  rewrite string_length_app. simpl.
  destruct k as [|k]; [lia|].
  assert (k <> 0).
  { intros ->. simpl in Hv. lia. }
  enough (String.length (utoa f (v / 10)) <= k) by lia.
  apply IH; [|lia]. split; [apply Z.div_pos; lia|].
  apply Z.div_lt_upper_bound; [lia|]. rewrite Nat2Z.inj_succ, Z.pow_succ_r in Hv; lia.
Qed.

Lemma s2ll_loop_first d rest :
  (0 <= d <= 9)%Z -> s2ll_loop (String (digit_char d) rest) 0 = s2ll_loop rest d.
Proof.
  intros Hd. cbn [s2ll_loop]. autorewrite with bench_rw.
  destruct (Z.gtb_spec 0 (ULLONG_MAX / 10)) as [Hc|_];
    [assert (0 <= ULLONG_MAX / 10)%Z by (apply Z.div_pos; unfold ULLONG_MAX; lia); lia|].
  destruct (Z.gtb_spec (0 * 10) (ULLONG_MAX - d)); [unfold ULLONG_MAX in *; lia|].
  done.
Qed.

Lemma utoa_head f v :
  (1 <= v < 10 ^ Z.of_nat (S f))%Z ->
  exists d rest, utoa f v = String (digit_char d) rest /\ (1 <= d <= 9)%Z.
Proof.
  revert v. induction f as [|f IH]; intros v Hv; cbn [utoa].
  - simpl in Hv. exists v, EmptyString. rewrite Z.mod_small by lia. split; [done|lia].
  - destruct (Z.ltb_spec v 10).
    + exists v, EmptyString. split; [done|lia].
    + destruct (IH (v / 10)%Z) as (d & rest & Hu & Hd).
      { split; [apply Z.div_le_lower_bound; lia|].
        apply Z.div_lt_upper_bound; [lia|]. rewrite Nat2Z.inj_succ, Z.pow_succ_r in Hv; lia. }
      rewrite Hu. by exists d, (rest ++ String (digit_char (v mod 10)) EmptyString)%string.
Qed.

(** The text of a value of 1 digit or more, read after its first digit. *)
Lemma utoa_read f v :
  (1 <= v < 10 ^ Z.of_nat (S f))%Z -> (v <= ULLONG_MAX)%Z ->
  exists d rest, utoa f v = String (digit_char d) rest /\ (1 <= d <= 9)%Z /\
                 s2ll_loop rest d = Some v.
Proof.
  intros Hv Hu. destruct (utoa_head f v Hv) as (d & rest & Hs & Hd).
  exists d, rest. do 2 (split; [done|]).
  rewrite <- s2ll_loop_first by lia. rewrite <- Hs, utoa_loop by (try lia; nia).
  f_equal; lia.
Qed.

Lemma ull2string_length v : (0 <= v <= 2 ^ 63)%Z -> String.length (ull2string v) <= 19.
Proof. intros Hv. apply utoa_length; [split; [lia|] |lia]. cbn [Z.of_nat Pos.of_succ_nat Pos.succ]; lia. Qed.

(** (roundtrip): every 64-bit integer printed by [ll2string] is
    read back by [string2ll] as itself; this is what lets [INCR] find the
    value it stored at the previous increment. *)
Theorem string2ll_ll2string z : in_int64 z = true -> string2ll (ll2string z) = Some z.
Proof.
  intros Hz. int64_bounds. unfold ll2string.
  destruct (Z.ltb_spec z 0) as [Hneg|Hpos].
  - assert (Hl := ull2string_length (- z) ltac:(lia)).
    destruct (utoa_read 20 (- z)) as (d & rest & Hs & Hd & Hr);
      [split; [lia|]; cbn [Z.of_nat Pos.of_succ_nat Pos.succ]; lia | unfold ULLONG_MAX; lia |].
    unfold ull2string in *. rewrite Hs in Hl |- *.
    unfold string2ll, s2ll_unsigned. cbn [String.length] in *. autorewrite with bench_rw.
    rewrite (proj2 (Nat.leb_gt LONG_STR_SIZE _)) by (unfold LONG_STR_SIZE; lia).
    simpl. rewrite Hr. destruct (Z.gtb_spec (- z) (- LLONG_MIN)); unfold LLONG_MIN in *; [lia|].
    by rewrite Z.opp_involutive.
  - destruct (Z.ltb_spec z 10) as [Hsmall|Hbig].
    + unfold ull2string. cbn [utoa]. rewrite (proj2 (Z.ltb_lt z 10)) by lia.
      unfold string2ll. simpl. autorewrite with bench_rw. done.
    + assert (Hl := ull2string_length z ltac:(lia)).
      destruct (utoa_read 20 z) as (d & rest & Hs & Hd & Hr);
        [split; [lia|]; cbn [Z.of_nat Pos.of_succ_nat Pos.succ]; lia | unfold ULLONG_MAX; lia |].
      unfold ull2string in *. rewrite Hs in Hl |- *.
      unfold string2ll, s2ll_unsigned. cbn [String.length] in *. autorewrite with bench_rw.
      rewrite Hr. destruct (Z.gtb_spec z LLONG_MAX); unfold LLONG_MAX in *; [lia|].
      rewrite (proj2 (Nat.leb_gt LONG_STR_SIZE _)) by (unfold LONG_STR_SIZE; lia).
      destruct rest as [|c rest'].
      * simpl in Hr |- *. autorewrite with bench_rw. congruence.
      * simpl. autorewrite with bench_rw.
        destruct (Z.gtb_spec z (2 ^ 63 - 1)); [lia|done].
Qed.

(** ** Range of the parsed values *)

Lemma is_digit_value c : is_digit c = true -> (0 <= digit_value c <= 9)%Z.
Proof.
  unfold is_digit, digit_value. rewrite andb_true_iff, !N.leb_le. lia.
Qed.

Lemma s2ll_loop_ge s v w : s2ll_loop s v = Some w -> (0 <= v)%Z -> (v <= w)%Z.
Proof.
  revert v. induction s as [|c s IH]; intros v Hs Hv; simpl in Hs; [injection Hs as <-; lia|].
  destruct (is_digit c) eqn:Hc; [|discriminate].
  apply is_digit_value in Hc.
  destruct (v >? ULLONG_MAX / 10)%Z; [discriminate|].
  destruct (v * 10 >? ULLONG_MAX - digit_value c)%Z; [discriminate|].
  apply IH in Hs; lia.
Qed.

Lemma s2ll_unsigned_nonneg s v : s2ll_unsigned s = Some v -> (0 <= v)%Z.
Proof.
  destruct s as [|c s]; simpl; [discriminate|].
  destruct (is_digit c) eqn:Hc; simpl; [|discriminate].
  apply is_digit_value in Hc.
  destruct (Ascii.eqb c "0"); simpl; [discriminate|].
  intros Hs. apply s2ll_loop_ge in Hs; lia.
Qed.

(** Every value [string2ll] accepts is a 64-bit integer. *)
Lemma string2ll_range s z : string2ll s = Some z -> in_int64 z = true.
Proof.
  unfold string2ll. destruct (_ || _); [discriminate|].
  destruct s as [|c rest]; [discriminate|].
  destruct (_ && is_digit c) eqn:Hd.
  { apply andb_true_iff in Hd as [_ Hd]. apply is_digit_value in Hd.
    intros [= <-]. int64_bounds. lia. }
  destruct (Ascii.eqb c "-").
  - destruct (s2ll_unsigned rest) as [v|] eqn:Hv; [|discriminate].
    apply s2ll_unsigned_nonneg in Hv.
    destruct (Z.gtb_spec v (- LLONG_MIN)); [discriminate|].
    intros [= <-]. int64_bounds. lia.
  - destruct (s2ll_unsigned (String c rest)) as [v|] eqn:Hv; [|discriminate].
    apply s2ll_unsigned_nonneg in Hv.
    destruct (Z.gtb_spec v LLONG_MAX); [discriminate|].
    intros [= <-]. int64_bounds. lia.
Qed.

End Decimal.
