(* ===== verification/Redis.v ===== *)
(** * The Redis server, as the benchmarks use it

    The server is an external collaborator: the repository only sends it
    commands. It is modelled from the spec (section 6: GET, DEL, HGET,
    HDEL, INCR, INCRBY, HINCRBY "with standard semantics") following the
    command implementations of Redis (t_string.c, t_hash.c, db.c):

    - the keyspace is a [gmap] from keys to values, a value being a string
      or a hash (itself a [gmap] from fields to strings); counters are kept
      as their decimal text ([Decimal.ll2string]);
    - a request is the list of strings the client sends (command name
      first), and [exec] dispatches it to the command and returns the new
      keyspace and the reply;
    - the increments read the old value with [Decimal.string2ll], refuse a
      sum outside the 64-bit range with the C overflow test of
      [incrDecrCommand], and refuse a key of the wrong type with WRONGTYPE.

    A command runs atomically: concurrent clients see the keyspace change
    one command at a time (the single-threaded event loop of Redis). *)

From S2P Require Import Prelude Decimal.
Import Decimal.

Module Redis.

Inductive RValue : Type :=
| VString (s : string)
| VHash (h : gmap string string).

Abbreviation Keyspace := (gmap string RValue).

(** The replies of the protocol that these commands produce. *)
Inductive Reply : Type :=
| RInt (z : Z)
| RBulk (s : string)
| RNil
| RErr (msg : string).

Definition WRONGTYPE : string :=
  "WRONGTYPE Operation against a key holding the wrong kind of value".
Definition ERR_NOT_INT : string := "ERR value is not an integer or out of range".
Definition ERR_OVERFLOW : string := "ERR increment or decrement would overflow".
Definition ERR_HASH_NOT_INT : string := "ERR hash value is not an integer".
Definition ERR_SYNTAX : string := "ERR unknown command or wrong number of arguments".

(** The overflow test of [incrDecrCommand] and [hincrbyCommand]. *)
Definition would_overflow (oldvalue incr : Z) : bool :=
  ((incr <? 0) && (oldvalue <? 0) && (incr <? LLONG_MIN - oldvalue))%Z
  || ((0 <? incr) && (0 <? oldvalue) && (LLONG_MAX - oldvalue <? incr))%Z.

(** [GET key] (getGenericCommand). *)
Definition get (k : string) (ks : Keyspace) : Keyspace * Reply :=
  match ks !! k with
  | None => (ks, RNil)
  | Some (VString s) => (ks, RBulk s)
  | Some (VHash _) => (ks, RErr WRONGTYPE)
  end.

(** [DEL key [key ...]] (delGenericCommand): the count of removed keys. *)
Fixpoint del (keys : list string) (ks : Keyspace) : Keyspace * Z :=
  match keys with
  | [] => (ks, 0%Z)
  | k :: rest =>
      let removed := match ks !! k with Some _ => 1%Z | None => 0%Z end in
      let '(ks', n) := del rest (delete k ks) in
      (ks', (removed + n)%Z)
  end.

(** The old value of a counter key as [incrDecrCommand] reads it:
    [checkType] then [getLongLongFromObjectOrReply]; a missing key is 0. *)
Definition read_counter (k : string) (ks : Keyspace) : string + Z :=
  match ks !! k with
  | None => inr 0%Z
  | Some (VHash _) => inl WRONGTYPE
  | Some (VString s) =>
      match string2ll s with Some v => inr v | None => inl ERR_NOT_INT end
  end.

(** [INCRBY key incr] once [incr] is parsed (incrDecrCommand). *)
Definition incr_decr (k : string) (incr : Z) (ks : Keyspace) : Keyspace * Reply :=
  match read_counter k ks with
  | inl e => (ks, RErr e)
  | inr oldvalue =>
      if would_overflow oldvalue incr then (ks, RErr ERR_OVERFLOW)
      else
        let value := (oldvalue + incr)%Z in
        (<[k := VString (ll2string value)]> ks, RInt value)
  end.

(** [INCRBY key increment] (incrbyCommand): the increment is parsed first. *)
Definition incrby (k incr : string) (ks : Keyspace) : Keyspace * Reply :=
  match string2ll incr with
  | None => (ks, RErr ERR_NOT_INT)
  | Some i => incr_decr k i ks
  end.

(** [INCR key] (incrCommand). *)
Definition incr (k : string) (ks : Keyspace) : Keyspace * Reply := incr_decr k 1 ks.

(** [HGET key field] (hgetCommand). *)
Definition hget (k f : string) (ks : Keyspace) : Keyspace * Reply :=
  match ks !! k with
  | None => (ks, RNil)
  | Some (VString _) => (ks, RErr WRONGTYPE)
  | Some (VHash h) =>
      match h !! f with
      | None => (ks, RNil)
      | Some s => (ks, RBulk s)
      end
  end.

(** [HDEL key field [field ...]] (hdelCommand): fields are removed one by
    one, and the key goes when its hash becomes empty. *)
Fixpoint hdel_fields (fields : list string) (h : gmap string string) : gmap string string * Z :=
  match fields with
  | [] => (h, 0%Z)
  | f :: rest =>
      let removed := match h !! f with Some _ => 1%Z | None => 0%Z end in
      let '(h', n) := hdel_fields rest (delete f h) in
      (h', (removed + n)%Z)
  end.

Definition hdel (k : string) (fields : list string) (ks : Keyspace) : Keyspace * Reply :=
  match ks !! k with
  | None => (ks, RInt 0)
  | Some (VString _) => (ks, RErr WRONGTYPE)
  | Some (VHash h) =>
      let '(h', n) := hdel_fields fields h in
      let ks' := if decide (h' = ∅) then delete k ks else <[k := VHash h']> ks in
      (ks', RInt n)
  end.

(** [hashTypeLookupWriteOrCreate]: the hash at [k], a new empty one if
    the key is missing, WRONGTYPE if it holds a string. *)
Definition hash_lookup_or_create (k : string) (ks : Keyspace) : string + gmap string string :=
  match ks !! k with
  | None => inr ∅
  | Some (VString _) => inl WRONGTYPE
  | Some (VHash h) => inr h
  end.

(** The old value of a hash field as [hincrbyCommand] reads it. *)
Definition read_hash_counter (f : string) (h : gmap string string) : string + Z :=
  match h !! f with
  | None => inr 0%Z
  | Some s => match string2ll s with Some v => inr v | None => inl ERR_HASH_NOT_INT end
  end.

(** [HINCRBY key field increment] (hincrbyCommand). The hash is looked up
    or created ([hashTypeLookupWriteOrCreate]) after the increment is
    parsed; a new hash is only stored together with its field, since no
    error can follow the creation of an empty hash. *)
Definition hincrby (k f incr : string) (ks : Keyspace) : Keyspace * Reply :=
  match string2ll incr with
  | None => (ks, RErr ERR_NOT_INT)
  | Some i =>
      match hash_lookup_or_create k ks with
      | inl e => (ks, RErr e)
      | inr h =>
          match read_hash_counter f h with
          | inl e => (ks, RErr e)
          | inr oldvalue =>
              if would_overflow oldvalue i then (ks, RErr ERR_OVERFLOW)
              else
                let value := (oldvalue + i)%Z in
                (<[k := VHash (<[f := ll2string value]> h)]> ks, RInt value)
          end
      end
  end.

(** A request after command lookup and arity check ([lookupCommand] and
    the arity test of [processCommand]). *)
Inductive Command : Type :=
| CGet (k : string)
| CDel (keys : list string)
| CIncr (k : string)
| CIncrBy (k incr : string)
| CHGet (k f : string)
| CHDel (k : string) (fields : list string)
| CHIncrBy (k f incr : string).

Definition parse_request (req : list string) : option Command :=
  match req with
  | ["GET"; k] => Some (CGet k)
  | "DEL" :: ((_ :: _) as keys) => Some (CDel keys)
  | ["INCR"; k] => Some (CIncr k)
  | ["INCRBY"; k; i] => Some (CIncrBy k i)
  | ["HGET"; k; f] => Some (CHGet k f)
  | "HDEL" :: k :: ((_ :: _) as fields) => Some (CHDel k fields)
  | ["HINCRBY"; k; f; i] => Some (CHIncrBy k f i)
  | _ => None
  end%string.

Definition run (c : Command) (ks : Keyspace) : Keyspace * Reply :=
  match c with
  | CGet k => get k ks
  | CDel keys => let '(ks', n) := del keys ks in (ks', RInt n)
  | CIncr k => incr k ks
  | CIncrBy k i => incrby k i ks
  | CHGet k f => hget k f ks
  | CHDel k fields => hdel k fields ks
  | CHIncrBy k f i => hincrby k f i ks
  end.

(** The server's handling of one request: the new keyspace and the reply. *)
Definition exec (req : list string) (ks : Keyspace) : Keyspace * Reply :=
  match parse_request req with
  | Some c => run c ks
  | None => (ks, RErr ERR_SYNTAX)
  end.

(** ** Lemmas *)

Lemma read_counter_range k ks v : read_counter k ks = inr v -> in_int64 v = true.
Proof.
  unfold read_counter. destruct (ks !! k) as [[s|h]|]; try discriminate.
  - destruct (string2ll s) eqn:E; intros [= <-]. by eapply string2ll_range.
  - intros [= <-]. done.
Qed.

Lemma read_hash_counter_range f h v : read_hash_counter f h = inr v -> in_int64 v = true.
Proof.
  unfold read_hash_counter. destruct (h !! f) as [s|].
  - destruct (string2ll s) eqn:E; intros [= <-]. by eapply string2ll_range.
  - intros [= <-]. done.
Qed.

(** The C overflow test of [incrDecrCommand], on 64-bit operands, refuses
    exactly the sums that leave the 64-bit range. *)
Lemma would_overflow_spec a b :
  in_int64 a = true -> in_int64 b = true -> would_overflow a b = negb (in_int64 (a + b)).
Proof.
  intros Ha Hb. unfold would_overflow, in_int64 in *.
  apply andb_true_iff in Ha as [Ha1 Ha2]. apply andb_true_iff in Hb as [Hb1 Hb2].
  apply Z.leb_le in Ha1, Ha2, Hb1, Hb2. unfold LLONG_MIN, LLONG_MAX in *.
  zbool; lia.
Qed.

Lemma read_counter_string k ks v :
  in_int64 v = true -> read_counter k (<[k := VString (ll2string v)]> ks) = inr v.
Proof.
  intros Hv. unfold read_counter. rewrite lookup_insert_eq. by rewrite string2ll_ll2string.
Qed.

Lemma read_hash_counter_string f h v :
  in_int64 v = true -> read_hash_counter f (<[f := ll2string v]> h) = inr v.
Proof.
  intros Hv. unfold read_hash_counter. rewrite lookup_insert_eq. by rewrite string2ll_ll2string.
Qed.

#[export] Hint Resolve read_counter_range read_hash_counter_range : bench.

(** ** Increments *)

(** (functional): when the key holds a counter [v] (or is missing,
    [v = 0]) and the sum stays in the 64-bit range, [INCRBY] stores the
    text of [v + incr], replies [v + incr], and the next increment reads
    [v + incr] back. *)
Theorem incr_decr_adds k incr ks v :
  read_counter k ks = inr v -> in_int64 incr = true -> in_int64 (v + incr) = true ->
  incr_decr k incr ks = (<[k := VString (ll2string (v + incr))]> ks, RInt (v + incr)) /\
  read_counter k (incr_decr k incr ks).1 = inr (v + incr)%Z.
Proof.
  intros Hr Hi Hs.
  assert (Heq : incr_decr k incr ks = (<[k := VString (ll2string (v + incr))]> ks, RInt (v + incr))).
  { unfold incr_decr. rewrite Hr, would_overflow_spec, Hs by eauto with bench. done. }
  rewrite Heq. split; [done|]. by apply read_counter_string.
Qed.

(** (bounds): when the sum leaves the 64-bit range, [INCRBY] replies
    with the overflow error and the keyspace is unchanged. *)
Theorem incr_decr_overflow k incr ks v :
  read_counter k ks = inr v -> in_int64 incr = true -> in_int64 (v + incr) = false ->
  incr_decr k incr ks = (ks, RErr ERR_OVERFLOW).
Proof.
  intros Hr Hi Hs. unfold incr_decr.
  rewrite Hr, would_overflow_spec, Hs by eauto with bench. done.
Qed.

(** [HINCRBY] on a field holding [v] (or missing) adds the parsed increment. *)
Theorem hincrby_adds k f incr i ks h v :
  string2ll incr = Some i -> hash_lookup_or_create k ks = inr h ->
  read_hash_counter f h = inr v -> in_int64 (v + i) = true ->
  hincrby k f incr ks = (<[k := VHash (<[f := ll2string (v + i)]> h)]> ks, RInt (v + i)).
Proof.
  intros Hp Hh Hr Hs. unfold hincrby. rewrite Hp, Hh, Hr.
  rewrite would_overflow_spec, Hs by eauto using string2ll_range with bench. done.
Qed.

(** ** Errors are atomic *)

Lemma incr_decr_error k i ks ks' e : incr_decr k i ks = (ks', RErr e) -> ks' = ks.
Proof.
  unfold incr_decr. destruct (read_counter k ks); [by intros [= <-]|].
  destruct (would_overflow _ _); by intros [= <-].
Qed.

Lemma hincrby_error k f i ks ks' e : hincrby k f i ks = (ks', RErr e) -> ks' = ks.
Proof.
  unfold hincrby. destruct (string2ll i); [|by intros [= <-]].
  destruct (hash_lookup_or_create k ks); [by intros [= <-]|].
  destruct (read_hash_counter f _); [by intros [= <-]|].
  destruct (would_overflow _ _); by intros [= <-].
Qed.

(** (error): a request the server answers with an error, whatever
    the command and the cause (unknown command, WRONGTYPE, a value that is
    not an integer, an overflow), leaves the keyspace unchanged. *)
Theorem exec_error_keeps_keyspace req ks ks' e :
  exec req ks = (ks', RErr e) -> ks' = ks.
Proof.
  unfold exec. destruct (parse_request req) as [c|]; [|by intros [= <-]].
  destruct c as [k|keys|k|k i|k f|k fields|k f i]; simpl.
  - unfold get. destruct (ks !! k) as [[]|]; by intros [= <-].
  - by destruct (del keys ks).
  - apply incr_decr_error.
  - unfold incrby. destruct (string2ll i); [apply incr_decr_error | by intros [= <-]].
  - unfold hget. destruct (ks !! k) as [[|h]|]; [by intros [= <-]| |by intros [= <-]].
    destruct (h !! f); by intros [= <-].
  - unfold hdel. destruct (ks !! k) as [[|h]|]; [by intros [= <-]| |done].
    by destruct (hdel_fields fields h).
  - apply hincrby_error.
Qed.

(** ** The keyspace invariant: no empty hash is stored *)

Definition keyspace_wf (ks : Keyspace) : Prop :=
  map_Forall (fun _ v => match v with VHash h => h <> ∅ | VString _ => True end) ks.

Lemma keyspace_wf_delete k ks : keyspace_wf ks -> keyspace_wf (delete k ks).
Proof. apply map_Forall_delete. Qed.

Lemma keyspace_wf_insert_string k s ks :
  keyspace_wf ks -> keyspace_wf (<[k := VString s]> ks).
Proof. intros H. by apply map_Forall_insert_2. Qed.

Lemma keyspace_wf_insert_hash k h ks :
  h <> ∅ -> keyspace_wf ks -> keyspace_wf (<[k := VHash h]> ks).
Proof. intros Hh H. by apply map_Forall_insert_2. Qed.

#[export] Hint Resolve keyspace_wf_delete keyspace_wf_insert_string keyspace_wf_insert_hash : bench.

Lemma del_wf keys ks : keyspace_wf ks -> keyspace_wf (del keys ks).1.
Proof.
  revert ks. induction keys as [|k keys IH]; intros ks Hwf; simpl; [done|].
  specialize (IH (delete k ks) (keyspace_wf_delete k ks Hwf)). by destruct (del keys (delete k ks)).
Qed.

(** (invariant): every request keeps the keyspace free of empty
    hashes: [HINCRBY] stores a hash with the field it sets, and [HDEL]
    removes the key with its last field. *)
Theorem exec_preserves_wf req ks : keyspace_wf ks -> keyspace_wf (exec req ks).1.
Proof.
  intros Hwf. unfold exec. destruct (parse_request req) as [c|]; [|done].
  destruct c as [k|keys|k|k i|k f|k fields|k f i]; simpl.
  - unfold get. by destruct (ks !! k) as [[]|].
  - pose proof (del_wf keys ks Hwf). by destruct (del keys ks).
  - unfold incr, incr_decr. destruct (read_counter k ks); [done|].
    destruct (would_overflow _ _); simpl; eauto with bench.
  - unfold incrby, incr_decr. destruct (string2ll i); [|done].
    destruct (read_counter k ks); [done|].
    destruct (would_overflow _ _); simpl; eauto with bench.
  - unfold hget. destruct (ks !! k) as [[|h]|]; [done| |done]. by destruct (h !! f).
  - unfold hdel. destruct (ks !! k) as [[|h]|]; [done| |done].
    destruct (hdel_fields fields h) as [h' n]. simpl.
    case_decide; eauto with bench.
  - unfold hincrby. destruct (string2ll i); [|done].
    destruct (hash_lookup_or_create k ks); [done|].
    destruct (read_hash_counter f _); [done|].
    destruct (would_overflow _ _); simpl; [done|].
    apply keyspace_wf_insert_hash; [apply insert_non_empty|done].
Qed.

(** ** Requests with the same effect *)

(** Two requests have the same effect when the server answers them alike
    on every keyspace. *)
Definition same_effect (r1 r2 : list string) : Prop := forall ks, exec r1 ks = exec r2 ks.

(** [INCRBY key 1] is [INCR key]: [incrbyCommand] parses ["1"] and both
    reach [incrDecrCommand] with an increment of 1. *)
Lemma INCRBY_one_same_effect k : same_effect ["INCRBY"; k; "1"]%string ["INCR"; k]%string.
Proof. intros ks. reflexivity. Qed.

(** ** Deletion *)

(** (functional): [DEL key] removes the key and replies how many keys
    it removed; a second [DEL] of the same key finds nothing, replies 0
    and changes nothing, so the cleanup of a benchmark can run twice. *)
Theorem del_single_idempotent k ks :
  exec ["DEL"; k]%string ks = (delete k ks, RInt (match ks !! k with Some _ => 1 | None => 0 end)%Z) /\
  exec ["DEL"; k]%string (delete k ks) = (delete k ks, RInt 0).
Proof.
  split; cbn; [by destruct (ks !! k)|].
  by rewrite lookup_delete_eq, delete_delete_eq.
Qed.

End Redis.
