(* ===== verification/Radix.v ===== *)
(** * The radix v3 client and the connection provider

    [src/common/redisHelper.go] wraps the two constructors of the radix
    client: [ConnectToSingleNode] calls [radix.NewPool] and
    [ConnectToCluster] calls [radix.NewCluster]; on failure each returns
    [nil] and an error whose text prefixes the client's error.

    The client itself is a library the sources only call; it is modelled
    from the spec (sections 4.1, 4.2): the network is an interface, the
    class [Dialer], whose one law is the behaviour of Go's [net.Dial] on an
    address without a port; a pool is a fixed-size set of connections to
    one address; [radix.Cmd] builds the request (command name and
    arguments), [Pool.Do] sends it over a connection, where a transport
    fault may occur before the request reaches the server or after the
    server applied it, and decodes the reply into the receiver, a Go
    [string] or [int]. *)

From S2P Require Import Prelude Decimal Redis.
Import Decimal Redis.

Module Radix.

(** ** The network *)

(** An address has a port when it has a colon ([net.SplitHostPort]). *)
Definition has_port (addr : string) : bool :=
  existsb (fun c => Ascii.eqb c ":") (list_ascii_of_string addr).

(** What the network promises the connection provider: [dial network
    addr] is [None] when a connection can be opened, or the error text;
    a TCP address without a port is always refused. [cluster_slots addr]
    is what the server at [addr] answers to [CLUSTER SLOTS]: [None] when
    it gives the cluster's topology, or the error (a server that is not
    part of a cluster answers an error). *)
Class Dialer := {
  dial : string -> string -> option string;
  cluster_slots : string -> option string;
  dial_requires_port : forall addr, has_port addr = false -> dial "tcp" addr <> None
}.

(** A network where only the Redis server of the benchmarks,
    [127.0.0.1:6379] over TCP, accepts connections. *)
Definition local_dial (network addr : string) : option string :=
  if String.eqb network "tcp" && String.eqb addr "127.0.0.1:6379" then None
  else Some ("dial " ++ network ++ " " ++ addr ++ ": connection refused")%string.

(** Its server is a single node, with cluster support disabled. *)
#[export] Program Instance local_network : Dialer := {|
  dial := local_dial;
  cluster_slots := fun _ => Some "ERR This instance has cluster support disabled"%string
|}.
Next Obligation.
  intros addr Hp. unfold local_dial.
  destruct (String.eqb_spec addr "127.0.0.1:6379") as [->|]; [discriminate|].
  by rewrite andb_false_r.
Qed.

(** A network where the server is down: every connection is refused. *)
Definition server_down : Dialer := {|
  dial := fun network addr => Some ("dial " ++ network ++ " " ++ addr ++ ": connection refused")%string;
  cluster_slots := fun addr => Some ("dial tcp " ++ addr ++ ": connection refused")%string;
  dial_requires_port := fun addr _ => Some_ne_None _
|}.

(** ** Handles *)

Record Pool := mkPool {
  pool_network : string;
  pool_addr : string;
  pool_size : nat
}.

Record Cluster := mkCluster {
  cluster_addrs : list string;
  cluster_seed : string   (** the address the topology was read from *)
}.

Section Constructors.
Context `{Dialer}.

(** [radix.NewPool]: one connection is made synchronously to check that
    a server is there; the pool then holds up to [size] connections. *)
Definition NewPool (network addr : string) (size : nat) : result Pool :=
  match dial network addr with
  | None => Ok (mkPool network addr size)
  | Some e => Err e
  end.

(** The loop of [radix.NewCluster] that makes the pool the cluster is
    based on: the seed addresses are dialled in order until one accepts;
    the error of the last one is returned if none does. *)
Fixpoint seed_pool (addrs : list string) (last_err : string) : result string :=
  match addrs with
  | [] => Err last_err
  | a :: rest =>
      match dial "tcp" a with
      | None => Ok a
      | Some e => seed_pool rest e
      end
  end.

(** [radix.NewCluster]: the pool of the first reachable seed, then
    [c.Sync()], which reads the topology with [CLUSTER SLOTS] through
    that pool; an error of [Sync] fails [NewCluster] with that error (the
    later seeds are not tried). *)
Definition NewCluster (addrs : list string) : result Cluster :=
  match seed_pool addrs "no addresses given" with
  | Ok seed =>
      match cluster_slots seed with
      | None => Ok (mkCluster addrs seed)
      | Some e => Err e
      end
  | Err e => Err e
  end.

(** The errors of the two wrappers:
    [fmt.Errorf("Unable to connect to the cluster. More info: %v", err)]
    (line 14) and [fmt.Errorf("Unable to connect to the node. More info:
    %v", err)] (line 25). *)
Definition cluster_error (err : string) : string := "Unable to connect to the cluster. More info: " ++ err.
Definition node_error (err : string) : string := "Unable to connect to the node. More info: " ++ err.

(** [ConnectToCluster] of redisHelper.go. *)
Definition ConnectToCluster (clusterAddrs : list string) : result Cluster :=
  match NewCluster clusterAddrs with
  | Err e => Err (cluster_error e)
  | Ok cluster => Ok cluster
  end.

(** [ConnectToSingleNode] of redisHelper.go. *)
Definition ConnectToSingleNode (transport address : string) (poolSize : nat) : result Pool :=
  match NewPool transport address poolSize with
  | Err e => Err (node_error e)
  | Ok conn => Ok conn
  end.
End Constructors.

(** ** Commands *)

(** [radix.Cmd(rcv, cmd, args...)]: the request sent to the server. *)
Definition Cmd (cmd : string) (args : list string) : list string := cmd :: args.

(** A transport fault of one round trip: the connection fails before the
    request is written, or after the server applied it and before the
    reply is read. *)
Inductive Fault : Type :=
| FaultBeforeSend (msg : string)
| FaultAfterApply (msg : string).

(** The round trip of [Pool.Do]: the keyspace after it, and the reply or
    the transport error. *)
Definition round_trip (fault : option Fault) (req : list string) (ks : Keyspace)
    : Keyspace * result Reply :=
  match fault with
  | None => let '(ks', r) := exec req ks in (ks', Ok r)
  | Some (FaultBeforeSend e) => (ks, Err e)
  | Some (FaultAfterApply e) => ((exec req ks).1, Err e)
  end.

(** The text of a fault's error, the keyspace it leaves, and how many
    times it let the request be applied. *)
Definition fault_msg (f : Fault) : string :=
  match f with FaultBeforeSend e | FaultAfterApply e => e end.

Definition fault_keyspace (f : Fault) (req : list string) (ks : Keyspace) : Keyspace :=
  match f with FaultBeforeSend _ => ks | FaultAfterApply _ => (exec req ks).1 end.

Definition applied (f : Fault) : Z :=
  match f with FaultBeforeSend _ => 0 | FaultAfterApply _ => 1 end.

Lemma round_trip_fault f req ks :
  round_trip (Some f) req ks = (fault_keyspace f req ks, Err (fault_msg f)).
Proof. by destruct f. Qed.

Lemma round_trip_same_effect f r1 r2 ks :
  same_effect r1 r2 -> round_trip f r1 ks = round_trip f r2 ks.
Proof. intros H. destruct f as [[]|]; simpl; by rewrite ?H. Qed.

(** [strconv.ParseInt(s, 10, 64)], used when a bulk reply is decoded into
    a Go [int]: an optional sign, then one or more digits. *)
Fixpoint go_digits (s : string) (acc : Z) : option Z :=
  match s with
  | EmptyString => Some acc
  | String c s' => if is_digit c then go_digits s' (acc * 10 + digit_value c)%Z else None
  end.

Definition go_parse_int (s : string) : option Z :=
  let mag := fun t => match t with EmptyString => None | _ => go_digits t 0 end in
  let v :=
    match s with
    | String "-" t => option_map Z.opp (mag t)
    | String "+" t => mag t
    | _ => mag s
    end in
  match v with
  | Some z => if in_int64 z then Some z else None
  | None => None
  end.

(** Decoding a reply into [*string]: a nil reply leaves the receiver as
    it was, an integer is printed in decimal, an error reply is returned
    as the error of [Do]. *)
Definition decode_string (rcv : string) (r : Reply) : result string :=
  match r with
  | RBulk s => Ok s
  | RNil => Ok rcv
  | RInt z => Ok (ll2string z)
  | RErr e => Err e
  end.

(** Decoding a reply into [*int] (64 bits). *)
Definition decode_int (rcv : Z) (r : Reply) : result Z :=
  match r with
  | RInt z => Ok z
  | RNil => Ok rcv
  | RBulk s =>
      match go_parse_int s with
      | Some z => Ok z
      | None => Err ("strconv.ParseInt: parsing " ++ s ++ ": invalid syntax")
      end
  | RErr e => Err e
  end.

(** ** The connection provider *)

Section Provider.
Context `{Dialer}.

(** The seed [seed_pool] returns is the first reachable address. *)
Lemma seed_pool_spec addrs e0 :
  match seed_pool addrs e0 with
  | Ok a => exists pre post, addrs = pre ++ a :: post /\ dial "tcp" a = None /\
              Forall (fun x => dial "tcp" x <> None) pre
  | Err _ => Forall (fun x => dial "tcp" x <> None) addrs
  end.
Proof.
  revert e0. induction addrs as [|a rest IH]; intros e0; simpl; [done|].
  destruct (dial "tcp" a) as [e|] eqn:Ea.
  - specialize (IH e). destruct (seed_pool rest e) as [a'|m].
    + destruct IH as (pre & post & -> & Hd & Hpre). exists (a :: pre), post.
      split_and!; [done|done|]. constructor; [congruence|done].
    + constructor; [congruence|done].
  - exists [], rest. split_and!; [done|done|constructor].
Qed.

(** [ConnectToSingleNode] over TCP to an address without a port always
    fails, whatever the network. *)
Lemma ConnectToSingleNode_no_port addr n :
  has_port addr = false ->
  exists e, ConnectToSingleNode "tcp" addr n = Err ("Unable to connect to the node. More info: " ++ e).
Proof.
  intros Hp. pose proof (dial_requires_port addr Hp) as Hd.
  unfold ConnectToSingleNode, NewPool. destruct (dial "tcp" addr) as [e|]; [by exists e|done].
Qed.

(** [C34] (functional, error): [ConnectToCluster] on every branch. It
    returns a cluster over the given addresses whose topology was read,
    by [CLUSTER SLOTS], from the first reachable address, all those
    before it having refused the connection. It fails, with the error
    prefixed by ["Unable to connect to the cluster. More info: "], when
    no address is reachable, or when the first reachable one cannot give
    the topology (its error is the one reported). *)
Theorem ConnectToCluster_spec addrs :
  match ConnectToCluster addrs with
  | Ok c => cluster_addrs c = addrs /\
            exists pre post, addrs = pre ++ cluster_seed c :: post /\ dial "tcp" (cluster_seed c) = None /\
              Forall (fun x => dial "tcp" x <> None) pre /\ cluster_slots (cluster_seed c) = None
  | Err m => exists e, m = ("Unable to connect to the cluster. More info: " ++ e)%string /\
             (Forall (fun x => dial "tcp" x <> None) addrs \/
              exists pre a post, addrs = pre ++ a :: post /\ dial "tcp" a = None /\
                Forall (fun x => dial "tcp" x <> None) pre /\ cluster_slots a = Some e)
  end.
Proof.
  unfold ConnectToCluster, NewCluster.
  pose proof (seed_pool_spec addrs "no addresses given") as Hs.
  destruct (seed_pool addrs _) as [a|e]; simpl; [|exists e; by split; [|left]].
  destruct Hs as (pre & post & -> & Hd & Hpre).
  destruct (cluster_slots a) as [e|] eqn:Es; simpl.
  - exists e. split; [done|]. right. by exists pre, a, post.
  - split; [done|]. by exists pre, post.
Qed.

End Provider.

(** On the network [local_network], whose one server is not a cluster
    node: the first address refuses, the second accepts, and its answer
    to [CLUSTER SLOTS] is the error [ConnectToCluster] reports. *)
Lemma ConnectToCluster_spec_witness :
  @ConnectToCluster local_network ["10.0.0.1:7000"; "127.0.0.1:6379"]%string =
    Err "Unable to connect to the cluster. More info: ERR This instance has cluster support disabled"%string /\
  match @ConnectToCluster local_network ["10.0.0.1:7000"; "127.0.0.1:6379"]%string with
  | Ok c => cluster_addrs c = ["10.0.0.1:7000"; "127.0.0.1:6379"]%string /\
            exists pre post, ["10.0.0.1:7000"; "127.0.0.1:6379"]%string = pre ++ cluster_seed c :: post /\
              @dial local_network "tcp" (cluster_seed c) = None /\
              Forall (fun x => @dial local_network "tcp" x <> None) pre /\
              @cluster_slots local_network (cluster_seed c) = None
  | Err m => exists e, m = ("Unable to connect to the cluster. More info: " ++ e)%string /\
             (Forall (fun x => @dial local_network "tcp" x <> None) ["10.0.0.1:7000"; "127.0.0.1:6379"]%string \/
              exists pre a post, ["10.0.0.1:7000"; "127.0.0.1:6379"]%string = pre ++ a :: post /\
                @dial local_network "tcp" a = None /\
                Forall (fun x => @dial local_network "tcp" x <> None) pre /\ @cluster_slots local_network a = Some e)
  end.
Proof.
  split; [reflexivity|].
  exact (@ConnectToCluster_spec local_network ["10.0.0.1:7000"; "127.0.0.1:6379"]%string).
Defined.

End Radix.
