(* ===== verification/Utf8.v ===== *)
(** * Go's conversion of an integer to a string

    The benchmarks build their key from [string(rand.Int31())]
    (src/main_test.go, lines 59, 83, 108, 133). In Go, converting an
    integer to a string does not print it in decimal: it yields the UTF-8
    encoding of the integer as a Unicode code point, and every value that
    is not a valid code point (negative, a surrogate, or above
    [0x10FFFF]) becomes the replacement character U+FFFD. This file models
    the runtime's [encoderune] (runtime/utf8.go) with the bit operations
    the runtime uses, on [Z]; it proves that every invalid value gives
    U+FFFD and that the bytes of a valid code point decode back to it
    ([rune_of_bytes], the arithmetic of [utf8.DecodeRune] on valid
    input), so [encoderune] is injective on valid code points. *)

From S2P Require Import Prelude.

Module Utf8.

Definition rune1Max : Z := 2 ^ 7 - 1.
Definition rune2Max : Z := 2 ^ 11 - 1.
Definition rune3Max : Z := 2 ^ 16 - 1.
Definition maxRune : Z := 1114111.       (** 0x10FFFF *)
Definition runeError : Z := 65533.       (** U+FFFD *)
Definition surrogateMin : Z := 55296.    (** 0xD800 *)
Definition surrogateMax : Z := 57343.    (** 0xDFFF *)

Definition tx : Z := 128.      (** 0b10000000 *)
Definition t2 : Z := 192.      (** 0b11000000 *)
Definition t3 : Z := 224.      (** 0b11100000 *)
Definition t4 : Z := 240.      (** 0b11110000 *)
Definition maskx : Z := 63.    (** 0b00111111 *)

(** [byte(x)]: the low 8 bits, as one byte of a Go string. *)
Definition byte_of (x : Z) : ascii := ascii_of_N (Z.to_N (Z.land x 255)).

(** [uint32(r)] for an [int32] [r]. *)
Definition uint32_of_int32 (r : Z) : Z := if (r <? 0)%Z then (r + 2 ^ 32)%Z else r.

Definition encode3 (r : Z) : list ascii :=
  [byte_of (Z.lor t3 (Z.shiftr r 12));
   byte_of (Z.lor tx (Z.land (Z.shiftr r 6) maskx));
   byte_of (Z.lor tx (Z.land r maskx))].

(** [encoderune]: the bytes of the UTF-8 encoding of [r]. *)
Definition encoderune (r : Z) : list ascii :=
  let i := uint32_of_int32 r in
  if (i <=? rune1Max)%Z then [byte_of r]
  else if (i <=? rune2Max)%Z then
    [byte_of (Z.lor t2 (Z.shiftr r 6)); byte_of (Z.lor tx (Z.land r maskx))]
  else if (maxRune <? i)%Z || ((surrogateMin <=? i) && (i <=? surrogateMax))%Z then
    encode3 runeError
  else if (i <=? rune3Max)%Z then encode3 r
  else
    [byte_of (Z.lor t4 (Z.shiftr r 18));
     byte_of (Z.lor tx (Z.land (Z.shiftr r 12) maskx));
     byte_of (Z.lor tx (Z.land (Z.shiftr r 6) maskx));
     byte_of (Z.lor tx (Z.land r maskx))].

(** [string(r)] for an [int32] [r] (runtime [intstring]). *)
Definition string_of_rune (r : Z) : string := string_of_list_ascii (encoderune r).

(** The replacement character U+FFFD in UTF-8: EF BF BD. *)
Definition replacement : string := string_of_list_ascii (encode3 runeError).

(** A valid code point: in [0, 0x10FFFF] and not a surrogate. *)
Definition valid_rune (r : Z) : bool :=
  (0 <=? r)%Z && (r <=? maxRune)%Z && negb ((surrogateMin <=? r)%Z && (r <=? surrogateMax)%Z).

(** The value of a byte. *)
Definition byte_value (c : ascii) : Z := Z.of_N (N_of_ascii c).

(** The code point a well-formed UTF-8 sequence of one to four bytes
    encodes, as [utf8.DecodeRune] computes it on valid input: the payload
    bits of the leading byte followed by six bits of each continuation
    byte. It is the inverse used to show that [encoderune] loses nothing
    on valid code points. *)
Definition rune_of_bytes (bs : list ascii) : Z :=
  match List.map byte_value bs with
  | [b0] => b0
  | [b0; b1] => (b0 - t2) * 64 + (b1 - tx)
  | [b0; b1; b2] => (b0 - t3) * 4096 + (b1 - tx) * 64 + (b2 - tx)
  | [b0; b1; b2; b3] => (b0 - t4) * 262144 + (b1 - tx) * 4096 + (b2 - tx) * 64 + (b3 - tx)
  | _ => (-1)%Z
  end.

(** ** Lemmas *)

(** An [or] with a number whose low [m] bits are clear is an addition. *)
Lemma lor_disjoint a x m :
  (0 <= m)%Z -> (a mod 2 ^ m = 0)%Z -> (0 <= x < 2 ^ m)%Z -> Z.lor a x = (a + x)%Z.
Proof.
  intros Hm Ha Hx.
  assert (Hand : Z.land a x = 0%Z).
  { apply Z.bits_inj'. intros n Hn. rewrite Z.land_spec, Z.bits_0.
    destruct (Z.lt_ge_cases n m).
    - rewrite (Z.div_mod a (2 ^ m)) by (apply Z.pow_nonzero; lia). rewrite Ha, Z.add_0_r, Z.mul_comm.
      by rewrite Z.mul_pow2_bits_low.
    - rewrite <- (Z.mod_small x (2 ^ m)) by lia. rewrite Z.mod_pow2_bits_high by lia.
      apply andb_false_r. }
  rewrite <- Z.lxor_lor, <- Z.add_nocarry_lxor; done.
Qed.

Lemma land_maskx x : Z.land x maskx = (x mod 64)%Z.
Proof. change maskx with (Z.ones 6). by rewrite Z.land_ones. Qed.

Lemma byte_value_of x : (0 <= x < 256)%Z -> byte_value (byte_of x) = x.
Proof.
  intros Hx. unfold byte_value, byte_of. change 255%Z with (Z.ones 8).
  rewrite Z.land_ones, Z.mod_small by lia.
  rewrite N_ascii_embedding; [lia|]. apply N2Z.inj_lt. rewrite Z2N.id; lia.
Qed.

(** A continuation byte carries six bits. *)
Lemma byte_value_cont x : byte_value (byte_of (Z.lor tx (Z.land x maskx))) = (tx + x mod 64)%Z.
Proof.
  rewrite land_maskx, (lor_disjoint tx _ 6) by (reflexivity || (pose proof (Z.mod_pos_bound x 64); lia)).
  apply byte_value_of. pose proof (Z.mod_pos_bound x 64). unfold tx. lia.
Qed.

(** A leading byte: the tag [t] above the top bits [x]. *)
Lemma byte_value_lead t x m :
  (0 <= m)%Z -> (t mod 2 ^ m = 0)%Z -> (0 <= x < 2 ^ m)%Z -> (0 <= t)%Z -> (t + x < 256)%Z ->
  byte_value (byte_of (Z.lor t x)) = (t + x)%Z.
Proof. intros. rewrite (lor_disjoint t x m) by done. apply byte_value_of. lia. Qed.

(** [rune_of_bytes] undoes [encoderune] on valid code points. *)
Lemma rune_of_bytes_encoderune r : valid_rune r = true -> rune_of_bytes (encoderune r) = r.
Proof.
  unfold valid_rune. rewrite !andb_true_iff, negb_true_iff, andb_false_iff, !Z.leb_le, !Z.leb_gt.
  intros [[H0 Hmax] Hsur].
  unfold encoderune, encode3, uint32_of_int32, rune1Max, rune2Max, rune3Max, maxRune, surrogateMin,
    surrogateMax in *.
  destruct (Z.ltb_spec r 0); [lia|].
  destruct (Z.leb_spec r (2 ^ 7 - 1)); simpl.
  { unfold rune_of_bytes. simpl. apply byte_value_of. lia. }
  destruct (Z.leb_spec r (2 ^ 11 - 1)); simpl.
  { unfold rune_of_bytes. simpl. rewrite byte_value_cont, Z.shiftr_div_pow2 by lia.
    assert (Hq : (2 <= r / 2 ^ 6 < 32)%Z)
      by (split; [apply Z.div_le_lower_bound|apply Z.div_lt_upper_bound]; lia).
    rewrite (byte_value_lead t2 _ 6) by (unfold t2; first [reflexivity|lia]).
    change (2 ^ 6)%Z with 64%Z in *. pose proof (Z.div_mod r 64). unfold t2, tx. lia. }
  destruct (Z.ltb_spec 1114111 r); [lia|].
  destruct (Z.leb_spec 55296 r); destruct (Z.leb_spec r 57343); try lia; simpl.
  all: destruct (Z.leb_spec r (2 ^ 16 - 1)); simpl.
  all: unfold rune_of_bytes; simpl; rewrite !byte_value_cont, !Z.shiftr_div_pow2 by lia.
  all: change (2 ^ 6)%Z with 64%Z in *; change (2 ^ 12)%Z with 4096%Z in *;
    change (2 ^ 18)%Z with 262144%Z in *; change (2 ^ 16 - 1)%Z with 65535%Z in *.
  all: assert (E12 : (r / 4096 = r / 64 / 64)%Z) by (rewrite Z.div_div by lia; reflexivity).
  all: assert (E18 : (r / 262144 = r / 64 / 64 / 64)%Z) by (rewrite !Z.div_div by lia; reflexivity).
  all: pose proof (Z.div_mod r 64); pose proof (Z.div_mod (r / 64) 64);
    pose proof (Z.div_mod (r / 64 / 64) 64); pose proof (Z.mod_pos_bound r 64);
    pose proof (Z.mod_pos_bound (r / 64) 64); pose proof (Z.mod_pos_bound (r / 64 / 64) 64).
  1,3: rewrite (byte_value_lead t3 _ 4) by
      (unfold t3; first [reflexivity|split; [apply Z.div_pos|apply Z.div_lt_upper_bound]; lia
                  |assert (r / 4096 < 16)%Z by (apply Z.div_lt_upper_bound; lia); lia]).
  3,4: rewrite (byte_value_lead t4 _ 3) by
      (unfold t4; first [reflexivity|split; [apply Z.div_pos|apply Z.div_lt_upper_bound]; lia
                  |assert (r / 262144 < 5)%Z by (apply Z.div_lt_upper_bound; lia); lia]).
  all: rewrite ?E12, ?E18; unfold t3, t4, tx; lia.
Qed.

(** Distinct valid code points have distinct encodings. *)
Lemma encoderune_inj r1 r2 :
  valid_rune r1 = true -> valid_rune r2 = true -> encoderune r1 = encoderune r2 -> r1 = r2.
Proof.
  intros H1 H2 E. by rewrite <- (rune_of_bytes_encoderune r1), <- (rune_of_bytes_encoderune r2), E.
Qed.

Lemma encoderune_invalid r :
  (maxRune < r)%Z \/ (surrogateMin <= r <= surrogateMax)%Z \/ (r < 0 /\ - 2 ^ 31 <= r)%Z ->
  string_of_rune r = replacement.
Proof.
  intros Hr. unfold string_of_rune, encoderune, uint32_of_int32, replacement.
  unfold rune1Max, rune2Max, maxRune, surrogateMin, surrogateMax in *.
  zbool; lia || done.
Qed.

Lemma length_encoderune r : (1 <= List.length (encoderune r) <= 4)%nat.
Proof. unfold encoderune. repeat case_match; simpl; lia. Qed.

End Utf8.
