(* ===== verification/GoTesting.v ===== *)
(** * The world of a benchmark run and the methods of [testing.B]

    A benchmark function of [src/main_test.go] runs on the benchmark
    goroutine with the benchmark object [b]. Its effects are modelled as
    the monad [Go] over a [World]:

    - [w_ks]: the Redis keyspace, changed by the commands sent through
      [Pool.Do] ([pool_do]);
    - [w_ops], [w_faults]: the number of round trips so far, and the
      transport fault (if any) of each round trip by its index: a run is
      deterministic once the faults are fixed, and theorems quantify over
      them;
    - [w_timer_on], [w_timed]: the benchmark timer and the number of
      round trips made while it ran since the last [b.ResetTimer]: the
      measured work;
    - [w_failed], [w_log]: [b.Failed()] and the lines of [b.Logf] and
      [b.Fatalf].

    The two ways a Go function stops early are the [Exit]s of the monad:
    [b.Fatalf] marks the benchmark failed and calls [runtime.Goexit]
    ([Goexit]); [panic] stops the test binary ([Panic]). The methods of
    [testing.B] belong to the Go library and are modelled from its
    documentation.

    The rules [keeps P m] follow a computation through its binds and
    matches: the keyspace property [P] is kept, whatever the faults,
    when each request sent keeps it ([kept P req]). *)

From S2P Require Import Prelude Decimal Redis Radix.
Import Decimal Redis Radix.

Module GoTesting.

Inductive Exit : Type :=
| Goexit
| Panic (msg : string).

Record World := mkWorld {
  w_ks : Keyspace;
  w_ops : nat;
  w_faults : nat -> option Fault;
  w_timer_on : bool;
  w_timed : nat;
  w_failed : bool;
  w_log : list string
}.

Abbreviation Go A := (ST World Exit A).

Definition set_ks (ks : Keyspace) (w : World) : World :=
  mkWorld ks (w_ops w) (w_faults w) (w_timer_on w) (w_timed w) (w_failed w) (w_log w).

Definition set_timer (on : bool) (timed : nat) (w : World) : World :=
  mkWorld (w_ks w) (w_ops w) (w_faults w) on timed (w_failed w) (w_log w).

Definition add_log (line : string) (failed : bool) (w : World) : World :=
  mkWorld (w_ks w) (w_ops w) (w_faults w) (w_timer_on w) (w_timed w)
    (w_failed w || failed) (w_log w ++ [line]).

(** The world a benchmark function starts in: [runN] has reset and
    started the timer. *)
Definition start_world (ks : Keyspace) (faults : nat -> option Fault) : World :=
  mkWorld ks 0 faults true 0 false [].

(** ** Round trips *)

(** The world after one round trip that left the keyspace [ks]: the
    round trip is counted, and counted as measured work when the timer
    runs. *)
Definition tick (ks : Keyspace) (w : World) : World :=
  mkWorld ks (S (w_ops w)) (w_faults w) (w_timer_on w)
    (if w_timer_on w then S (w_timed w) else w_timed w) (w_failed w) (w_log w).

(** [Pool.Do]: one round trip to the server, with the fault of its index. *)
Definition pool_do (p : Pool) (req : list string) : Go (result Reply) :=
  fun w =>
    let '(ks', r) := round_trip (w_faults w (w_ops w)) req (w_ks w) in
    (tick ks' w, Normal r).

(** [conn.Do(radix.Cmd(&val, cmd, args...))] with a [string] receiver
    initialised to [rcv]: the error of [Do], or the decoded value. *)
Definition do_string (p : Pool) (rcv : string) (cmd : string) (args : list string)
    : Go (result string) :=
  r <- pool_do p (Cmd cmd args) ;;
  st_ret (match r with Ok rep => decode_string rcv rep | Err e => Err e end).

(** The same with an [int] receiver. *)
Definition do_int (p : Pool) (rcv : Z) (cmd : string) (args : list string)
    : Go (result Z) :=
  r <- pool_do p (Cmd cmd args) ;;
  st_ret (match r with Ok rep => decode_int rcv rep | Err e => Err e end).

(** ** The methods of [testing.B] *)

(** [b.ResetTimer()]: the measured work restarts from zero. *)
Definition ResetTimer : Go unit := st_modify (fun w => set_timer (w_timer_on w) 0 w).

(** [b.StartTimer()]: the timer runs; the measured work is kept. *)
Definition StartTimer : Go unit := st_modify (fun w => set_timer true (w_timed w) w).

(** [b.StopTimer()]. *)
Definition StopTimer : Go unit := st_modify (fun w => set_timer false (w_timed w) w).

(** [b.Logf(...)]. *)
Definition Logf (line : string) : Go unit := st_modify (add_log line false).

(** [b.Fatalf(...)]: log, mark failed, and [runtime.Goexit]. *)
Definition Fatalf {A} (line : string) : Go A :=
  st_modify (add_log line true) ;; st_throw Goexit.

(** [panic(err)]. *)
Definition go_panic {A} (msg : string) : Go A := st_throw (Panic msg).

(** ** Lemmas *)

(** A fault-free round trip is the server's [exec]. *)
Lemma pool_do_ok p req w :
  w_faults w (w_ops w) = None ->
  pool_do p req w = (tick (exec req (w_ks w)).1 w, Normal (Ok (exec req (w_ks w)).2)).
Proof.
  intros Hf. unfold pool_do, round_trip. rewrite Hf. by destruct (exec req (w_ks w)).
Qed.

Lemma do_int_ok p rcv cmd args w :
  w_faults w (w_ops w) = None ->
  do_int p rcv cmd args w =
    (tick (exec (cmd :: args) (w_ks w)).1 w, Normal (decode_int rcv (exec (cmd :: args) (w_ks w)).2)).
Proof.
  intros Hf. unfold do_int. erewrite st_bind_normal by (apply pool_do_ok, Hf). done.
Qed.

(** [Do] depends on its request only through the server's answer. *)
Lemma pool_do_same_effect p r1 r2 : same_effect r1 r2 -> pool_do p r1 ≡ pool_do p r2.
Proof. intros H w. unfold pool_do. by rewrite (round_trip_same_effect _ _ _ _ H). Qed.

Lemma do_int_same_effect p rcv c1 a1 c2 a2 :
  same_effect (c1 :: a1) (c2 :: a2) -> do_int p rcv c1 a1 ≡ do_int p rcv c2 a2.
Proof. intros H. unfold do_int, Cmd. by rewrite (pool_do_same_effect _ _ _ H). Qed.

(** ** Properties of the keyspace that computations keep *)

Section Keeps.
Variable P : Keyspace -> Prop.

(** [m] keeps [P]: from a world whose keyspace satisfies [P], [m] ends,
    normally or abruptly, in a world whose keyspace satisfies [P]. *)
Definition keeps {A} (m : Go A) : Prop := forall w, P (w_ks w) -> P (w_ks (m w).1).

Lemma keeps_ret {A} (a : A) : keeps (st_ret a).
Proof. intros w Hw. exact Hw. Qed.

Lemma keeps_throw {A} (e : Exit) : keeps (@st_throw _ _ A e).
Proof. intros w Hw. exact Hw. Qed.

Lemma keeps_bind {A B} (m : Go A) (k : A -> Go B) :
  keeps m -> (forall a, keeps (k a)) -> keeps (st_bind m k).
Proof.
  intros Hm Hk w Hw. specialize (Hm w Hw). unfold st_bind.
  destruct (m w) as [w' [a|e]]; [by apply Hk|done].
Qed.

Lemma keeps_proper {A} (m1 m2 : Go A) : m1 ≡ m2 -> keeps m1 -> keeps m2.
Proof. intros E H w. rewrite <- (E w). apply H. Qed.

Lemma keeps_ResetTimer : keeps ResetTimer.
Proof. intros w Hw. exact Hw. Qed.

Lemma keeps_StartTimer : keeps StartTimer.
Proof. intros w Hw. exact Hw. Qed.

Lemma keeps_StopTimer : keeps StopTimer.
Proof. intros w Hw. exact Hw. Qed.

Lemma keeps_Logf line : keeps (Logf line).
Proof. intros w Hw. exact Hw. Qed.

Lemma keeps_Fatalf {A} line : keeps (@Fatalf A line).
Proof. intros w Hw. exact Hw. Qed.

Lemma keeps_go_panic {A} msg : keeps (@go_panic A msg).
Proof. intros w Hw. exact Hw. Qed.

Lemma keeps_go_for n (body : nat -> Go unit) : (forall i, keeps (body i)) -> keeps (go_for n body).
Proof.
  intros Hb. unfold go_for. generalize 0. induction n as [|n IH]; intros i; simpl.
  - apply keeps_ret.
  - apply keeps_bind; [apply Hb|intros _; apply IH].
Qed.

(** [P] is kept by the request [req]: the server's answer to it, from a
    keyspace satisfying [P], leaves one satisfying [P]. *)
Definition kept (req : list string) : Prop := forall ks, P ks -> P (exec req ks).1.

(** A request that [P] is kept by is kept by [Do], whatever the fault. *)
Lemma keeps_pool_do p req : kept req -> keeps (pool_do p req).
Proof.
  intros Hreq w Hw. unfold pool_do, round_trip.
  destruct (w_faults w (w_ops w)) as [[e|e]|]; simpl; auto.
  specialize (Hreq _ Hw). by destruct (exec req (w_ks w)).
Qed.

Lemma keeps_do_string p rcv cmd args : kept (cmd :: args) -> keeps (do_string p rcv cmd args).
Proof. intros. apply keeps_bind; [by apply keeps_pool_do|intros; apply keeps_ret]. Qed.

Lemma keeps_do_int p rcv cmd args : kept (cmd :: args) -> keeps (do_int p rcv cmd args).
Proof. intros. apply keeps_bind; [by apply keeps_pool_do|intros; apply keeps_ret]. Qed.

(** Requests with the same effect keep the same properties. *)
Lemma kept_same_effect r1 r2 : same_effect r1 r2 -> kept r2 -> kept r1.
Proof. intros E H ks Hks. rewrite (E ks). by apply H. Qed.

End Keeps.

(** Reads change nothing; every request keeps the keyspace well-formed. *)
Lemma kept_GET P k : kept P ["GET"; k]%string.
Proof. intros ks H. cbn. unfold get. by destruct (ks !! k) as [[]|]. Qed.

Lemma kept_HGET P h f : kept P ["HGET"; h; f]%string.
Proof. intros ks H. cbn. unfold hget. destruct (ks !! h) as [[|m]|]; [done| |done]. by destruct (m !! f). Qed.

Lemma kept_wf req : kept keyspace_wf req.
Proof. intros ks. apply exec_preserves_wf. Qed.

Create HintDb keeps.

#[export] Hint Resolve keeps_ret keeps_throw keeps_bind keeps_ResetTimer keeps_StartTimer keeps_StopTimer keeps_Logf
  keeps_Fatalf keeps_go_panic keeps_go_for keeps_pool_do keeps_do_string keeps_do_int
  kept_GET kept_HGET kept_wf : keeps.

(** Splits a computation into its binds, matches and primitives, and
    closes each part with the [keeps] lemmas. *)
Ltac keeps_tac :=
  repeat (intros; first [solve [eauto with keeps] | apply keeps_bind | case_match]).

End GoTesting.
