(* ===== verification/KeyHelpers.v ===== *)
(** * The key lifecycle helpers of [src/main_test.go]

    [GetKey], [RemoveKey], [GetHKey] and [RemoveHKey] (lines 17-51) send
    one command through [conn.Do] with a [string] receiver initialised to
    [""] and [panic] on any error of [Do], whether a transport fault or an
    error reply of the server. This file also models how the benchmarks
    name their counter key: ["manjinder" + string(rand.Int31())] followed
    by ["_complaints"] (lines 59-60, 83-84, 108-109, 133-134), and the
    fixed hash and field of the hash benchmarks (lines 159-160, 183-184). *)

From S2P Require Import Prelude Decimal Redis Radix Utf8 GoTesting.
Import Decimal Redis Radix Utf8 GoTesting.

Module KeyHelpers.

(** The errors the helpers panic with (lines 20, 29, 38 and 47; the
    last two are the same text). *)
Definition fetch_key_error (key : string) : string :=
  "Could not fetch the value for key: " ++ key ++ " from redis".
Definition delete_key_error (key : string) : string :=
  "Could not delete the key: " ++ key ++ " from redis".
Definition hash_key_error (hashID keyInHash : string) : string :=
  "Could not fetch the value for hash: " ++ hashID ++ " and key: " ++ keyInHash ++ " from redis".

(** [GetKey] (lines 17-24). *)
Definition GetKey (conn : Pool) (key : string) : Go string :=
  r <- do_string conn "" "GET" [key] ;;
  match r with
  | Err _ => go_panic (fetch_key_error key)
  | Ok val => st_ret val
  end.

(** [RemoveKey] (lines 26-33): the reply of [DEL] is an integer, decoded
    into the string receiver as its decimal text. *)
Definition RemoveKey (conn : Pool) (key : string) : Go string :=
  r <- do_string conn "" "DEL" [key] ;;
  match r with
  | Err _ => go_panic (delete_key_error key)
  | Ok val => st_ret val
  end.

(** [GetHKey] (lines 35-42). *)
Definition GetHKey (conn : Pool) (hashID keyInHash : string) : Go string :=
  r <- do_string conn "" "HGET" [hashID; keyInHash] ;;
  match r with
  | Err _ => go_panic (hash_key_error hashID keyInHash)
  | Ok val => st_ret val
  end.

(** [RemoveHKey] (lines 44-51); its panic message is the one of [GetHKey]. *)
Definition RemoveHKey (conn : Pool) (hashID keyInHash : string) : Go string :=
  r <- do_string conn "" "HDEL" [hashID; keyInHash] ;;
  match r with
  | Err _ => go_panic (hash_key_error hashID keyInHash)
  | Ok val => st_ret val
  end.

(** [userID := "manjinder" + string(rand.Int31())] (line 59), from the
    value [rnd] drawn. *)
Definition userID (rnd : Z) : string := ("manjinder" ++ string_of_rune rnd)%string.

(** [key := userID + "_complaints"] (line 60): the counter key of the
    INCR and INCRBY benchmarks. *)
Definition benchmark_key (rnd : Z) : string := (userID rnd ++ "_complaints")%string.

(** The hash and field of the HINCRBY benchmarks (lines 159-160). *)
Definition hashID : string := "manjinder".
Definition keyInHash : string := "complaints".

(** ** Lemmas *)

(** The helpers keep every property of the keyspace that their request
    keeps, whatever the faults; the reads keep every property. *)
Section KeepsHelpers.
Variable P : Keyspace -> Prop.

Lemma keeps_GetKey conn key : keeps P (GetKey conn key).
Proof. unfold GetKey. keeps_tac. Qed.

Lemma keeps_RemoveKey conn key : kept P ["DEL"; key]%string -> keeps P (RemoveKey conn key).
Proof. intros. unfold RemoveKey. keeps_tac. Qed.

Lemma keeps_GetHKey conn h f : keeps P (GetHKey conn h f).
Proof. unfold GetHKey. keeps_tac. Qed.

Lemma keeps_RemoveHKey conn h f : kept P ["HDEL"; h; f]%string -> keeps P (RemoveHKey conn h f).
Proof. intros. unfold RemoveHKey. keeps_tac. Qed.

End KeepsHelpers.

#[export] Hint Resolve keeps_GetKey keeps_RemoveKey keeps_GetHKey keeps_RemoveHKey : keeps.

Lemma do_string_ok conn rcv cmd args w :
  w_faults w (w_ops w) = None ->
  do_string conn rcv cmd args w =
    (tick (exec (cmd :: args) (w_ks w)).1 w, Normal (decode_string rcv (exec (cmd :: args) (w_ks w)).2)).
Proof.
  intros Hf. unfold do_string. erewrite st_bind_normal by (apply pool_do_ok, Hf). done.
Qed.

Lemma do_string_fault conn rcv cmd args w f :
  w_faults w (w_ops w) = Some f ->
  exists w', do_string conn rcv cmd args w = (w', Normal (Err (match f with
    FaultBeforeSend e | FaultAfterApply e => e end))).
Proof.
  intros Hf. unfold do_string, st_bind, pool_do, round_trip. cbn beta. rewrite Hf.
  destruct f; eexists; reflexivity.
Qed.

(** [GetKey] on a string, and on a missing key. *)
Lemma GetKey_string conn key w s :
  w_faults w (w_ops w) = None -> w_ks w !! key = Some (VString s) ->
  GetKey conn key w = (tick (w_ks w) w, Normal s).
Proof.
  intros Hf Hk. unfold GetKey. rewrite (st_bind_normal _ _ _ _ _ (do_string_ok _ _ _ _ _ Hf)).
  cbn. unfold get. by rewrite Hk.
Qed.

Lemma GetKey_missing conn key w :
  w_faults w (w_ops w) = None -> w_ks w !! key = None ->
  GetKey conn key w = (tick (w_ks w) w, Normal ""%string).
Proof.
  intros Hf Hk. unfold GetKey. rewrite (st_bind_normal _ _ _ _ _ (do_string_ok _ _ _ _ _ Hf)).
  cbn. unfold get. by rewrite Hk.
Qed.

Lemma RemoveKey_ok conn key w :
  w_faults w (w_ops w) = None ->
  RemoveKey conn key w =
    (tick (delete key (w_ks w)) w,
     Normal (ll2string (match w_ks w !! key with Some _ => 1 | None => 0 end)%Z)).
Proof.
  intros Hf. unfold RemoveKey. rewrite (st_bind_normal _ _ _ _ _ (do_string_ok _ _ _ _ _ Hf)).
  destruct (del_single_idempotent key (w_ks w)) as [Hdel _].
  unfold Cmd in *. rewrite Hdel. done.
Qed.

(** [RemoveHKey] on a key that holds a string: WRONGTYPE, and a panic. *)
Lemma RemoveHKey_string conn h f w s :
  w_faults w (w_ops w) = None -> w_ks w !! h = Some (VString s) ->
  RemoveHKey conn h f w = (tick (w_ks w) w, Abrupt (Panic (hash_key_error h f))).
Proof.
  intros Hf Hs. unfold RemoveHKey. rewrite (st_bind_normal _ _ _ _ _ (do_string_ok _ _ _ _ _ Hf)).
  cbn. unfold hdel. by rewrite Hs.
Qed.

(** Whatever the transport does, [GetKey] either returns or panics, and
    leaves the keyspace as it was ([GET] changes nothing). *)
Lemma GetKey_outcome conn key w w' o :
  GetKey conn key w = (w', o) ->
  ((exists m, o = Abrupt (Panic m)) \/ (exists v, o = Normal v)) /\ w_ks w' = w_ks w.
Proof.
  unfold GetKey, do_string, st_bind, pool_do, round_trip. cbn beta.
  assert (Hget : (exec (Cmd "GET" [key]) (w_ks w)).1 = w_ks w).
  { change (exec _ _) with (get key (w_ks w)). unfold get. by destruct (w_ks w !! key) as [[]|]. }
  destruct (w_faults w (w_ops w)) as [[e|e]|]; simpl.
  - intros [= <- <-]. split; [eauto|done].
  - intros [= <- <-]. split; [eauto|done].
  - destruct (exec (Cmd "GET" [key]) (w_ks w)) as [ks' r] eqn:E. simpl in Hget. subst ks'.
    destruct (decode_string "" r); intros [= <- <-]; split; eauto.
Qed.

(** [RemoveKey] either panics, or returns and has deleted the key. *)
Lemma RemoveKey_outcome conn key w w' o :
  RemoveKey conn key w = (w', o) ->
  (exists m, o = Abrupt (Panic m)) \/ (exists s, o = Normal s /\ w_ks w' = delete key (w_ks w)).
Proof.
  unfold RemoveKey, do_string, st_bind, pool_do, round_trip. cbn beta.
  destruct (del_single_idempotent key (w_ks w)) as [Hdel _]. unfold Cmd. rewrite Hdel.
  destruct (w_faults w (w_ops w)) as [[e|e]|]; simpl; intros [= <- <-]; eauto.
Qed.

(** [C32] (functional): with no transport fault, [GetKey] returns the
    string stored at the key, [""] when the key is missing (the receiver
    keeps its initial value on a nil reply), and panics when the key holds
    a hash; the keyspace is unchanged. *)
Theorem GetKey_spec conn key w :
  w_faults w (w_ops w) = None ->
  GetKey conn key w =
    (tick (w_ks w) w,
     match w_ks w !! key with
     | None => Normal ""%string
     | Some (VString s) => Normal s
     | Some (VHash _) => Abrupt (Panic ("Could not fetch the value for key: " ++ key ++ " from redis"))
     end).
Proof.
  intros Hf. unfold GetKey. rewrite (st_bind_normal _ _ _ _ _ (do_string_ok _ _ _ _ _ Hf)).
  cbn. unfold get. by destruct (w_ks w !! key) as [[]|].
Qed.

(** A draw above [0x10FFFF] gives the key of U+FFFD. *)
Lemma benchmark_key_replacement r :
  (maxRune < r < 2 ^ 31)%Z -> benchmark_key r = (("manjinder" ++ replacement) ++ "_complaints")%string.
Proof. intros Hr. unfold benchmark_key, userID. by rewrite encoderune_invalid by lia. Qed.

(** [C30] (finding): [string(rand.Int31())] is one rune, and every value
    above [0x10FFFF] (all but about 0.05% of the range of [rand.Int31])
    becomes U+FFFD, so two runs almost always use the same key: the
    random suffix does not separate benchmarks run in parallel. *)
Theorem benchmark_key_collision r1 r2 :
  (maxRune < r1 < 2 ^ 31)%Z -> (maxRune < r2 < 2 ^ 31)%Z -> benchmark_key r1 = benchmark_key r2.
Proof.
  intros H1 H2. by rewrite !benchmark_key_replacement.
Qed.

(** [C31] (roundtrip): for values of [rand.Int31()] that are valid code
    points, the key determines the value: [string(int32)] is decoded back
    by reading the UTF-8 bytes, so distinct such draws give distinct
    keys. With the collision of all larger draws, the random suffix
    separates runs only for the draws below [0x110000]. *)
Theorem benchmark_key_injective r1 r2 :
  valid_rune r1 = true -> valid_rune r2 = true -> benchmark_key r1 = benchmark_key r2 -> r1 = r2.
Proof.
  intros H1 H2 E. unfold benchmark_key, userID in E. apply string_app_cancel in E.
  apply (f_equal list_ascii_of_string) in E. unfold string_of_rune in E.
  rewrite !list_ascii_of_string_of_list_ascii in E. by apply encoderune_inj.
Qed.

(** [C33] (functional): with no transport fault, [GetHKey] returns the
    field's string, [""] when the hash or the field is missing, and
    panics when the key holds a string; the keyspace is unchanged. *)
Theorem GetHKey_spec conn h f w :
  w_faults w (w_ops w) = None ->
  GetHKey conn h f w =
    (tick (w_ks w) w,
     match w_ks w !! h with
     | None => Normal ""%string
     | Some (VString _) =>
         Abrupt (Panic ("Could not fetch the value for hash: " ++ h ++ " and key: " ++ f ++ " from redis"))
     | Some (VHash m) => Normal (match m !! f with Some s => s | None => ""%string end)
     end).
Proof.
  intros Hf. unfold GetHKey. rewrite (st_bind_normal _ _ _ _ _ (do_string_ok _ _ _ _ _ Hf)).
  cbn. unfold hget. destruct (w_ks w !! h) as [[|m]|]; [done| |done]. by destruct (m !! f).
Qed.

(** [C28] (error): [RemoveKey] on every branch. Without a transport
    fault it deletes the key and returns the reply of [DEL] decoded into
    its string receiver, ["1"] when the key was there (string or hash)
    and ["0"] when it was not, so a second removal is harmless; on a
    transport fault it panics with its own message, after the server
    applied the deletion or not, as the fault has it. *)
Theorem RemoveKey_spec conn key w :
  RemoveKey conn key w =
    match w_faults w (w_ops w) with
    | None => (tick (delete key (w_ks w)) w,
               Normal (match w_ks w !! key with Some _ => "1" | None => "0" end)%string)
    | Some f => (tick (fault_keyspace f ["DEL"; key]%string (w_ks w)) w,
                 Abrupt (Panic ("Could not delete the key: " ++ key ++ " from redis")))
    end.
Proof.
  destruct (w_faults w (w_ops w)) as [f|] eqn:Hf.
  - unfold RemoveKey, do_string, st_bind, pool_do. rewrite Hf, round_trip_fault. done.
  - rewrite RemoveKey_ok by done. by destruct (w_ks w !! key).
Qed.

(** [C29] (error): [RemoveHKey] on every branch. Without a transport
    fault it removes the field, and the key with it when the field was
    the last one; it returns ["1"] when the field was there and ["0"]
    when the hash or the field was missing; on a key that holds a string
    the server answers WRONGTYPE and [RemoveHKey] panics, with the
    message of [GetHKey] (line 47). On a transport fault it panics with
    that message too. *)
Theorem RemoveHKey_spec conn h f w :
  RemoveHKey conn h f w =
    match w_faults w (w_ops w) with
    | None =>
        match w_ks w !! h with
        | None => (tick (w_ks w) w, Normal "0"%string)
        | Some (VString _) =>
            (tick (w_ks w) w,
             Abrupt (Panic ("Could not fetch the value for hash: " ++ h ++ " and key: " ++ f ++ " from redis")))
        | Some (VHash m) =>
            (tick (if decide (delete f m = ∅) then delete h (w_ks w) else <[h := VHash (delete f m)]> (w_ks w)) w,
             Normal (match m !! f with Some _ => "1" | None => "0" end)%string)
        end
    | Some fl => (tick (fault_keyspace fl ["HDEL"; h; f]%string (w_ks w)) w,
                  Abrupt (Panic ("Could not fetch the value for hash: " ++ h ++ " and key: " ++ f ++ " from redis")))
    end.
Proof.
  destruct (w_faults w (w_ops w)) as [fl|] eqn:Hf.
  - unfold RemoveHKey, do_string, st_bind, pool_do. rewrite Hf, round_trip_fault. done.
  - unfold RemoveHKey. rewrite (st_bind_normal _ _ _ _ _ (do_string_ok _ _ _ _ _ Hf)).
    cbn. unfold hdel. destruct (w_ks w !! h) as [[|m]|]; [done| |done].
    cbn. by destruct (m !! f).
Qed.

Lemma GetKey_spec_witness :
  w_faults (start_world {["k" := VString "v"]} (fun _ => None)) 0 = None /\
  GetKey (mkPool "tcp" "127.0.0.1:6379" 10) "k" (start_world {["k" := VString "v"]} (fun _ => None)) =
    (tick {["k" := VString "v"]} (start_world {["k" := VString "v"]} (fun _ => None)), Normal "v"%string).
Proof.
  split; [reflexivity|].
  etransitivity; [apply (GetKey_spec _ _ (start_world {["k" := VString "v"]} (fun _ => None)) eq_refl)|].
  reflexivity.
Defined.

Lemma benchmark_key_collision_witness :
  (maxRune < 1114112 < 2 ^ 31)%Z /\ (maxRune < 2147483647 < 2 ^ 31)%Z /\
  benchmark_key 1114112 = benchmark_key 2147483647.
Proof.
  unfold maxRune. split; [lia|split; [lia|]].
  apply benchmark_key_collision; unfold maxRune; lia.
Defined.

Lemma GetHKey_spec_witness :
  w_faults (start_world {["h" := VHash {["f" := "7"]}]} (fun _ => None)) 0 = None /\
  GetHKey (mkPool "tcp" "127.0.0.1:6379" 10) "h" "f" (start_world {["h" := VHash {["f" := "7"]}]} (fun _ => None)) =
    (tick {["h" := VHash {["f" := "7"]}]} (start_world {["h" := VHash {["f" := "7"]}]} (fun _ => None)),
     Normal "7"%string).
Proof.
  split; [reflexivity|].
  etransitivity; [apply (GetHKey_spec _ _ _ (start_world {["h" := VHash {["f" := "7"]}]} (fun _ => None)) eq_refl)|].
  reflexivity.
Defined.

Lemma benchmark_key_injective_witness :
  valid_rune 233 = true /\ valid_rune 233 = true /\ benchmark_key 233 = benchmark_key 233 /\ 233%Z = 233%Z.
Proof.
  split; [reflexivity|]. split; [reflexivity|]. split; [reflexivity|].
  apply benchmark_key_injective; reflexivity.
Defined.

End KeyHelpers.
