(* ===== verification/Serial.v ===== *)
(** * The serialized benchmarks of [src/main_test.go]

    [BenchmarkINCRKeyInSerializedSystem] (lines 53-74),
    [BenchmarkINCRBYKeyInSerializedSystem] (lines 102-124) and
    [BenchmarkINCRHashInSerializedSystem] (lines 153-175) share one shape:
    connect with a pool of 10 ([b.Fatalf] on error), delete the target,
    [b.ResetTimer()], send [b.N] increments one after the other on the
    benchmark goroutine ([b.Fatalf] on the first error), [b.StopTimer()],
    log the final value read back, delete the target.

    Each benchmark is a [Go] computation taking the value of
    [rand.Int31()] (for the key) and [b.N]. The theorems show that a run
    without transport fault leaves the logged counter at [b.N], measures
    exactly the [b.N] increments and removes the key; and that a fault in
    the timed loop stops the run before its cleanup, leaving the key behind
    with the increments made so far. *)

From S2P Require Import Prelude Decimal Redis Radix Utf8 GoTesting KeyHelpers.
Import Decimal Redis Radix Utf8 GoTesting KeyHelpers.

Module Serial.

(** The package variables of main_test.go (lines 12-15). *)
Definition address : list string := ["127.0.0.1:6379"%string].
Definition transport : string := "tcp".

Section Benchmarks.
Context `{Dialer}.

(** The texts the benchmarks log: [b.Fatalf("Connection error occured.
    More info: %v", err)] (line 56), [b.Fatalf("Failed to execute the
    query. more info: %v", err)] (line 67) and [b.Logf("Final value of
    the counter: %s", ...)] (line 72), the same in every benchmark. *)
Definition connection_failed (err : string) : string := "Connection error occured. More info: " ++ err.
Definition query_failed (err : string) : string := "Failed to execute the query. more info: " ++ err.
Definition final_value_line (v : string) : string := "Final value of the counter: " ++ v.

(** [conn, err := common.ConnectToSingleNode(transport, address[0], n)]
    and its [b.Fatalf] (lines 54-57). *)
Definition connect (poolSize : nat) : Go Pool :=
  match address with
  | [] => go_panic "runtime error: index out of range [0] with length 0"
  | a0 :: _ =>
      match ConnectToSingleNode transport a0 poolSize with
      | Err e => Fatalf (connection_failed e)
      | Ok conn => st_ret conn
      end
  end.

(** The body of the timed loop: one increment, [b.Fatalf] on error
    (lines 65-68, 113-118, 164-169). *)
Definition step_on (conn : Pool) (cmd : string) (args : list string) : Go unit :=
  r <- do_int conn 0 cmd args ;;
  match r with
  | Err e => Fatalf (query_failed e)
  | Ok _ => st_ret tt
  end.

Definition INCR_step (conn : Pool) (key : string) : Go unit :=
  step_on conn "INCR" [key].

(** [incrementBy := "1"]: the INCRBY and HINCRBY bodies send the
    increment as a string (lines 115, 141, 166, 191). *)
Definition incrementBy : string := "1".

Definition INCRBY_step (conn : Pool) (key : string) : Go unit :=
  step_on conn "INCRBY" [key; incrementBy].

Definition HINCRBY_step (conn : Pool) (h f : string) : Go unit :=
  step_on conn "HINCRBY" [h; f; incrementBy].

(** The three serialized benchmarks are one text with three choices of
    the cleanup helper, the increment, and the read helper (lines 53-74,
    102-124 and 153-175 differ only there): connect with a pool of 10,
    clean, reset the timer, increment [b.N] times, stop the timer, log the
    value read back, clean. *)
Definition serial_benchmark (cleanup : Pool -> Go string) (step : Pool -> Go unit)
    (read : Pool -> Go string) (N : nat) : Go unit :=
  conn <- connect 10 ;;
  _ <- cleanup conn ;;
  ResetTimer ;;
  go_for N (fun _ => step conn) ;;
  StopTimer ;;
  v <- read conn ;;
  Logf (final_value_line v) ;;
  _ <- cleanup conn ;;
  st_ret tt.

(** [BenchmarkINCRKeyInSerializedSystem] (lines 53-74). *)
Definition BenchmarkINCRKeyInSerializedSystem (rnd : Z) (N : nat) : Go unit :=
  let key := benchmark_key rnd in
  serial_benchmark (fun conn => RemoveKey conn key) (fun conn => INCR_step conn key)
    (fun conn => GetKey conn key) N.

(** [BenchmarkINCRBYKeyInSerializedSystem] (lines 102-124). *)
Definition BenchmarkINCRBYKeyInSerializedSystem (rnd : Z) (N : nat) : Go unit :=
  let key := benchmark_key rnd in
  serial_benchmark (fun conn => RemoveKey conn key) (fun conn => INCRBY_step conn key)
    (fun conn => GetKey conn key) N.

(** [BenchmarkINCRHashInSerializedSystem] (lines 153-175). *)
Definition BenchmarkINCRHashInSerializedSystem (N : nat) : Go unit :=
  serial_benchmark (fun conn => RemoveHKey conn hashID keyInHash)
    (fun conn => HINCRBY_step conn hashID keyInHash)
    (fun conn => GetHKey conn hashID keyInHash) N.

(** ** Lemmas on the steps *)

Lemma connect_ok n w :
  dial "tcp" "127.0.0.1:6379" = None ->
  connect n w = (w, Normal (mkPool "tcp" "127.0.0.1:6379" n)).
Proof. intros Hd. unfold connect, address, transport, ConnectToSingleNode, NewPool. by rewrite Hd. Qed.

Lemma connect_fail n w e :
  dial "tcp" "127.0.0.1:6379" = Some e ->
  connect n w = (add_log ("Connection error occured. More info: Unable to connect to the node. More info: " ++ e) true w, Abrupt Goexit).
Proof. intros Hd. unfold connect, address, transport, ConnectToSingleNode, NewPool. by rewrite Hd. Qed.

Lemma step_on_ok conn cmd args w ks' z :
  w_faults w (w_ops w) = None -> exec (cmd :: args) (w_ks w) = (ks', RInt z) ->
  step_on conn cmd args w = (tick ks' w, Normal tt).
Proof.
  intros Hf He. unfold step_on.
  rewrite (st_bind_normal _ _ _ _ _ (do_int_ok _ _ _ _ _ Hf)). by rewrite He.
Qed.

(** [step_on] depends on its request only through the server's answer. *)
Lemma step_on_same_effect conn c1 a1 c2 a2 :
  same_effect (c1 :: a1) (c2 :: a2) -> step_on conn c1 a1 ≡ step_on conn c2 a2.
Proof. intros He. unfold step_on. by rewrite (do_int_same_effect _ _ _ _ _ _ He). Qed.

(** The template respects equivalence of its helpers and of its step. *)
#[export] Instance serial_benchmark_proper :
  Proper (pointwise_relation Pool (≡) ==> pointwise_relation Pool (≡) ==>
          pointwise_relation Pool (≡) ==> eq ==> (≡)) serial_benchmark.
Proof.
  intros c1 c2 Hc s1 s2 Hs r1 r2 Hr N ? <-. unfold serial_benchmark.
  repeat first [reflexivity|apply Hc|apply Hs|apply Hr|f_equiv|intros ?].
Qed.

(** The serialized benchmarks keep every property of the keyspace that
    their requests keep, whatever the faults. *)
Section KeepsSerial.
Variable P : Keyspace -> Prop.

Lemma keeps_connect n : keeps P (connect n).
Proof. unfold connect. keeps_tac. Qed.

Lemma keeps_step_on conn cmd args : kept P (cmd :: args) -> keeps P (step_on conn cmd args).
Proof. intros. unfold step_on. keeps_tac. Qed.

#[local] Hint Resolve keeps_connect keeps_step_on : keeps.

Lemma keeps_serial_benchmark cleanup step read N :
  (forall conn, keeps P (cleanup conn)) -> (forall conn, keeps P (step conn)) ->
  (forall conn, keeps P (read conn)) -> keeps P (serial_benchmark cleanup step read N).
Proof. intros. unfold serial_benchmark. keeps_tac. Qed.

End KeepsSerial.

(** The timed loop of [N] increments, each taking a keyspace holding the
    counter [u] to one holding [u + 1] ([place] says where the counter
    lives). *)
Lemma counter_loop conn cmd args (place : Z -> Keyspace) N v w :
  (forall u, (v <= u < v + Z.of_nat N)%Z ->
     exec (cmd :: args) (place u) = (place (u + 1)%Z, RInt (u + 1))) ->
  (forall k, w_ops w <= k < w_ops w + N -> w_faults w k = None) ->
  w_ks w = place v -> w_timer_on w = true ->
  go_for N (fun _ => step_on conn cmd args) w =
    (mkWorld (place (v + Z.of_nat N)%Z) (w_ops w + N) (w_faults w) true
       (w_timed w + N) (w_failed w) (w_log w), Normal tt).
Proof.
  intros Hexec Hf Hks Ht.
  set (inv := fun i w' => w' = mkWorld (place (v + Z.of_nat i)%Z) (w_ops w + i) (w_faults w)
                                true (w_timed w + i) (w_failed w) (w_log w)).
  destruct (go_for_inv (fun _ => step_on conn cmd args) inv N) with (s := w)
    as (w' & Hrun & Hw').
  - intros i w1 Hi ->. eexists. split.
    + eapply step_on_ok; simpl; [apply Hf; lia|]. apply Hexec. lia.
    + unfold inv, tick. simpl. f_equal; lia || (f_equal; lia).
  - unfold inv. destruct w; simpl in *. subst. by rewrite Z.add_0_r, !Nat.add_0_r.
  - by rewrite Hrun, Hw'.
Qed.

(** ** Where the counter of the key benchmarks lives *)

(** The keyspace of a key benchmark after [RemoveKey] and [v]
    increments. *)
Definition incr_place (ks0 : Keyspace) (key : string) (v : Z) : Keyspace :=
  if (v =? 0)%Z then delete key ks0 else <[key := VString (ll2string v)]> (delete key ks0).

Lemma incr_place_lookup ks0 key v :
  incr_place ks0 key v !! key = if (v =? 0)%Z then None else Some (VString (ll2string v)).
Proof.
  unfold incr_place. destruct (v =? 0)%Z; [apply lookup_delete_eq|apply lookup_insert_eq].
Qed.

Lemma incr_place_delete ks0 key v : delete key (incr_place ks0 key v) = delete key ks0.
Proof.
  unfold incr_place. destruct (v =? 0)%Z; [apply delete_delete_eq|].
  by rewrite delete_insert_eq, delete_delete_eq.
Qed.

Lemma incr_place_read ks0 key u :
  (0 <= u)%Z -> in_int64 u = true -> read_counter key (incr_place ks0 key u) = inr u.
Proof.
  intros Hu Hr. unfold read_counter. rewrite incr_place_lookup.
  destruct (Z.eqb_spec u 0) as [->|]; [done|]. by rewrite string2ll_ll2string.
Qed.

Lemma incr_place_incr_decr ks0 key u :
  (0 <= u)%Z -> in_int64 (u + 1) = true ->
  incr_decr key 1 (incr_place ks0 key u) = (incr_place ks0 key (u + 1), RInt (u + 1)).
Proof.
  intros Hu Hr.
  rewrite (proj1 (incr_decr_adds key 1 _ u (incr_place_read _ _ _ Hu ltac:(int64_bounds; lia)) eq_refl Hr)).
  unfold incr_place at 2. destruct (Z.eqb_spec (u + 1) 0); [lia|].
  unfold incr_place. destruct (u =? 0)%Z; [done|]. by rewrite insert_insert_eq.
Qed.

Lemma incr_place_exec ks0 key u :
  (0 <= u)%Z -> in_int64 (u + 1) = true ->
  exec ["INCR"; key]%string (incr_place ks0 key u) = (incr_place ks0 key (u + 1), RInt (u + 1)).
Proof. apply incr_place_incr_decr. Qed.

Lemma incr_place_exec_incrby ks0 key u :
  (0 <= u)%Z -> in_int64 (u + 1) = true ->
  exec ["INCRBY"; key; "1"]%string (incr_place ks0 key u) = (incr_place ks0 key (u + 1), RInt (u + 1)).
Proof. apply incr_place_incr_decr. Qed.

Lemma GetKey_incr_place conn ks0 key v w :
  w_faults w (w_ops w) = None -> w_ks w = incr_place ks0 key v ->
  GetKey conn key w = (tick (w_ks w) w, Normal (if (v =? 0)%Z then ""%string else ll2string v)).
Proof.
  intros Hf Hks. pose proof (incr_place_lookup ks0 key v) as Hl. rewrite <- Hks in Hl.
  destruct (v =? 0)%Z; [by apply GetKey_missing|by apply GetKey_string].
Qed.

Lemma step_on_fault conn cmd args w f :
  w_faults w (w_ops w) = Some f ->
  step_on conn cmd args w =
    (add_log ("Failed to execute the query. more info: " ++ fault_msg f) true
       (tick (fault_keyspace f (cmd :: args) (w_ks w)) w), Abrupt Goexit).
Proof.
  intros Hf. unfold step_on, do_int, st_bind, pool_do. cbn beta.
  rewrite Hf, round_trip_fault. done.
Qed.

(** A server error reply to the increment stops the run the same way. *)
Lemma step_on_err conn cmd args w ks' e :
  w_faults w (w_ops w) = None -> exec (cmd :: args) (w_ks w) = (ks', RErr e) ->
  step_on conn cmd args w =
    (add_log ("Failed to execute the query. more info: " ++ e) true (tick ks' w), Abrupt Goexit).
Proof.
  intros Hf He. unfold step_on.
  rewrite (st_bind_normal _ _ _ _ _ (do_int_ok _ _ _ _ _ Hf)). by rewrite He.
Qed.

(** ** Runs of the template *)

Section SerialRun.
Variables (cleanup read : Pool -> Go string) (cmd : string) (args : list string).
(** Where the counter lives: [place v] is the keyspace holding the
    counter [v]; the first cleanup takes [ks0] to [place 0], the last one
    takes [place v] to [ks_final], and the read helper returns [text v]. *)
Variables (place : Z -> Keyspace) (ks0 ks_final : Keyspace) (text : Z -> string).
Hypothesis cleanup_first : forall conn w,
  w_faults w (w_ops w) = None -> w_ks w = ks0 ->
  exists s, cleanup conn w = (tick (place 0%Z) w, Normal s).
Hypothesis cleanup_last : forall conn w v,
  w_faults w (w_ops w) = None -> w_ks w = place v -> (0 <= v)%Z ->
  exists s, cleanup conn w = (tick ks_final w, Normal s).
Hypothesis read_ok : forall conn w v,
  w_faults w (w_ops w) = None -> w_ks w = place v ->
  read conn w = (tick (place v) w, Normal (text v)).
Hypothesis exec_step : forall u, (0 <= u)%Z -> in_int64 (u + 1) = true ->
  exec (cmd :: args) (place u) = (place (u + 1)%Z, RInt (u + 1)).

(** A fault-free run from any world whose timer runs (as [runN] leaves
    it): [N] increments measured, the value logged, the keyspace cleaned. *)
Lemma serial_benchmark_run_from N w :
  dial "tcp" "127.0.0.1:6379" = None ->
  w_ks w = ks0 -> w_timer_on w = true ->
  (forall k, w_ops w <= k < w_ops w + N + 3 -> w_faults w k = None) ->
  (Z.of_nat N <= LLONG_MAX)%Z ->
  serial_benchmark cleanup (fun conn => step_on conn cmd args) read N w =
    (mkWorld ks_final (w_ops w + N + 3) (w_faults w) false N (w_failed w)
       (w_log w ++ [("Final value of the counter: " ++ text (Z.of_nat N))%string]), Normal tt).
Proof.
  destruct w as [ks ops F on timed failed log]; simpl.
  intros Hd -> -> HF HN. unfold serial_benchmark.
  rewrite (st_bind_normal _ _ _ _ _ (connect_ok 10 _ Hd)).
  destruct (cleanup_first (mkPool "tcp" "127.0.0.1:6379" 10) (mkWorld ks0 ops F true timed failed log))
    as [s1 Hc1]; [apply HF; simpl; lia|done|].
  rewrite (st_bind_normal _ _ _ _ _ Hc1).
  unfold ResetTimer at 1. rewrite st_bind_modify.
  erewrite st_bind_normal.
  2: { apply (counter_loop _ _ _ place N 0%Z).
       - intros u Hu. apply exec_step; [lia|int64_bounds; lia].
       - intros k Hk. apply HF. simpl in Hk. lia.
       - done.
       - done. }
  unfold StopTimer at 1. rewrite st_bind_modify.
  erewrite st_bind_normal.
  2: { apply read_ok; [apply HF; simpl; lia|done]. }
  rewrite Z.add_0_l. unfold Logf at 1. rewrite st_bind_modify.
  edestruct cleanup_last as [s2 Hc2]; [| |apply (Nat2Z.is_nonneg N)|].
  3: rewrite (st_bind_normal _ _ _ _ _ Hc2).
  - apply HF. simpl. lia.
  - done.
  - unfold st_ret, tick, add_log. cbn. rewrite orb_false_r. do 2 f_equal. lia.
Qed.

Lemma serial_benchmark_run N F :
  dial "tcp" "127.0.0.1:6379" = None ->
  (forall k, k < N + 3 -> F k = None) ->
  (Z.of_nat N <= LLONG_MAX)%Z ->
  serial_benchmark cleanup (fun conn => step_on conn cmd args) read N (start_world ks0 F) =
    (mkWorld ks_final (N + 3) F false N false
       [("Final value of the counter: " ++ text (Z.of_nat N))%string], Normal tt).
Proof.
  intros Hd HF HN. rewrite serial_benchmark_run_from; [done|done|done|done| |done].
  intros k Hk. apply HF. simpl in Hk. lia.
Qed.

(** The [j]-th increment stops the run (a transport fault or an error
    reply, with [b.Fatalf]), the earlier ones having succeeded: the run
    ends where that step ends. *)
Lemma serial_benchmark_abort N F j w_fail :
  dial "tcp" "127.0.0.1:6379" = None ->
  (forall k, k <= j -> F k = None) -> j < N -> (Z.of_nat j <= LLONG_MAX)%Z ->
  step_on (mkPool "tcp" "127.0.0.1:6379" 10) cmd args
    (mkWorld (place (Z.of_nat j)) (1 + j) F true j false []) = (w_fail, Abrupt Goexit) ->
  serial_benchmark cleanup (fun conn => step_on conn cmd args) read N (start_world ks0 F) =
    (w_fail, Abrupt Goexit).
Proof.
  intros Hd HF HjN Hj Htrip. unfold serial_benchmark.
  rewrite (st_bind_normal _ _ _ _ _ (connect_ok 10 _ Hd)).
  destruct (cleanup_first (mkPool "tcp" "127.0.0.1:6379" 10) (start_world ks0 F))
    as [s1 Hc1]; [apply HF; simpl; lia|done|].
  rewrite (st_bind_normal _ _ _ _ _ Hc1).
  unfold ResetTimer at 1. rewrite st_bind_modify.
  set (inv := fun i w' => w' = mkWorld (place (Z.of_nat i)) (1 + i) F true i false []).
  destruct (go_for_abort (fun _ => step_on (mkPool "tcp" "127.0.0.1:6379" 10) cmd args) inv N j)
    with (s_fail := fun _ : World => w_fail) (e := Goexit) (s := set_timer true 0 (tick (place 0%Z) (start_world ks0 F)))
    as (w' & Hw' & Hrun).
  - intros i w1 Hi ->. eexists. split.
    + eapply step_on_ok; [apply HF; simpl; lia|]. apply exec_step; [lia|int64_bounds; lia].
    + unfold inv, tick. simpl. f_equal; lia || (f_equal; lia).
  - intros w1 ->. exact Htrip.
  - done.
  - done.
  - by rewrite (st_bind_abrupt _ _ _ _ _ Hrun).
Qed.

End SerialRun.

(** ** The key benchmarks *)

Section KeyBenchmarks.
Variables (ks0 : Keyspace) (rnd : Z).

Lemma key_cleanup_first conn w :
  w_faults w (w_ops w) = None -> w_ks w = ks0 ->
  exists s, RemoveKey conn (benchmark_key rnd) w =
            (tick (incr_place ks0 (benchmark_key rnd) 0%Z) w, Normal s).
Proof. intros Hf Hks. rewrite RemoveKey_ok by done. rewrite Hks. by eexists. Qed.

Lemma key_cleanup_last conn w v :
  w_faults w (w_ops w) = None -> w_ks w = incr_place ks0 (benchmark_key rnd) v -> (0 <= v)%Z ->
  exists s, RemoveKey conn (benchmark_key rnd) w = (tick (delete (benchmark_key rnd) ks0) w, Normal s).
Proof. intros Hf Hks _. rewrite RemoveKey_ok by done. rewrite Hks, incr_place_delete. by eexists. Qed.

Lemma key_read conn w v :
  w_faults w (w_ops w) = None -> w_ks w = incr_place ks0 (benchmark_key rnd) v ->
  GetKey conn (benchmark_key rnd) w =
    (tick (incr_place ks0 (benchmark_key rnd) v) w,
     Normal (if (v =? 0)%Z then ""%string else ll2string v)).
Proof. intros Hf Hks. rewrite (GetKey_incr_place _ ks0 _ v) by done. by rewrite Hks. Qed.
End KeyBenchmarks.

(** ** The hash benchmark *)

(** The hash at [k], empty when there is none. *)
Definition hash_of (ks : Keyspace) (k : string) : gmap string string :=
  match ks !! k with Some (VHash h) => h | _ => ∅ end.

(** The keyspace of the hash benchmark after its first cleanup ([ks1])
    and [v] increments of field [f] of hash [k]. *)
Definition hash_place (ks1 : Keyspace) (k f : string) (v : Z) : Keyspace :=
  if (v =? 0)%Z then ks1 else <[k := VHash (<[f := ll2string v]> (hash_of ks1 k))]> ks1.

(** After the first cleanup, [k] holds no string, and its hash, if any,
    is not empty and has no field [f]. *)
Definition hash_clean (ks1 : Keyspace) (k f : string) : Prop :=
  match ks1 !! k with
  | None => True
  | Some (VHash h) => h !! f = None /\ h <> ∅
  | Some (VString _) => False
  end.

Lemma hdel_single k f ks :
  hdel k [f] ks =
    match ks !! k with
    | None => (ks, RInt 0)
    | Some (VString _) => (ks, RErr WRONGTYPE)
    | Some (VHash h) =>
        (if decide (delete f h = ∅) then delete k ks else <[k := VHash (delete f h)]> ks,
         RInt (match h !! f with Some _ => 1 | None => 0 end)%Z)
    end.
Proof.
  unfold hdel. destruct (ks !! k) as [[|h]|]; [done| |done].
  simpl. by rewrite Z.add_0_r.
Qed.

Lemma hash_clean_first k f ks0 :
  (forall s, ks0 !! k <> Some (VString s)) -> hash_clean (hdel k [f] ks0).1 k f.
Proof.
  intros Hns. rewrite hdel_single. unfold hash_clean.
  destruct (ks0 !! k) as [[s|h]|] eqn:E; simpl; [by destruct (Hns s)| |by rewrite E].
  case_decide; [by rewrite lookup_delete_eq|].
  rewrite lookup_insert_eq. split; [apply lookup_delete_eq|done].
Qed.

Lemma hash_place_lookup ks1 k f v :
  hash_clean ks1 k f -> (v <> 0)%Z ->
  hash_place ks1 k f v !! k = Some (VHash (<[f := ll2string v]> (hash_of ks1 k))).
Proof.
  intros _ Hv. unfold hash_place. destruct (Z.eqb_spec v 0); [lia|]. apply lookup_insert_eq.
Qed.

Lemma hash_of_field ks1 k f : hash_clean ks1 k f -> hash_of ks1 k !! f = None.
Proof.
  unfold hash_clean, hash_of. destruct (ks1 !! k) as [[|h]|]; [done|by intros []|done].
Qed.

Lemma hash_place_no_string ks1 k f v :
  hash_clean ks1 k f -> forall s, hash_place ks1 k f v !! k <> Some (VString s).
Proof.
  intros Hc s. destruct (Z.eqb_spec v 0) as [->|Hv].
  - unfold hash_place, hash_clean in *. simpl. by destruct (ks1 !! k) as [[|]|].
  - by rewrite hash_place_lookup.
Qed.

Lemma hash_place_last ks1 k f v :
  hash_clean ks1 k f -> (0 <= v)%Z -> (hdel k [f] (hash_place ks1 k f v)).1 = ks1.
Proof.
  intros Hc Hv. rewrite hdel_single.
  destruct (Z.eqb_spec v 0) as [->|Hv0].
  - unfold hash_place, hash_clean in *. simpl.
    destruct (ks1 !! k) as [[|h]|] eqn:E; [done| |done].
    destruct Hc as [Hf Hne]. rewrite delete_id by done.
    case_decide; [done|]. by apply insert_id.
  - rewrite hash_place_lookup by done. simpl.
    rewrite delete_insert_eq, delete_id by (by apply hash_of_field).
    unfold hash_place. destruct (Z.eqb_spec v 0); [lia|].
    unfold hash_clean, hash_of in *.
    destruct (ks1 !! k) as [[|h]|] eqn:E; [done| |].
    + destruct Hc as [Hf Hne]. case_decide; [done|].
      rewrite insert_insert_eq. by apply insert_id.
    + case_decide; [|done]. rewrite delete_insert_eq. by apply delete_id.
Qed.

Lemma hash_place_exec ks1 k f u :
  hash_clean ks1 k f -> (0 <= u)%Z -> in_int64 (u + 1) = true ->
  exec ["HINCRBY"; k; f; "1"]%string (hash_place ks1 k f u) =
    (hash_place ks1 k f (u + 1), RInt (u + 1)).
Proof.
  intros Hc Hu Hr.
  set (hu := if (u =? 0)%Z then hash_of ks1 k else <[f := ll2string u]> (hash_of ks1 k)).
  assert (Hh : hash_lookup_or_create k (hash_place ks1 k f u) = inr hu).
  { unfold hash_lookup_or_create, hu. destruct (Z.eqb_spec u 0) as [->|].
    - unfold hash_place, hash_clean, hash_of in *. simpl.
      by destruct (ks1 !! k) as [[|h]|].
    - by rewrite hash_place_lookup. }
  assert (Hrd : read_hash_counter f hu = inr u).
  { unfold hu. destruct (Z.eqb_spec u 0) as [->|].
    - unfold read_hash_counter. by rewrite hash_of_field.
    - apply read_hash_counter_string. int64_bounds. lia. }
  change (exec ["HINCRBY"; k; f; "1"]%string (hash_place ks1 k f u))
    with (hincrby k f "1" (hash_place ks1 k f u)).
  rewrite (hincrby_adds k f "1" 1 _ hu u eq_refl Hh Hrd Hr). f_equal.
  unfold hash_place at 2. destruct (Z.eqb_spec (u + 1) 0); [lia|].
  unfold hu, hash_place. destruct (u =? 0)%Z; [done|].
  by rewrite !insert_insert_eq.
Qed.

Lemma hash_place_hget ks1 k f v :
  hash_clean ks1 k f ->
  exec ["HGET"; k; f]%string (hash_place ks1 k f v) =
    (hash_place ks1 k f v, if (v =? 0)%Z then RNil else RBulk (ll2string v)).
Proof.
  intros Hc. change (exec _ _) with (hget k f (hash_place ks1 k f v)). unfold hget.
  destruct (Z.eqb_spec v 0) as [->|Hv].
  - unfold hash_place, hash_clean in *. simpl.
    destruct (ks1 !! k) as [[|h]|]; [done| |done]. destruct Hc as [-> _]. done.
  - rewrite hash_place_lookup by done. by rewrite lookup_insert_eq.
Qed.

Section HashBenchmark.
Variables (ks0 : Keyspace).
Hypothesis no_string : forall s, ks0 !! hashID <> Some (VString s).

Lemma hash_cleanup_first conn w :
  w_faults w (w_ops w) = None -> w_ks w = ks0 ->
  exists s, RemoveHKey conn hashID keyInHash w =
            (tick (hash_place (hdel hashID [keyInHash] ks0).1 hashID keyInHash 0%Z) w, Normal s).
Proof.
  intros Hf Hks. unfold RemoveHKey. rewrite (st_bind_normal _ _ _ _ _ (do_string_ok _ _ _ _ _ Hf)).
  change (exec _ (w_ks w)) with (hdel hashID [keyInHash] (w_ks w)). rewrite Hks.
  rewrite hdel_single. unfold hash_place. simpl.
  destruct (ks0 !! hashID) as [[s|h]|] eqn:E; [by destruct (no_string s)| |by eexists].
  by eexists.
Qed.

Lemma hash_cleanup_last conn w v :
  w_faults w (w_ops w) = None ->
  w_ks w = hash_place (hdel hashID [keyInHash] ks0).1 hashID keyInHash v -> (0 <= v)%Z ->
  exists s, RemoveHKey conn hashID keyInHash w = (tick (hdel hashID [keyInHash] ks0).1 w, Normal s).
Proof.
  intros Hf Hks Hv. unfold RemoveHKey. rewrite (st_bind_normal _ _ _ _ _ (do_string_ok _ _ _ _ _ Hf)).
  pose proof (hash_clean_first hashID keyInHash ks0 no_string) as Hc.
  change (exec _ (w_ks w)) with (hdel hashID [keyInHash] (w_ks w)).
  rewrite <- (hash_place_last _ _ _ v Hc Hv), <- Hks.
  assert (Hns := hash_place_no_string _ _ _ v Hc). rewrite <- Hks in Hns.
  rewrite hdel_single. destruct (w_ks w !! hashID) as [[s|h]|]; [by destruct (Hns s)|by eexists..].
Qed.

Lemma hash_read conn w v :
  w_faults w (w_ops w) = None ->
  w_ks w = hash_place (hdel hashID [keyInHash] ks0).1 hashID keyInHash v ->
  GetHKey conn hashID keyInHash w =
    (tick (hash_place (hdel hashID [keyInHash] ks0).1 hashID keyInHash v) w,
     Normal (if (v =? 0)%Z then ""%string else ll2string v)).
Proof.
  intros Hf Hks. unfold GetHKey. rewrite (st_bind_normal _ _ _ _ _ (do_string_ok _ _ _ _ _ Hf)).
  unfold Cmd. rewrite Hks, hash_place_hget by apply hash_clean_first, no_string.
  by destruct (v =? 0)%Z.
Qed.
End HashBenchmark.

(** A fault-free run of [BenchmarkINCRKeyInSerializedSystem] from any
    world whose timer runs. *)
Lemma serial_INCR_run_from rnd N w :
  dial "tcp" "127.0.0.1:6379" = None -> w_timer_on w = true ->
  (forall k, w_ops w <= k < w_ops w + N + 3 -> w_faults w k = None) ->
  (Z.of_nat N <= LLONG_MAX)%Z ->
  BenchmarkINCRKeyInSerializedSystem rnd N w =
    (mkWorld (delete (benchmark_key rnd) (w_ks w)) (w_ops w + N + 3) (w_faults w) false N (w_failed w)
       (w_log w ++ [("Final value of the counter: " ++
                      (if (Z.of_nat N =? 0)%Z then "" else ll2string (Z.of_nat N)))%string]),
     Normal tt).
Proof.
  intros Hd Ht HF HN.
  apply (serial_benchmark_run_from _ _ "INCR" [benchmark_key rnd] (incr_place (w_ks w) (benchmark_key rnd))
           (w_ks w) (delete (benchmark_key rnd) (w_ks w)) (fun v => if (v =? 0)%Z then ""%string else ll2string v));
    [apply key_cleanup_first|apply key_cleanup_last|apply key_read|apply incr_place_exec|done..].
Qed.

(** [C1] (functional): a run of [BenchmarkINCRKeyInSerializedSystem]
    in which the server is reachable and no round trip fails, with
    [b.N <= MaxInt64], ends normally with: the counter logged as [b.N]
    (the empty string when [b.N = 0]), exactly [b.N] round trips
    measured by the timer, the benchmark not failed, and the keyspace
    as before the run with the key removed, whatever it held. *)
Theorem serial_INCR_run rnd N ks0 F :
  dial "tcp" "127.0.0.1:6379" = None ->
  (forall k, k < N + 3 -> F k = None) ->
  (Z.of_nat N <= LLONG_MAX)%Z ->
  BenchmarkINCRKeyInSerializedSystem rnd N (start_world ks0 F) =
    (mkWorld (delete (benchmark_key rnd) ks0) (N + 3) F false N false
       [("Final value of the counter: " ++ (if (Z.of_nat N =? 0)%Z then "" else ll2string (Z.of_nat N)))%string],
     Normal tt).
Proof.
  intros Hd HF HN.
  apply (serial_benchmark_run _ _ "INCR" [benchmark_key rnd] (incr_place ks0 (benchmark_key rnd)) ks0
           (delete (benchmark_key rnd) ks0) (fun v => if (v =? 0)%Z then ""%string else ll2string v));
    [apply key_cleanup_first|apply key_cleanup_last|apply key_read|apply incr_place_exec|done..].
Qed.

(** [C21] (functional): the same for [BenchmarkINCRBYKeyInSerializedSystem],
    whose loop sends [INCRBY key "1"]. *)
Theorem serial_INCRBY_run rnd N ks0 F :
  dial "tcp" "127.0.0.1:6379" = None ->
  (forall k, k < N + 3 -> F k = None) ->
  (Z.of_nat N <= LLONG_MAX)%Z ->
  BenchmarkINCRBYKeyInSerializedSystem rnd N (start_world ks0 F) =
    (mkWorld (delete (benchmark_key rnd) ks0) (N + 3) F false N false
       [("Final value of the counter: " ++ (if (Z.of_nat N =? 0)%Z then "" else ll2string (Z.of_nat N)))%string],
     Normal tt).
Proof.
  intros Hd HF HN.
  apply (serial_benchmark_run _ _ "INCRBY" [benchmark_key rnd; "1"]%string
           (incr_place ks0 (benchmark_key rnd)) ks0 (delete (benchmark_key rnd) ks0)
           (fun v => if (v =? 0)%Z then ""%string else ll2string v));
    [apply key_cleanup_first|apply key_cleanup_last|apply key_read|apply incr_place_exec_incrby|done..].
Qed.

(** [C23] (functional): a fault-free run of
    [BenchmarkINCRHashInSerializedSystem], when the key ["manjinder"] does
    not hold a string, logs the field's counter as [b.N], measures the
    [b.N] increments, and leaves the keyspace as its first cleanup made it:
    the field ["complaints"] removed from the hash (the hash removed with
    its last field), everything else as before. *)
Theorem serial_Hash_run N ks0 F :
  dial "tcp" "127.0.0.1:6379" = None ->
  (forall k, k < N + 3 -> F k = None) ->
  (Z.of_nat N <= LLONG_MAX)%Z ->
  (forall s, ks0 !! hashID <> Some (VString s)) ->
  BenchmarkINCRHashInSerializedSystem N (start_world ks0 F) =
    (mkWorld (hdel hashID [keyInHash] ks0).1 (N + 3) F false N false
       [("Final value of the counter: " ++ (if (Z.of_nat N =? 0)%Z then "" else ll2string (Z.of_nat N)))%string],
     Normal tt).
Proof.
  intros Hd HF HN Hns.
  apply (serial_benchmark_run _ _ "HINCRBY" [hashID; keyInHash; "1"]%string
           (hash_place (hdel hashID [keyInHash] ks0).1 hashID keyInHash) ks0
           (hdel hashID [keyInHash] ks0).1 (fun v => if (v =? 0)%Z then ""%string else ll2string v));
    [by apply hash_cleanup_first|by apply hash_cleanup_last|by apply hash_read| |done..].
  intros u Hu Hr. by apply hash_place_exec; [apply hash_clean_first|..].
Qed.

(** [C26] (error): when the key ["manjinder"] holds a string, the first
    [RemoveHKey] gets a WRONGTYPE error and panics, before the timer is
    reset; the panic says it could not fetch the value although the
    command was a deletion. *)
Theorem serial_Hash_wrongtype_panics N ks0 F s :
  dial "tcp" "127.0.0.1:6379" = None -> F 0 = None -> ks0 !! hashID = Some (VString s) ->
  BenchmarkINCRHashInSerializedSystem N (start_world ks0 F) =
    (tick ks0 (start_world ks0 F),
     Abrupt (Panic "Could not fetch the value for hash: manjinder and key: complaints from redis")).
Proof.
  intros Hd HF Hs. unfold BenchmarkINCRHashInSerializedSystem, serial_benchmark.
  rewrite (st_bind_normal _ _ _ _ _ (connect_ok 10 _ Hd)).
  by rewrite (st_bind_abrupt _ _ _ _ _ (RemoveHKey_string _ _ _ (start_world ks0 F) s HF Hs)).
Qed.

(** The [j]-th increment of a key benchmark meets the transport fault
    [f]: [b.Fatalf], with the request applied or not. *)
Lemma INCR_fault_trip conn ks0 key F j f :
  F (1 + j) = Some f -> (Z.of_nat j < LLONG_MAX)%Z ->
  step_on conn "INCR" [key] (mkWorld (incr_place ks0 key (Z.of_nat j)) (1 + j) F true j false []) =
    (mkWorld (incr_place ks0 key (Z.of_nat j + applied f)) (j + 2) F true (S j) true
       [("Failed to execute the query. more info: " ++ fault_msg f)%string], Abrupt Goexit).
Proof.
  intros Hf Hj. rewrite (step_on_fault _ _ _ _ f) by exact Hf. unfold add_log, tick. simpl.
  do 3 f_equal; [|lia]. destruct f; simpl; [by rewrite Z.add_0_r|].
  rewrite incr_place_exec; [done|lia|int64_bounds; lia].
Qed.

(** [C3] (error, finding): when the round trip of the [j]-th increment
    of [BenchmarkINCRKeyInSerializedSystem] fails ([j < b.N], the earlier
    round trips succeeded), [b.Fatalf] ends the run at once: the benchmark
    is failed, the timer is never stopped, no final value is logged, and
    the cleanup [RemoveKey] never runs, so the key stays in the keyspace
    holding the [j] increments made (one more if the server applied the
    failed request). *)
Theorem serial_INCR_fault_leaks_key rnd N ks0 F j f :
  dial "tcp" "127.0.0.1:6379" = None ->
  (forall k, k <= j -> F k = None) -> F (S j) = Some f -> j < N ->
  (Z.of_nat N <= LLONG_MAX)%Z ->
  BenchmarkINCRKeyInSerializedSystem rnd N (start_world ks0 F) =
    (mkWorld (incr_place ks0 (benchmark_key rnd) (Z.of_nat j + applied f)) (j + 2) F true (S j) true
       [("Failed to execute the query. more info: " ++ fault_msg f)%string],
     Abrupt Goexit).
Proof.
  intros Hd HF Hj HjN HN.
  apply serial_benchmark_abort with (j := j) (place := incr_place ks0 (benchmark_key rnd));
    [apply key_cleanup_first|apply incr_place_exec|done|done|lia|lia|].
  apply INCR_fault_trip; [exact Hj|lia].
Qed.

(** [C16] (equivalence): [BenchmarkINCRBYKeyInSerializedSystem] is
    equivalent to [BenchmarkINCRKeyInSerializedSystem]: from every world
    (any keyspace, any transport faults) and for every [b.N], the two
    runs end in the same world with the same outcome, since [INCRBY key
    "1"] has the effect of [INCR key] on every keyspace. *)
Theorem serial_INCRBY_equiv_INCR rnd N :
  BenchmarkINCRBYKeyInSerializedSystem rnd N ≡ BenchmarkINCRKeyInSerializedSystem rnd N.
Proof.
  unfold BenchmarkINCRBYKeyInSerializedSystem, BenchmarkINCRKeyInSerializedSystem.
  f_equiv. intros conn. apply step_on_same_effect, INCRBY_one_same_effect.
Qed.

End Benchmarks.

#[export] Hint Resolve keeps_connect keeps_step_on : keeps.

(** ** Witnesses, on the network [local_network] *)

Lemma serial_INCR_run_witness :
  dial "tcp" "127.0.0.1:6379" = None /\
  BenchmarkINCRKeyInSerializedSystem 7 3 (start_world ∅ (fun _ => None)) =
    (mkWorld (delete (benchmark_key 7) ∅) 6 (fun _ => None) false 3 false
       ["Final value of the counter: 3"%string], Normal tt).
Proof.
  split; [reflexivity|].
  apply (serial_INCR_run 7 3 ∅ (fun _ => None)); [reflexivity|intros; reflexivity|unfold LLONG_MAX; lia].
Defined.

Lemma serial_INCRBY_run_witness :
  dial "tcp" "127.0.0.1:6379" = None /\
  BenchmarkINCRBYKeyInSerializedSystem 7 2 (start_world ∅ (fun _ => None)) =
    (mkWorld (delete (benchmark_key 7) ∅) 5 (fun _ => None) false 2 false
       ["Final value of the counter: 2"%string], Normal tt).
Proof.
  split; [reflexivity|].
  apply (serial_INCRBY_run 7 2 ∅ (fun _ => None)); [reflexivity|intros; reflexivity|unfold LLONG_MAX; lia].
Defined.

Lemma serial_Hash_run_witness :
  dial "tcp" "127.0.0.1:6379" = None /\
  BenchmarkINCRHashInSerializedSystem 2 (start_world ∅ (fun _ => None)) =
    (mkWorld (hdel hashID [keyInHash] ∅).1 5 (fun _ => None) false 2 false
       ["Final value of the counter: 2"%string], Normal tt).
Proof.
  split; [reflexivity|].
  apply (serial_Hash_run 2 ∅ (fun _ => None)); [reflexivity|intros; reflexivity|unfold LLONG_MAX; lia|].
  intros s. rewrite lookup_empty. discriminate.
Defined.

Lemma serial_Hash_wrongtype_panics_witness :
  ({[hashID := VString "x"]} : Keyspace) !! hashID = Some (VString "x") /\
  BenchmarkINCRHashInSerializedSystem 4 (start_world {[hashID := VString "x"]} (fun _ => None)) =
    (tick {[hashID := VString "x"]} (start_world {[hashID := VString "x"]} (fun _ => None)),
     Abrupt (Panic "Could not fetch the value for hash: manjinder and key: complaints from redis")).
Proof.
  split; [reflexivity|].
  by apply (serial_Hash_wrongtype_panics 4 {[hashID := VString "x"]} (fun _ => None) "x").
Defined.

Lemma serial_INCR_fault_leaks_key_witness :
  (fun k => if Nat.eqb k 3 then Some (FaultBeforeSend "EOF") else None) 3 = Some (FaultBeforeSend "EOF") /\
  BenchmarkINCRKeyInSerializedSystem 7 5
    (start_world ∅ (fun k => if Nat.eqb k 3 then Some (FaultBeforeSend "EOF") else None)) =
    (mkWorld (incr_place ∅ (benchmark_key 7) 2) 4
       (fun k => if Nat.eqb k 3 then Some (FaultBeforeSend "EOF") else None) true 3 true
       ["Failed to execute the query. more info: EOF"%string], Abrupt Goexit).
Proof.
  split; [reflexivity|].
  apply (serial_INCR_fault_leaks_key 7 5 ∅ _ 2 (FaultBeforeSend "EOF"));
    [reflexivity|intros k Hk; destruct k as [|[|[|]]]; [reflexivity..|lia]|reflexivity|lia|unfold LLONG_MAX; lia].
Defined.

End Serial.
