(* ===== verification/Workers.v ===== *)
(** * The workers of [b.RunParallel]: a step relation

    [RunParallel] and [PB.Next] belong to Go's testing package and are
    modelled from its documentation and source: the workers share a
    counter [n] of claimed iterations; a worker whose local [cache] is
    empty adds [grain] to [n] atomically and takes what is left below
    [b.N]; [pb.Next] returns false once [n] has passed [b.N]. Each worker
    runs the body [for pb.Next() { conn.Do(...) }] of the parallel
    benchmarks of src/main_test.go.

    The concurrent phase is a step relation [pstep] over a [Config]: the
    shared counter, the idle connections of the pool, the keyspace, the
    round-trip counter, the failure flag and log, and one [Worker] per
    goroutine (its cache and its program point). A step is one atomic
    action of one worker: a call of [pb.Next], taking an idle connection
    (blocked while the pool has none), or the round trip of its command,
    applied atomically by the server, which gives the connection back.

    Invariants of every interleaving, with or without faults: the pool
    bound ([pool_inv]), what a returned or exited worker implies
    ([fin_inv]), the round trips never exceed [b.N] ([ops_inv]); the
    measure that every step lowers ([measure]); progress while a worker
    has not returned, and the scheduler [finish] that runs the workers
    until all of them have returned. Without faults, the accounting
    invariant ([acct_inv]) gives exactly [b.N] increments; when every
    round trip fails, [fail_inv] accounts for the failures. *)

From S2P Require Import Prelude Decimal Redis Radix Utf8 GoTesting Serial.
Import Decimal Redis Radix Utf8 GoTesting Serial.

Module Workers.

(** Where a worker goroutine is in [for pb.Next() { ... conn.Do(...) ... }]. *)
Inductive PC : Type :=
| WNext       (** about to call [pb.Next()] *)
| WAcquire    (** [pb.Next()] returned true: [conn.Do] waits for a connection *)
| WInFlight   (** holds a connection; the command is on its way *)
| WDone       (** [pb.Next()] returned false: the body returned *)
| WExited.    (** [b.Fatalf] called [runtime.Goexit] *)

Record Worker := mkWorker { cache : nat; pc : PC }.

Record Config := mkConfig {
  c_n : nat;              (** [*pb.globalN], shared by all workers *)
  c_free : nat;           (** idle connections of the pool *)
  c_ks : Keyspace;
  c_ops : nat;            (** round trips so far (index of the fault oracle) *)
  c_failed : bool;
  c_log : list string;
  c_workers : list Worker
}.

Section Step.
(** [b.N], the grain of [RunParallel], the fault oracle, and the request
    of the loop body. *)
Variables (bN grain : nat) (faults : nat -> option Fault) (req : list string).

(** [pb.Next()]: the new shared counter and, when it returns true, the
    new cache (already decremented). *)
Definition pb_next (n : nat) (w : Worker) : nat * option nat :=
  if cache w =? 0 then
    let n' := n + grain in
    if n' <=? bN then (n', Some (grain - 1))
    else if n' <? bN + grain then (n', Some (bN + grain - n' - 1))
    else (n', None)
  else (n, Some (cache w - 1)).

Definition set_worker (i : nat) (w : Worker) (c : Config) : Config :=
  mkConfig (c_n c) (c_free c) (c_ks c) (c_ops c) (c_failed c) (c_log c) (<[i := w]> (c_workers c)).

(** One atomic action of worker [i], or [None] when it cannot move. *)
Definition worker_step (c : Config) (i : nat) : option Config :=
  match c_workers c !! i with
  | None => None
  | Some w =>
      match pc w with
      | WNext =>
          let '(n', r) := pb_next (c_n c) w in
          let c' := mkConfig n' (c_free c) (c_ks c) (c_ops c) (c_failed c) (c_log c) (c_workers c) in
          match r with
          | Some k => Some (set_worker i (mkWorker k WAcquire) c')
          | None => Some (set_worker i (mkWorker (cache w) WDone) c')
          end
      | WAcquire =>
          if c_free c =? 0 then None
          else Some (set_worker i (mkWorker (cache w) WInFlight)
                      (mkConfig (c_n c) (c_free c - 1) (c_ks c) (c_ops c) (c_failed c) (c_log c) (c_workers c)))
      | WInFlight =>
          let '(ks', r) := round_trip (faults (c_ops c)) req (c_ks c) in
          match match r with Ok rep => decode_int 0 rep | Err e => Err e end with
          | Ok _ =>
              Some (set_worker i (mkWorker (cache w) WNext)
                      (mkConfig (c_n c) (S (c_free c)) ks' (S (c_ops c)) (c_failed c) (c_log c) (c_workers c)))
          | Err e =>
              Some (set_worker i (mkWorker (cache w) WExited)
                      (mkConfig (c_n c) (S (c_free c)) ks' (S (c_ops c)) true
                         (c_log c ++ [query_failed e]) (c_workers c)))
          end
      | WDone | WExited => None
      end
  end.

(** The step relation: some worker takes a step. *)
Definition pstep (c c' : Config) : Prop := exists i, worker_step c i = Some c'.

(** An explicit interleaving: the workers to run, in order; a worker
    that cannot move is skipped. *)
Fixpoint run_schedule (sched : list nat) (c : Config) : Config :=
  match sched with
  | [] => c
  | i :: rest =>
      match worker_step c i with
      | Some c' => run_schedule rest c'
      | None => run_schedule rest c
      end
  end.

Definition finished (w : Worker) : bool :=
  match pc w with WDone | WExited => true | _ => false end.

Definition all_finished (c : Config) : bool := forallb finished (c_workers c).

(** The first worker that can move, if any. *)
Fixpoint first_step (c : Config) (i : nat) (k : nat) : option Config :=
  match k with
  | O => None
  | S k' => match worker_step c i with Some c' => Some c' | None => first_step c (S i) k' end
  end.

(** [wg.Wait()]: let the workers run to the end, the first that can move
    first, for at most [fuel] steps. *)
Fixpoint drain (fuel : nat) (c : Config) : Config :=
  match fuel with
  | O => c
  | S f => match first_step c 0 (List.length (c_workers c)) with Some c' => drain f c' | None => c end
  end.

(** The configuration [RunParallel] starts: [n = 0], every connection
    of a pool of [P] idle, [W] workers with an empty cache. *)
Definition init_config (P W : nat) (ks : Keyspace) (ops : nat) (failed : bool) (log : list string) : Config :=
  mkConfig 0 P ks ops failed log (replicate W (mkWorker 0 WNext)).

(** ** Case analysis of a step *)

(** What one step of worker [i] does, by the worker's program point. *)
Lemma worker_step_cases c i c' :
  worker_step c i = Some c' ->
  exists w, c_workers c !! i = Some w /\
  ((pc w = WNext /\ exists n' k, pb_next (c_n c) w = (n', Some k) /\
       c' = set_worker i (mkWorker k WAcquire)
              (mkConfig n' (c_free c) (c_ks c) (c_ops c) (c_failed c) (c_log c) (c_workers c))) \/
   (pc w = WNext /\ exists n', pb_next (c_n c) w = (n', None) /\
       c' = set_worker i (mkWorker (cache w) WDone)
              (mkConfig n' (c_free c) (c_ks c) (c_ops c) (c_failed c) (c_log c) (c_workers c))) \/
   (pc w = WAcquire /\ c_free c <> 0 /\
       c' = set_worker i (mkWorker (cache w) WInFlight)
              (mkConfig (c_n c) (c_free c - 1) (c_ks c) (c_ops c) (c_failed c) (c_log c) (c_workers c))) \/
   (pc w = WInFlight /\ c_free c' = S (c_free c) /\ c_n c' = c_n c /\ c_ops c' = S (c_ops c) /\
       c_ks c' = (round_trip (faults (c_ops c)) req (c_ks c)).1 /\
       exists p', c_workers c' = <[i := mkWorker (cache w) p']> (c_workers c) /\
       ((p' = WNext /\ c_failed c' = c_failed c /\ c_log c' = c_log c) \/
        (p' = WExited /\ c_failed c' = true)))).
Proof.
  unfold worker_step. destruct (c_workers c !! i) as [w|] eqn:Hw; [|discriminate].
  intros Hs. exists w. split; [done|].
  assert (Hi : i < List.length (c_workers c)) by (by eapply lookup_lt_Some).
  destruct (pc w) eqn:Hpc.
  - destruct (pb_next (c_n c) w) as [n' [k|]] eqn:Hp; injection Hs as <-; [left|right; left];
      simpl; eauto 10.
  - destruct (Nat.eqb_spec (c_free c) 0); [discriminate|]. injection Hs as <-.
    do 2 right; left. eauto.
  - do 3 right. destruct (round_trip _ _ _) as [ks' r].
    destruct (match r with Ok rep => decode_int 0 rep | Err e => Err e end);
      injection Hs as <-; simpl; (do 5 (split; [done|])); eexists; (split; [reflexivity|]);
      solve [left; repeat split | right; repeat split].
  - discriminate.
  - discriminate.
Qed.

(** Case analysis of a step, with the stepping worker's program point
    substituted, and the sum of a cost over the workers across the
    update of that worker. *)
Ltac step_cases Hs :=
  let w := fresh "w" in
  destruct (worker_step_cases _ _ _ Hs) as
    (w & Hw & [(Hpc & n' & k & Hp & ->)|[(Hpc & n' & Hp & ->)|[(Hpc & Hf & ->)|(Hpc & Hf & Hn & Hops & Hks & p' & Hws & Hnew)]]]);
  destruct w as [cw pw]; simpl in Hpc; subst pw.

Ltac sum_insert f Hw :=
  match goal with |- context [sum_list_with f (<[?i := ?w']> ?ws)] =>
    let H := fresh "Hsum" in pose proof (sum_list_with_insert f ws i _ w' Hw) as H; simpl in H
  end.

(** [pb.Next] by cases: from the cache, a fresh grain below [b.N], the
    last partial grain, or the end. *)
Lemma pb_next_cases n w n' r :
  pb_next n w = (n', r) ->
  (cache w <> 0 /\ n' = n /\ r = Some (cache w - 1)) \/
  (cache w = 0 /\ n' = n + grain /\ n' <= bN /\ r = Some (grain - 1)) \/
  (cache w = 0 /\ n' = n + grain /\ bN < n' < bN + grain /\ r = Some (bN + grain - n' - 1)) \/
  (cache w = 0 /\ n' = n + grain /\ bN + grain <= n' /\ r = None).
Proof.
  unfold pb_next. destruct (Nat.eqb_spec (cache w) 0);
    [destruct (Nat.leb_spec (n + grain) bN); [|destruct (Nat.ltb_spec (n + grain) (bN + grain))]|];
    intros [= <- <-]; [right; left|do 2 right; left|do 3 right|left];
    repeat split; first [reflexivity | lia].
Qed.

Ltac pb_cases Hp :=
  apply pb_next_cases in Hp; simpl in Hp;
  destruct Hp as [(? & ? & Hr)|[(? & ? & ? & Hr)|[(? & ? & ? & Hr)|(? & ? & ? & Hr)]]];
  try discriminate Hr; try (injection Hr as Hr; subst).

(** ** The pool never lends more connections than it has *)

Definition in_flight (w : Worker) : nat := match pc w with WInFlight => 1 | _ => 0 end.

Arguments in_flight _ /.

Definition pool_inv (P : nat) (c : Config) : Prop :=
  c_free c + sum_list_with in_flight (c_workers c) = P.

Lemma pstep_pool_inv P c c' : pstep c c' -> pool_inv P c -> pool_inv P c'.
Proof.
  intros [i Hs] Hinv. unfold pool_inv in *.
  step_cases Hs; [| | |rewrite Hf, Hws]; simpl; sum_insert in_flight Hw;
    [| | |destruct Hnew as [(-> & _) | (-> & _)]]; simpl in *; lia.
Qed.

Lemma rtc_pool_inv P c c' : rtc pstep c c' -> pool_inv P c -> pool_inv P c'.
Proof. apply rtc_preserve, pstep_pool_inv. Qed.

(** ** Every interleaving terminates

    Each action of a worker lowers [3 * cache + 1] (before [pb.Next]),
    [3 * cache + 3] (waiting for a connection) or [3 * cache + 2] (in
    flight); a call of [pb.Next] that takes a new grain raises the cost of
    its worker by at most [3 * grain - 1] and lowers the unclaimed
    iterations [bN + grain - n] by [grain]. *)

Definition wcost (w : Worker) : nat :=
  match pc w with
  | WNext => 3 * cache w + 1
  | WAcquire => 3 * cache w + 3
  | WInFlight => 3 * cache w + 2
  | WDone | WExited => 0
  end.

Arguments wcost _ /.

Definition measure (c : Config) : nat :=
  sum_list_with wcost (c_workers c) + 3 * (bN + grain - c_n c).

Section Grain.
Hypothesis grain_pos : 1 <= grain.

Lemma pstep_measure c c' : pstep c c' -> measure c' < measure c.
Proof.
  intros [i Hs]. unfold measure.
  step_cases Hs; [| | |rewrite Hn, Hws]; simpl; sum_insert wcost Hw;
    [pb_cases Hp|pb_cases Hp| |destruct Hnew as [(-> & _) | (-> & _)]]; simpl in *; lia.
Qed.

Lemma rtc_measure c c' : rtc pstep c c' -> measure c' <= measure c.
Proof. induction 1 as [|x y z Hxy _ IH]; [lia|]. pose proof (pstep_measure _ _ Hxy). lia. Qed.

Lemma run_schedule_rtc sched c : rtc pstep c (run_schedule sched c).
Proof.
  revert c. induction sched as [|i rest IH]; intros c; simpl; [done|].
  destruct (worker_step c i) eqn:E; [|done]. eapply rtc_l; [by exists i|apply IH].
Qed.

(** ** Progress: a worker can always move until all have returned *)

Lemma worker_step_some c i w :
  c_workers c !! i = Some w ->
  pc w = WNext \/ pc w = WInFlight \/ (pc w = WAcquire /\ c_free c <> 0) ->
  exists c', worker_step c i = Some c'.
Proof.
  intros Hw Hpc. unfold worker_step. rewrite Hw.
  destruct Hpc as [-> | [-> | [-> Hf]]].
  - destruct (pb_next _ _) as [? []]; eauto.
  - destruct (round_trip _ _ _) as [? r].
    destruct (match r with Ok rep => decode_int 0 rep | Err e => Err e end); eauto.
  - apply Nat.eqb_neq in Hf. rewrite Hf. eauto.
Qed.

Lemma in_flight_exists ws :
  1 <= sum_list_with in_flight ws -> exists j w, ws !! j = Some w /\ pc w = WInFlight.
Proof.
  induction ws as [|w ws IH]; simpl; [lia|]. intros H.
  destruct (pc w) eqn:Hpc; simpl in H;
    try (destruct (IH ltac:(lia)) as (j & w' & ? & ?); by exists (S j), w').
  by exists 0, w.
Qed.

Lemma progress P c :
  pool_inv P c -> 1 <= P -> all_finished c = false -> exists c', pstep c c'.
Proof.
  intros Hinv HP Hfin. unfold all_finished in Hfin.
  apply forallb_false_lookup in Hfin as (i & w & Hi & Hw).
  unfold finished in Hw. unfold pstep, pool_inv in *.
  destruct (pc w) eqn:Hpc; try discriminate.
  - destruct (worker_step_some c i w) as [c' ?]; eauto.
  - destruct (Nat.eq_dec (c_free c) 0) as [H0|H0].
    + destruct (in_flight_exists (c_workers c)) as (j & w' & ? & ?); [lia|].
      destruct (worker_step_some c j w') as [c' ?]; eauto.
    + destruct (worker_step_some c i w) as [c' ?]; eauto.
  - destruct (worker_step_some c i w) as [c' ?]; eauto.
Qed.

(** ** [wg.Wait()] returns *)

Lemma first_step_some c j k c' : first_step c j k = Some c' -> pstep c c'.
Proof.
  revert j. induction k as [|k IH]; simpl; [discriminate|]. intros j.
  destruct (worker_step c j) eqn:E; [intros [= <-]; by exists j|apply IH].
Qed.

Lemma first_step_none c j k i :
  first_step c j k = None -> j <= i < j + k -> worker_step c i = None.
Proof.
  revert j. induction k as [|k IH]; simpl; intros j Hn Hi; [lia|].
  destruct (worker_step c j) eqn:E; [discriminate|].
  destruct (Nat.eq_dec i j) as [->|]; [done|]. apply (IH (S j)); [done|lia].
Qed.

Lemma worker_step_bound c i c' : worker_step c i = Some c' -> i < List.length (c_workers c).
Proof.
  unfold worker_step. destruct (c_workers c !! i) eqn:E; [|discriminate].
  intros _. by eapply lookup_lt_Some.
Qed.

Lemma first_step_progress c :
  first_step c 0 (List.length (c_workers c)) = None -> ~ exists c', pstep c c'.
Proof.
  intros Hn [c' [i Hi]]. pose proof (worker_step_bound _ _ _ Hi).
  rewrite (first_step_none c 0 _ i Hn) in Hi by lia. discriminate.
Qed.

(** With a pool of at least one connection, [drain] given more fuel than
    the measure ends with every worker returned, by a run of steps. *)
Lemma drain_finishes P fuel c :
  pool_inv P c -> 1 <= P -> measure c < fuel ->
  rtc pstep c (drain fuel c) /\ all_finished (drain fuel c) = true.
Proof.
  revert c. induction fuel as [|f IH]; intros c Hinv HP Hm; [lia|]. simpl.
  destruct (first_step c 0 (List.length (c_workers c))) as [c'|] eqn:E.
  - apply first_step_some in E. pose proof (pstep_measure c c' E).
    destruct (IH c') as [? ?]; eauto using pstep_pool_inv with lia.
    split; [|done]. by eapply rtc_l.
  - split; [done|]. apply first_step_progress in E.
    destruct (all_finished c) eqn:Hf; [done|]. exfalso. eauto using progress.
Qed.

(** ** What a finished worker says about the shared state

    A worker returns from its body only after [pb.Next] has seen [n] pass
    [bN + grain], and exits only after marking the benchmark failed;
    both facts stay true as [n] only grows and the flag is never
    cleared. *)

Definition fin_inv (c : Config) : Prop :=
  forall j w, c_workers c !! j = Some w ->
    (pc w = WDone -> bN + grain <= c_n c) /\ (pc w = WExited -> c_failed c = true).

Lemma pstep_mono c c' :
  pstep c c' -> c_n c <= c_n c' /\ (c_failed c = true -> c_failed c' = true).
Proof.
  intros [i Hs]. step_cases Hs; simpl; (split; [|try done]); [pb_cases Hp; lia..|lia| |].
  - lia.
  - destruct Hnew as [(_ & -> & _)|(_ & ->)]; auto.
Qed.

Lemma pstep_fin_inv c c' : pstep c c' -> fin_inv c -> fin_inv c'.
Proof.
  intros Hst Hinv j w' Hj. destruct (pstep_mono c c' Hst) as [Hn' Hf'].
  destruct Hst as [i Hs].
  assert (Hold : c_workers c !! j = Some w' -> (pc w' = WDone -> bN + grain <= c_n c') /\
                  (pc w' = WExited -> c_failed c' = true)).
  { intros Hj'. destruct (Hinv j w' Hj') as [H1 H2].
    split; intros Hp'; [specialize (H1 Hp'); lia|by apply Hf', H2]. }
  step_cases Hs; [| | |rewrite Hws in Hj]; simpl in *;
    (apply list_lookup_insert_Some in Hj as [(<- & <- & _)|(_ & Hj)];
     [simpl; split; intros; try discriminate|by apply Hold]).
  1: pb_cases Hp; lia.
  all: destruct Hnew as [(-> & _)|(-> & ?)]; congruence.
Qed.

(** ** Round trips never exceed the iterations claimed *)

(** The iterations a worker has claimed and not yet sent. *)
Definition owed (w : Worker) : nat :=
  match pc w with
  | WNext => cache w
  | WAcquire | WInFlight => S (cache w)
  | WDone | WExited => 0
  end.
Arguments owed _ /.

Definition ops_inv (ops0 : nat) (c : Config) : Prop :=
  c_ops c + sum_list_with owed (c_workers c) <= ops0 + Nat.min (c_n c) bN.

Lemma pstep_ops_inv ops0 c c' : pstep c c' -> ops_inv ops0 c -> ops_inv ops0 c'.
Proof.
  intros [i Hs]. unfold ops_inv.
  step_cases Hs; [| | |rewrite Hn, Hops, Hws]; simpl; sum_insert owed Hw;
    [pb_cases Hp|pb_cases Hp| |destruct Hnew as [(-> & _) | (-> & _)]]; simpl in *; lia.
Qed.

Lemma worker_step_inflight_exec c i k z ks' :
  c_workers c !! i = Some (mkWorker k WInFlight) ->
  faults (c_ops c) = None -> exec req (c_ks c) = (ks', RInt z) ->
  worker_step c i = Some (set_worker i (mkWorker k WNext)
    (mkConfig (c_n c) (S (c_free c)) ks' (S (c_ops c)) (c_failed c) (c_log c) (c_workers c))).
Proof. intros Hw Hf He. unfold worker_step, round_trip. by rewrite Hw, Hf, He. Qed.

Lemma worker_step_inflight_err c i k e ks' :
  c_workers c !! i = Some (mkWorker k WInFlight) ->
  faults (c_ops c) = None -> exec req (c_ks c) = (ks', RErr e) ->
  worker_step c i = Some (set_worker i (mkWorker k WExited)
    (mkConfig (c_n c) (S (c_free c)) ks' (S (c_ops c)) true
       (c_log c ++ ["Failed to execute the query. more info: " ++ e]%string) (c_workers c))).
Proof. intros Hw Hf He. unfold worker_step, round_trip. by rewrite Hw, Hf, He. Qed.

(** ** Without faults, every claimed iteration is one increment

    [place u] is the keyspace holding the counter [u]; the command adds
    one to it. The accounting invariant: [e] round trips have been made
    and each added one to the counter; the iterations claimed so far
    ([min n bN]) are those made plus those owed by the workers. *)
Section Accounting.
Variables (place : Z -> Keyspace) (v0 : Z) (ops0 : nat) (failed0 : bool) (log0 : list string).
Hypothesis no_fault : forall k, faults k = None.
Hypothesis exec_step : forall u, (v0 <= u < v0 + Z.of_nat bN)%Z ->
  exec req (place u) = (place (u + 1)%Z, RInt (u + 1)).

Definition acct_inv (c : Config) : Prop :=
  exists e : nat,
    c_ks c = place (v0 + Z.of_nat e)%Z /\ c_ops c = ops0 + e /\
    e + sum_list_with owed (c_workers c) = Nat.min (c_n c) bN /\
    c_failed c = failed0 /\ c_log c = log0 /\
    (forall j w, c_workers c !! j = Some w -> pc w <> WExited).

Lemma acct_init P W : acct_inv (init_config P W (place v0) ops0 failed0 log0).
Proof.
  exists 0. simpl. rewrite Z.add_0_r, sum_list_with_zero.
  - split_and!; try done; try lia. all: intros j w [-> _]%lookup_replicate; done.
  - intros j w [-> _]%lookup_replicate. done.
Qed.

Lemma pstep_acct c c' : pstep c c' -> acct_inv c -> acct_inv c'.
Proof.
  intros [i Hs] (e & Hks0 & Hops0 & Hsum0 & Hfl & Hlog & Hex).
  assert (Hex' : forall w', pc w' <> WExited -> forall j w, (<[i := w']> (c_workers c)) !! j = Some w -> pc w <> WExited).
  { intros w' Hw' j w [(<- & <- & _)|(_ & Hj)]%list_lookup_insert_Some; eauto. }
  step_cases Hs.
  1,2: exists e; simpl; pb_cases Hp; sum_insert owed Hw; simpl in *;
    (split_and!; [done|done|lia|done|done|apply Hex'; discriminate]).
  - exists e. simpl. sum_insert owed Hw. simpl in *.
    split_and!; [done|done|lia|done|done|apply Hex'; discriminate].
  - assert (He : (e < bN)%nat).
    { pose proof (sum_list_with_lookup owed _ _ _ Hw). simpl in *. lia. }
    rewrite (worker_step_inflight_exec c i cw (v0 + Z.of_nat e + 1) (place (v0 + Z.of_nat e + 1)) Hw)
      in Hs by (rewrite ?Hks0; auto using exec_step with lia).
    injection Hs as <-. exists (S e). simpl. sum_insert owed Hw. simpl in *.
    split_and!; [f_equal; lia|lia|lia|done|done|apply Hex'; discriminate].
Qed.

Lemma rtc_acct c c' : rtc pstep c c' -> acct_inv c -> acct_inv c'.
Proof. apply rtc_preserve, pstep_acct. Qed.

(** When every worker has returned, the counter went up by exactly [bN]
    and [bN] round trips were made. *)
Lemma acct_final c :
  acct_inv c -> fin_inv c -> all_finished c = true -> c_workers c <> [] ->
  c_ks c = place (v0 + Z.of_nat bN)%Z /\ c_ops c = ops0 + bN /\ bN < c_n c /\
  c_failed c = failed0 /\ c_log c = log0.
Proof.
  intros (e & Hks & Hops & Hsum & Hfl & Hlog & Hex) Hfin Hall Hne.
  assert (Hdone : forall j w, c_workers c !! j = Some w -> pc w = WDone).
  { intros j w Hj. pose proof (forallb_lookup _ _ _ _ Hall Hj) as Hf. specialize (Hex j w Hj).
    unfold finished in Hf. destruct (pc w); done. }
  destruct (c_workers c) as [|w0 ws] eqn:E; [done|].
  assert (Hn : bN + grain <= c_n c) by (apply (Hfin 0 w0); [by rewrite E|by apply (Hdone 0)]).
  rewrite sum_list_with_zero in Hsum.
  2: { intros j w Hj. simpl. by rewrite (Hdone j w Hj). }
  assert (e = bN) as -> by lia. split_and!; auto with lia.
Qed.

End Accounting.

(** ** When every command is refused

    The server answers the body's command with the error [e] and leaves
    the keyspace [ks0] unchanged. Each worker that sends it logs one
    failure and exits; once some iteration has been claimed, some worker
    is about to send it or the benchmark is failed. *)
Section AllFail.
Variables (ks0 : Keyspace) (e : string) (ops0 : nat) (f0 : bool) (log0 : list string).
Hypothesis bN_pos : 1 <= bN.
Hypothesis no_fault : forall k, faults k = None.
Hypothesis exec_fails : exec req ks0 = (ks0, RErr e).

Definition exited (w : Worker) : nat := match pc w with WExited => 1 | _ => 0 end.
Arguments exited _ /.

Definition pending (c : Config) : Prop :=
  exists j w, c_workers c !! j = Some w /\ (pc w = WAcquire \/ pc w = WInFlight).

Definition fail_inv (c : Config) : Prop :=
  let k := sum_list_with exited (c_workers c) in
  c_ks c = ks0 /\ c_ops c = ops0 + k /\
  c_log c = log0 ++ repeat ("Failed to execute the query. more info: " ++ e)%string k /\
  c_failed c = f0 || negb (k =? 0) /\ (0 < c_n c -> c_failed c = true \/ pending c).

Lemma fail_init P W : fail_inv (init_config P W ks0 ops0 f0 log0).
Proof.
  unfold fail_inv. simpl. rewrite sum_list_with_zero; [|intros j w [-> _]%lookup_replicate; done].
  rewrite app_nil_r, orb_false_r. split_and!; try done; lia.
Qed.

(** A pending worker other than [i] stays pending when [i] steps. *)
Lemma pending_insert c i w' ks ops fl lg n fr :
  pending c -> (forall w, c_workers c !! i = Some w -> pc w <> WAcquire /\ pc w <> WInFlight) ->
  pending (mkConfig n fr ks ops fl lg (<[i := w']> (c_workers c))).
Proof.
  intros (j & w & Hj & Hp) Hi. exists j, w. simpl. split; [|done].
  rewrite list_lookup_insert_ne; [done|]. intros ->. destruct (Hi w Hj); tauto.
Qed.

Lemma pstep_fail c c' : pstep c c' -> fail_inv c -> fail_inv c'.
Proof.
  intros [i Hs] (Hks0 & Hops0 & Hlog0 & Hfl0 & Hpend).
  step_cases Hs.
  - unfold fail_inv. simpl. erewrite (sum_list_with_insert_same exited _ i _ _ Hw) by reflexivity.
    split_and!; try done. intros _. right. exists i, (mkWorker k WAcquire).
    split; [apply list_lookup_insert_eq; by eapply lookup_lt_Some|by left].
  - unfold fail_inv. simpl. erewrite (sum_list_with_insert_same exited _ i _ _ Hw) by reflexivity. split_and!; try done. intros _.
    pb_cases Hp. destruct Hpend as [?|Hp']; [lia|by left|].
    right. apply (pending_insert c); [done|]. intros w Hw'. rewrite Hw in Hw'. by injection Hw' as <-.
  - unfold fail_inv. simpl. erewrite (sum_list_with_insert_same exited _ i _ _ Hw) by reflexivity. split_and!; try done. intros _.
    right. exists i, (mkWorker cw WInFlight).
    split; [apply list_lookup_insert_eq; by eapply lookup_lt_Some|by right].
  - rewrite (worker_step_inflight_err c i cw e ks0 Hw (no_fault _)) in Hs by (by rewrite Hks0).
    injection Hs as <-. unfold fail_inv. simpl. sum_insert exited Hw. simpl in *.
    replace (sum_list_with exited (<[i:={| cache := cw; pc := WExited |}]> (c_workers c)))
      with (S (sum_list_with exited (c_workers c))) by lia.
    split_and!; [done|lia| |by rewrite orb_true_r|by left].
    rewrite Hlog0, <- app_assoc. f_equal. rewrite <- Nat.add_1_r, repeat_app. done.
Qed.

End AllFail.

(** [RunParallel] up to [wg.Wait()]: the interleaving chosen by the
    scheduler, then the remaining steps until every worker has returned.
    The fuel [S (measure c1)] is enough ([finish_spec]). *)
Definition finish (sched : list nat) (c0 : Config) : Config :=
  let c1 := run_schedule sched c0 in drain (S (measure c1)) c1.

Lemma finish_spec P sched c0 :
  pool_inv P c0 -> 1 <= P ->
  rtc pstep c0 (finish sched c0) /\ all_finished (finish sched c0) = true.
Proof.
  intros Hinv HP. unfold finish.
  pose proof (run_schedule_rtc sched c0) as H1.
  destruct (drain_finishes P (S (measure (run_schedule sched c0))) (run_schedule sched c0))
    as [H2 H3]; eauto using rtc_pool_inv with lia.
  split; [by etrans|done].
Qed.

End Grain.

(** ** The configuration [RunParallel] starts from *)

Lemma init_pool_inv P W ks ops f l : pool_inv P (init_config P W ks ops f l).
Proof.
  unfold pool_inv. simpl. rewrite sum_list_with_zero; [lia|].
  intros j w [-> _]%lookup_replicate. done.
Qed.

Lemma init_fin_inv P W ks ops f l : fin_inv (init_config P W ks ops f l).
Proof. intros j w [-> _]%lookup_replicate. split; discriminate. Qed.

(** ** Frame: the workers touch only what their command touches *)

Lemma pstep_length c c' : pstep c c' -> List.length (c_workers c') = List.length (c_workers c).
Proof.
  intros [i Hs]. step_cases Hs; [| | |rewrite Hws]; simpl; apply length_insert.
Qed.

Section Frame.
Variable key : string.
Hypothesis exec_frame : forall ks, delete key (exec req ks).1 = delete key ks.

Lemma pstep_frame c c' : pstep c c' -> delete key (c_ks c') = delete key (c_ks c).
Proof.
  intros [i Hs]. step_cases Hs; simpl; try done.
  rewrite Hks. unfold round_trip.
  destruct (faults (c_ops c)) as [[]|]; simpl; auto.
  destruct (exec req (c_ks c)) as [ks' r] eqn:E. simpl. by rewrite <- (exec_frame (c_ks c)), E.
Qed.

End Frame.

(** Every schedule, and [wg.Wait], runs the workers by steps. *)
Lemma drain_rtc fuel c : rtc pstep c (drain fuel c).
Proof.
  revert c. induction fuel as [|f IH]; intros c; simpl; [done|].
  destruct (first_step c 0 _) as [c'|] eqn:E; [|done].
  eapply rtc_l; [by eapply first_step_some|apply IH].
Qed.

Lemma finish_rtc sched c : rtc pstep c (finish sched c).
Proof. unfold finish. etrans; [apply run_schedule_rtc|apply drain_rtc]. Qed.

(** A property of the keyspace that the request keeps is kept by every
    step, whatever the fault. *)
Section KeepsStep.
Variable P : Keyspace -> Prop.
Hypothesis exec_keeps : kept P req.

Lemma pstep_keeps c c' : pstep c c' -> P (c_ks c) -> P (c_ks c').
Proof.
  intros [i Hs] HP. step_cases Hs; simpl; try done.
  rewrite Hks. unfold round_trip. specialize (exec_keeps _ HP).
  destruct (faults (c_ops c)) as [[]|]; simpl; [done|done|by destruct (exec req (c_ks c))].
Qed.

End KeepsStep.

End Step.

(** ** The body's request matters only through the server's answer *)

Section SameEffect.
Variables (bN grain : nat) (faults : nat -> option Fault) (r1 r2 : list string).
Hypothesis same : same_effect r1 r2.

Lemma worker_step_same_effect c i :
  worker_step bN grain faults r1 c i = worker_step bN grain faults r2 c i.
Proof. unfold worker_step. by rewrite (round_trip_same_effect _ _ _ _ same). Qed.

Lemma run_schedule_same_effect sched c :
  run_schedule bN grain faults r1 sched c = run_schedule bN grain faults r2 sched c.
Proof.
  revert c. induction sched as [|i sched IH]; intros c; simpl; [done|].
  rewrite worker_step_same_effect. by destruct (worker_step _ _ _ r2 c i).
Qed.

Lemma first_step_same_effect c i k :
  first_step bN grain faults r1 c i k = first_step bN grain faults r2 c i k.
Proof.
  revert i. induction k as [|k IH]; intros i; simpl; [done|].
  by rewrite worker_step_same_effect, IH.
Qed.

Lemma finish_same_effect sched c :
  finish bN grain faults r1 sched c = finish bN grain faults r2 sched c.
Proof.
  unfold finish. rewrite run_schedule_same_effect.
  generalize (run_schedule bN grain faults r2 sched c). intros c1.
  generalize (S (measure bN grain c1)). intros fuel. revert c1.
  induction fuel as [|fuel IH]; intros c1; simpl; [done|].
  rewrite first_step_same_effect. by destruct (first_step _ _ _ r2 c1 0 _).
Qed.

End SameEffect.

(** ** Properties of every interleaving *)

(** [C18] (termination): with a grain of at least one (as [rp_grain]
    always gives), no interleaving of the workers runs forever: every
    step lowers the measure. *)
Theorem parallel_terminates bN grain faults req (run : nat -> Config) :
  1 <= grain -> ~ (forall i, pstep bN grain faults req (run i) (run (S i))).
Proof.
  intros Hg Hrun.
  assert (Hdec : forall i, measure bN grain (run i) + i <= measure bN grain (run 0)).
  { induction i as [|i IH]; [lia|]. pose proof (pstep_measure _ _ _ _ Hg _ _ (Hrun i)). lia. }
  specialize (Hdec (S (measure bN grain (run 0)))). lia.
Qed.

(** [C25] (bounds): whatever the faults and the interleaving, the round
    trips made by the workers never exceed [b.N]: an iteration is never
    sent twice, and the ones claimed but not sent are those of the
    workers that exited. *)
Theorem parallel_ops_bound bN grain faults req P W ks ops f l c :
  1 <= grain ->
  rtc (pstep bN grain faults req) (init_config P W ks ops f l) c ->
  c_ops c + sum_list_with owed (c_workers c) <= ops + Nat.min (c_n c) bN.
Proof.
  intros Hg H. apply (rtc_preserve _ (ops_inv bN ops) (pstep_ops_inv _ _ _ _ Hg ops) _ _ H).
  unfold ops_inv. simpl. rewrite sum_list_with_zero; [lia|].
  intros j w [-> _]%lookup_replicate. done.
Qed.

(** [C15] (invariant): in every state reachable from the start of
    [RunParallel], whatever the faults and the interleaving, a worker
    whose body returned has seen [pb.Next] claim past [b.N] (the shared
    counter is at least [b.N + grain]), and a worker that exited through
    [b.Fatalf] has marked the benchmark failed. *)
Theorem parallel_workers_invariant bN grain faults req P W ks ops f l c :
  1 <= grain ->
  rtc (pstep bN grain faults req) (init_config P W ks ops f l) c ->
  forall j w, c_workers c !! j = Some w ->
    (pc w = WDone -> bN + grain <= c_n c) /\ (pc w = WExited -> c_failed c = true).
Proof.
  intros Hg H. apply (rtc_preserve _ (fin_inv bN grain) (pstep_fin_inv _ _ _ _ Hg) _ _ H).
  apply init_fin_inv.
Qed.

(** [C19] (liveness): [wg.Wait()] in [RunParallel] returns: with a pool
    of at least one connection and a grain of at least one, whatever the
    faults and the interleaving chosen by the scheduler, the workers run
    by steps of the body until every one of them has returned or exited. *)
Theorem RunParallel_wait_returns bN grain faults req P W ks ops f l sched :
  1 <= grain -> 1 <= P ->
  rtc (pstep bN grain faults req) (init_config P W ks ops f l)
      (finish bN grain faults req sched (init_config P W ks ops f l)) /\
  all_finished (finish bN grain faults req sched (init_config P W ks ops f l)) = true.
Proof. intros Hg HP. apply (finish_spec _ _ _ _ Hg P); [apply init_pool_inv|done]. Qed.

(** ** Witnesses *)

Lemma parallel_terminates_witness :
  1 <= 1 /\ ~ (forall i, pstep 3 1 (fun _ => None) ["INCR"; "k"]%string
                 ((fun _ => init_config 1 2 ∅ 0 false []) i) ((fun _ => init_config 1 2 ∅ 0 false []) (S i))).
Proof. split; [lia|]. apply parallel_terminates. lia. Defined.

Lemma parallel_ops_bound_witness :
  1 <= 1 /\
  rtc (pstep 2 1 (fun _ => Some (FaultBeforeSend "EOF")) ["INCR"; "k"]%string) (init_config 1 2 ∅ 0 false [])
    (run_schedule 2 1 (fun _ => Some (FaultBeforeSend "EOF")) ["INCR"; "k"]%string [0; 0; 0; 1] (init_config 1 2 ∅ 0 false [])) /\
  (let c := run_schedule 2 1 (fun _ => Some (FaultBeforeSend "EOF")) ["INCR"; "k"]%string [0; 0; 0; 1]
              (init_config 1 2 ∅ 0 false []) in
   c_ops c + sum_list_with owed (c_workers c) <= 0 + Nat.min (c_n c) 2).
Proof.
  split; [lia|]. split; [apply run_schedule_rtc|].
  apply (parallel_ops_bound 2 1 (fun _ => Some (FaultBeforeSend "EOF")) ["INCR"; "k"]%string 1 2 ∅ 0 false []);
    [lia|apply run_schedule_rtc].
Defined.

Lemma parallel_workers_invariant_witness :
  1 <= 1 /\
  rtc (pstep 2 1 (fun _ => Some (FaultBeforeSend "EOF")) ["INCR"; "k"]%string) (init_config 1 2 ∅ 0 false [])
    (run_schedule 2 1 (fun _ => Some (FaultBeforeSend "EOF")) ["INCR"; "k"]%string [0; 0; 0] (init_config 1 2 ∅ 0 false [])) /\
  (let c := run_schedule 2 1 (fun _ => Some (FaultBeforeSend "EOF")) ["INCR"; "k"]%string [0; 0; 0]
              (init_config 1 2 ∅ 0 false []) in
   forall j w, c_workers c !! j = Some w ->
     (pc w = WDone -> 2 + 1 <= c_n c) /\ (pc w = WExited -> c_failed c = true)).
Proof.
  split; [lia|]. split; [apply run_schedule_rtc|].
  apply (parallel_workers_invariant 2 1 (fun _ => Some (FaultBeforeSend "EOF")) ["INCR"; "k"]%string 1 2 ∅ 0 false []);
    [lia|apply run_schedule_rtc].
Defined.

Lemma RunParallel_wait_returns_witness :
  1 <= 1 /\ 1 <= 1 /\
  rtc (pstep 3 1 (fun _ => None) ["INCR"; "k"]%string) (init_config 1 2 ∅ 0 false [])
      (finish 3 1 (fun _ => None) ["INCR"; "k"]%string [1; 0] (init_config 1 2 ∅ 0 false [])) /\
  all_finished (finish 3 1 (fun _ => None) ["INCR"; "k"]%string [1; 0] (init_config 1 2 ∅ 0 false [])) = true.
Proof. split; [lia|]. split; [lia|]. apply RunParallel_wait_returns; lia. Defined.

End Workers.
