(* ===== verification/Parallel.v ===== *)
(** * The parallel benchmarks: [b.RunParallel]

    [BenchmarkINCRKeyInParallelSystem] (src/main_test.go, lines 76-100),
    [BenchmarkINCRBYKeyInParallelSystem] (lines 126-151) and
    [BenchmarkINCRHashInParallelSystem] (lines 177-201) run their
    increments in [b.RunParallel]: [GOMAXPROCS] worker goroutines share
    one pool and loop [for pb.Next() { conn.Do(...) }].

    [RunParallel] (Go's testing package, modelled from its source)
    computes the grain ([rp_grain]), starts the workers of Workers.v and
    waits for them under the interleaving chosen by the Go scheduler
    ([Par]). Without faults it makes exactly [b.N] increments and refines
    the serialized timed loop; with faults, or a value that is not an
    integer, the theorems give the failures and the log. The three
    parallel benchmarks are [Go] computations over it, and their
    theorems hold for every schedule. *)

From S2P Require Import Prelude Decimal Redis Radix Utf8 GoTesting KeyHelpers Serial Workers.
Import Decimal Redis Radix Utf8 GoTesting KeyHelpers Serial Workers.

Module Parallel.

(** ** [b.RunParallel] *)

(** The grain of [RunParallel]: about 100us of iterations at the speed
    of the previous run, between 1 and 10000; the product is a [uint64]
    and wraps. *)
Definition rp_grain (previousN previousDuration : Z) : nat :=
  let grain := if (0 <? previousN)%Z && (0 <? previousDuration)%Z
               then ((100000 * previousN) mod 2 ^ 64 / previousDuration)%Z else 0%Z in
  let grain := if (grain <? 1)%Z then 1%Z else grain in
  Z.to_nat (if (10000 <? grain)%Z then 10000%Z else grain).

(** What [RunParallel] reads from the benchmark and the runtime:
    [b.parallelism], [GOMAXPROCS], the previous run's [b.N] and duration
    (in ns), and the interleaving chosen by the Go scheduler. *)
Record Par := mkPar {
  parallelism : nat;
  gomaxprocs : nat;
  previousN : Z;
  previousDuration : Z;
  schedule : list nat
}.

(** The world after [wg.Wait()]: the round trips of the workers are
    measured when the timer runs. *)
Definition join_world (w : World) (c : Config) : World :=
  mkWorld (c_ks c) (c_ops c) (w_faults w) (w_timer_on w)
    (if w_timer_on w then w_timed w + (c_ops c - w_ops w) else w_timed w) (c_failed c) (c_log c).

(** [b.RunParallel(body)] where [body] is [for pb.Next() { conn.Do(req) }]
    with [b.Fatalf] on error, on a pool of [poolSize] connections. *)
Definition RunParallel (par : Par) (N poolSize : nat) (req : list string) : Go unit :=
  fun w =>
    if N =? 0 then (w, Normal tt) else
    let grain := rp_grain (previousN par) (previousDuration par) in
    let numProcs := parallelism par * gomaxprocs par in
    let c := finish N grain (w_faults w) req (schedule par)
               (init_config poolSize numProcs (w_ks w) (w_ops w) (w_failed w) (w_log w)) in
    let w' := join_world w c in
    if (c_n c <=? N) && negb (c_failed c)
    then Fatalf "RunParallel: body exited without pb.Next() == false" w'
    else (w', Normal tt).

Lemma RunParallel_same_effect par N P r1 r2 :
  same_effect r1 r2 -> RunParallel par N P r1 ≡ RunParallel par N P r2.
Proof. intros Hr w. unfold RunParallel. by rewrite (finish_same_effect _ _ _ _ _ Hr). Qed.

Lemma keeps_RunParallel (P : Keyspace -> Prop) par N poolSize req :
  kept P req -> keeps P (RunParallel par N poolSize req).
Proof.
  intros Hex w Hw. unfold RunParallel. destruct (N =? 0); [done|].
  match goal with |- context [finish ?b ?g ?f ?r ?s ?c0] =>
    assert (Hc : P (c_ks (finish b g f r s c0)))
      by exact (rtc_preserve _ _ (pstep_keeps _ _ _ _ P Hex) _ _ (finish_rtc _ _ _ _ _ _) (Hw : P (c_ks c0))) end.
  by case_match.
Qed.

#[export] Hint Resolve keeps_RunParallel : keeps.

Lemma rp_grain_bounds a d : 1 <= rp_grain a d /\ (Z.of_nat (rp_grain a d) <= 10000)%Z.
Proof.
  unfold rp_grain. match goal with |- context [(?g <? 1)%Z] => generalize g end. intros g.
  destruct (Z.ltb_spec g 1); simpl; [lia|]. destruct (Z.ltb_spec 10000 g); lia.
Qed.

(** Without faults, [RunParallel] makes exactly [N] increments, all
    measured, whatever the interleaving. *)
Lemma RunParallel_ok par N P req w (place : Z -> Keyspace) v0 :
  1 <= N -> 1 <= P -> 1 <= parallelism par * gomaxprocs par ->
  (forall k, w_faults w k = None) -> w_ks w = place v0 ->
  (forall u, (v0 <= u < v0 + Z.of_nat N)%Z -> exec req (place u) = (place (u + 1)%Z, RInt (u + 1))) ->
  RunParallel par N P req w =
    (mkWorld (place (v0 + Z.of_nat N)%Z) (w_ops w + N) (w_faults w) (w_timer_on w)
       (if w_timer_on w then w_timed w + N else w_timed w) (w_failed w) (w_log w), Normal tt).
Proof.
  intros HN HP HW Hf Hks Hexec. unfold RunParallel.
  destruct (Nat.eqb_spec N 0) as [|_]; [lia|].
  pose proof (rp_grain_bounds (previousN par) (previousDuration par)) as [Hg _].
  set (g := rp_grain _ _). set (W := parallelism par * gomaxprocs par).
  set (c0 := init_config P W (w_ks w) (w_ops w) (w_failed w) (w_log w)).
  destruct (finish_spec N g (w_faults w) req Hg P (schedule par) c0) as [Hrtc Hall];
    [apply init_pool_inv|done|].
  set (c := finish _ _ _ _ _ c0) in *.
  destruct (acct_final N g Hg place v0 (w_ops w) (w_failed w) (w_log w) c)
    as (Hks' & Hops & Hn & Hfl & Hlog).
  - apply (rtc_acct _ _ _ _ Hg place v0 _ _ _ Hf Hexec c0); [done|]. unfold c0. rewrite Hks. apply acct_init.
  - apply (rtc_preserve _ _ (pstep_fin_inv N g (w_faults w) req Hg) c0); [done|apply init_fin_inv].
  - done.
  - intros He. assert (HL : List.length (c_workers c) = W).
    { apply (rtc_preserve _ (fun x => List.length (c_workers x) = W)
        (fun x y H E => eq_trans (pstep_length _ _ _ _ x y H) E) c0 c Hrtc).
      apply length_replicate. }
    rewrite He in HL. simpl in HL. lia.
  - destruct (Nat.leb_spec (c_n c) N); [lia|]. simpl. unfold join_world.
    rewrite Hks', Hops, Hfl, Hlog. do 2 f_equal. destruct (w_timer_on w); lia.
Qed.

(** Whatever the faults and the interleaving, [RunParallel] returns to
    the benchmark goroutine: a worker that failed has marked the benchmark
    failed, and one that returned saw [n] pass [N], so the final
    [b.Fatal] is never reached; the keyspace changed only where the
    body's command writes. *)
Lemma RunParallel_returns par N P req w key :
  1 <= P -> 1 <= parallelism par * gomaxprocs par ->
  (forall ks, delete key (exec req ks).1 = delete key ks) ->
  exists w', RunParallel par N P req w = (w', Normal tt) /\ delete key (w_ks w') = delete key (w_ks w).
Proof.
  intros HP HW Hfr. unfold RunParallel.
  destruct (Nat.eqb_spec N 0) as [|_]; [by exists w|].
  pose proof (rp_grain_bounds (previousN par) (previousDuration par)) as [Hg _].
  set (g := rp_grain _ _). set (W := parallelism par * gomaxprocs par).
  set (c0 := init_config P W (w_ks w) (w_ops w) (w_failed w) (w_log w)).
  destruct (finish_spec N g (w_faults w) req Hg P (schedule par) c0) as [Hrtc Hall];
    [apply init_pool_inv|done|].
  set (c := finish _ _ _ _ _ c0) in *.
  assert (Hfin : fin_inv N g c).
  { apply (rtc_preserve _ _ (pstep_fin_inv N g (w_faults w) req Hg) c0); [done|apply init_fin_inv]. }
  assert (HL : List.length (c_workers c) = W).
  { apply (rtc_preserve _ (fun x => List.length (c_workers x) = W)
      (fun x y H E => eq_trans (pstep_length _ _ _ _ x y H) E) c0 c Hrtc).
    apply length_replicate. }
  assert (Hks : delete key (c_ks c) = delete key (w_ks w)).
  { apply (rtc_preserve _ (fun x => delete key (c_ks x) = delete key (w_ks w))
      (fun x y H E => eq_trans (pstep_frame _ _ _ _ key Hfr x y H) E) c0 c Hrtc). done. }
  destruct (c_workers c !! 0) as [w0|] eqn:E0; [|apply lookup_ge_None in E0; lia].
  assert (Hend : (c_n c <=? N) && negb (c_failed c) = false).
  { pose proof (forallb_lookup _ _ _ _ Hall E0) as Hf0. destruct (Hfin 0 w0 E0) as [Hd Hx].
    unfold finished in Hf0. destruct (pc w0); try discriminate.
    - specialize (Hd eq_refl). destruct (Nat.leb_spec (c_n c) N); [lia|done].
    - by rewrite Hx, andb_false_r. }
  rewrite Hend. by eexists.
Qed.

(** When the server refuses the body's command (leaving the keyspace as
    it is), [RunParallel] still returns to the benchmark goroutine, after
    [k] workers, between one and [min N W], have each logged the failure
    and exited: the benchmark is failed. *)
Lemma RunParallel_fails par N P req w e :
  1 <= N -> 1 <= P -> 1 <= parallelism par * gomaxprocs par ->
  (forall k, w_faults w k = None) -> w_failed w = false -> exec req (w_ks w) = (w_ks w, RErr e) ->
  exists k, 1 <= k <= N /\ k <= parallelism par * gomaxprocs par /\
    RunParallel par N P req w =
      (mkWorld (w_ks w) (w_ops w + k) (w_faults w) (w_timer_on w)
         (if w_timer_on w then w_timed w + k else w_timed w) true
         (w_log w ++ repeat ("Failed to execute the query. more info: " ++ e)%string k), Normal tt).
Proof.
  intros HN HP HW Hf Hf0 He. unfold RunParallel.
  destruct (Nat.eqb_spec N 0) as [|_]; [lia|].
  pose proof (rp_grain_bounds (previousN par) (previousDuration par)) as [Hg _].
  set (g := rp_grain _ _). set (W := parallelism par * gomaxprocs par).
  set (c0 := init_config P W (w_ks w) (w_ops w) (w_failed w) (w_log w)).
  destruct (finish_spec N g (w_faults w) req Hg P (schedule par) c0) as [Hrtc Hall];
    [apply init_pool_inv|done|].
  set (c := finish _ _ _ _ _ c0) in *.
  assert (Hfin : fin_inv N g c).
  { apply (rtc_preserve _ _ (pstep_fin_inv N g (w_faults w) req Hg) c0); [done|apply init_fin_inv]. }
  assert (Hops : ops_inv N (w_ops w) c).
  { apply (rtc_preserve _ _ (pstep_ops_inv N g (w_faults w) req Hg (w_ops w)) c0); [done|].
    unfold ops_inv. simpl. rewrite sum_list_with_zero; [lia|]. by intros j x [-> _]%lookup_replicate. }
  destruct (rtc_preserve _ _ (pstep_fail N g (w_faults w) req Hg (w_ks w) e (w_ops w) (w_failed w) (w_log w)
              HN Hf He) c0 c Hrtc (fail_init N g Hg (w_ks w) e (w_ops w) (w_failed w) (w_log w) HN P W))
    as (Hks & Hops' & Hlog & Hfl & Hpend).
  assert (HL : List.length (c_workers c) = W).
  { apply (rtc_preserve _ (fun x => List.length (c_workers x) = W)
      (fun x y H E => eq_trans (pstep_length _ _ _ _ x y H) E) c0 c Hrtc).
    apply length_replicate. }
  set (k := sum_list_with exited (c_workers c)) in *.
  assert (Hfail : c_failed c = true).
  { destruct (c_workers c !! 0) as [w0|] eqn:E0; [|apply lookup_ge_None in E0; lia].
    pose proof (forallb_lookup _ _ _ _ Hall E0) as Hf0'. destruct (Hfin 0 w0 E0) as [Hd Hx].
    unfold finished in Hf0'. destruct (pc w0) eqn:Hpc; try discriminate; [|by apply Hx].
    destruct Hpend as [?|(j & wj & Hj & Hpj)]; [specialize (Hd eq_refl); lia|done|].
    pose proof (forallb_lookup _ _ _ _ Hall Hj) as Hfj. unfold finished in Hfj.
    destruct Hpj as [Hpj|Hpj]; rewrite Hpj in Hfj; discriminate. }
  assert (Hk : 1 <= k).
  { rewrite Hf0 in Hfl. destruct (Nat.eqb_spec k 0) as [E|]; [|lia].
    simpl in Hfl. congruence. }
  exists k. split_and!.
  - done.
  - unfold ops_inv in Hops. lia.
  - rewrite <- HL. apply sum_list_with_le_length. intros x. unfold exited. destruct (pc x); lia.
  - rewrite Hfail, andb_false_r. unfold join_world. rewrite Hks, Hops', Hfail, Hlog. do 2 f_equal.
    destruct (w_timer_on w); lia.
Qed.

(** An increment writes nothing but its key. *)
Lemma incr_decr_frame k i ks : delete k (incr_decr k i ks).1 = delete k ks.
Proof.
  unfold incr_decr. destruct (read_counter k ks); [done|].
  destruct (would_overflow _ _); [done|]. apply delete_insert_eq.
Qed.

(** ** The three parallel benchmarks *)

Section Benchmarks.
Context `{Dialer}.

(** The three parallel benchmarks are one text with four choices: the
    pool size (1 for the key benchmarks, 10 for the hash), the cleanup
    before the run (none for the key benchmarks, [RemoveHKey] for the
    hash), the command of the body, and the read and cleanup helpers:
    connect, [b.ResetTimer()], [b.RunParallel], [b.StopTimer()], log the
    value read back, clean up. *)
Definition parallel_benchmark (poolSize : nat) (setup : Pool -> Go unit) (req : list string)
    (read cleanup : Pool -> Go string) (par : Par) (N : nat) : Go unit :=
  conn <- connect poolSize ;;
  setup conn ;;
  ResetTimer ;;
  RunParallel par N (pool_size conn) req ;;
  StopTimer ;;
  v <- read conn ;;
  Logf (final_value_line v) ;;
  _ <- cleanup conn ;;
  st_ret tt.

(** [BenchmarkINCRKeyInParallelSystem] (lines 76-100): pool of 1, no
    [RemoveKey] before the run. *)
Definition BenchmarkINCRKeyInParallelSystem (par : Par) (rnd : Z) (N : nat) : Go unit :=
  let key := benchmark_key rnd in
  parallel_benchmark 1 (fun _ => st_ret tt) (Cmd "INCR" [key])
    (fun conn => GetKey conn key) (fun conn => RemoveKey conn key) par N.

(** [BenchmarkINCRBYKeyInParallelSystem] (lines 126-151). *)
Definition BenchmarkINCRBYKeyInParallelSystem (par : Par) (rnd : Z) (N : nat) : Go unit :=
  let key := benchmark_key rnd in
  parallel_benchmark 1 (fun _ => st_ret tt) (Cmd "INCRBY" [key; incrementBy])
    (fun conn => GetKey conn key) (fun conn => RemoveKey conn key) par N.

(** [BenchmarkINCRHashInParallelSystem] (lines 177-201): pool of 10,
    [RemoveHKey] before the run. *)
Definition BenchmarkINCRHashInParallelSystem (par : Par) (N : nat) : Go unit :=
  parallel_benchmark 10 (fun conn => _ <- RemoveHKey conn hashID keyInHash ;; st_ret tt)
    (Cmd "HINCRBY" [hashID; keyInHash; incrementBy])
    (fun conn => GetHKey conn hashID keyInHash) (fun conn => RemoveHKey conn hashID keyInHash) par N.

(** The template depends on its request only through the server's answer. *)
Lemma parallel_benchmark_same_effect P setup r1 r2 read cleanup par N :
  same_effect r1 r2 ->
  parallel_benchmark P setup r1 read cleanup par N ≡ parallel_benchmark P setup r2 read cleanup par N.
Proof.
  intros Hr. unfold parallel_benchmark.
  repeat first [reflexivity|apply RunParallel_same_effect, Hr|f_equiv|intros ?].
Qed.

(** The template keeps every property of the keyspace that its request
    keeps, when its helpers do. *)
Lemma keeps_parallel_benchmark (P : Keyspace -> Prop) poolSize setup req read cleanup par N :
  kept P req ->
  (forall conn, keeps P (setup conn)) -> (forall conn, keeps P (read conn)) ->
  (forall conn, keeps P (cleanup conn)) ->
  keeps P (parallel_benchmark poolSize setup req read cleanup par N).
Proof. intros. unfold parallel_benchmark. keeps_tac. Qed.

(** ** A fault-free run of the template *)

Section ParallelRun.
Variables (poolSize : nat) (setup : Pool -> Go unit) (req : list string) (read cleanup : Pool -> Go string).
(** [place u] holds the counter [u]; the setup makes [d] round trips and
    leaves [place v0]; the body's command adds one; after [N] of them the
    read helper returns [text] and the cleanup leaves [ks_final]. *)
Variables (ks0 ks_final : Keyspace) (place : Z -> Keyspace) (v0 : Z) (d N : nat) (text : string).
Hypothesis setup_ok : forall conn w, (forall k, w_faults w k = None) -> w_ks w = ks0 ->
  setup conn w = (mkWorld (place v0) (w_ops w + d) (w_faults w) (w_timer_on w)
                    (if w_timer_on w then w_timed w + d else w_timed w) (w_failed w) (w_log w), Normal tt).
Hypothesis read_ok : forall conn w, w_faults w (w_ops w) = None -> w_ks w = place (v0 + Z.of_nat N)%Z ->
  read conn w = (tick (w_ks w) w, Normal text).
Hypothesis cleanup_ok : forall conn w, w_faults w (w_ops w) = None -> w_ks w = place (v0 + Z.of_nat N)%Z ->
  exists s, cleanup conn w = (tick ks_final w, Normal s).
Hypothesis exec_step : forall u, (v0 <= u < v0 + Z.of_nat N)%Z ->
  exec req (place u) = (place (u + 1)%Z, RInt (u + 1)).

(** A fault-free run from any world whose timer runs (as [runN] leaves
    it), whatever the interleaving. *)
Lemma parallel_benchmark_run_from par w :
  dial "tcp" "127.0.0.1:6379" = None -> 1 <= N -> 1 <= poolSize ->
  1 <= parallelism par * gomaxprocs par -> (forall k, w_faults w k = None) ->
  w_ks w = ks0 -> w_timer_on w = true ->
  parallel_benchmark poolSize setup req read cleanup par N w =
    (mkWorld ks_final (w_ops w + d + N + 2) (w_faults w) false N (w_failed w)
       (w_log w ++ [("Final value of the counter: " ++ text)%string]), Normal tt).
Proof.
  destruct w as [ks ops F on timed failed log]; simpl.
  intros Hd HN HP HW HF -> ->. unfold parallel_benchmark.
  rewrite (st_bind_normal _ _ _ _ _ (connect_ok poolSize _ Hd)).
  rewrite (st_bind_normal _ _ _ _ _ (setup_ok _ (mkWorld ks0 ops F true timed failed log) HF eq_refl)).
  unfold ResetTimer at 1. rewrite st_bind_modify.
  erewrite st_bind_normal.
  2: { apply (RunParallel_ok par N poolSize req _ place v0); auto. }
  unfold StopTimer at 1. rewrite st_bind_modify.
  erewrite st_bind_normal by (apply read_ok; [apply HF|done]).
  unfold Logf at 1. rewrite st_bind_modify.
  edestruct cleanup_ok as [s Hc]; [| |rewrite (st_bind_normal _ _ _ _ _ Hc)].
  - apply HF.
  - done.
  - unfold st_ret, tick, add_log. cbn. rewrite orb_false_r. do 2 f_equal; lia.
Qed.

Lemma parallel_benchmark_run par F :
  dial "tcp" "127.0.0.1:6379" = None -> 1 <= N -> 1 <= poolSize ->
  1 <= parallelism par * gomaxprocs par -> (forall k, F k = None) ->
  parallel_benchmark poolSize setup req read cleanup par N (start_world ks0 F) =
    (mkWorld ks_final (d + N + 2) F false N false [("Final value of the counter: " ++ text)%string],
     Normal tt).
Proof. intros. by rewrite parallel_benchmark_run_from. Qed.

End ParallelRun.

(** ** Where the counter of the parallel key benchmarks lives

    They do not delete the key before the run: the counter starts from
    whatever the key holds ([v0], 0 when it is missing). *)

Definition from_place (ks0 : Keyspace) (key : string) (v0 u : Z) : Keyspace :=
  if (u =? v0)%Z then ks0 else <[key := VString (ll2string u)]> ks0.

Lemma from_place_read ks0 key v0 u :
  read_counter key ks0 = inr v0 -> in_int64 u = true -> read_counter key (from_place ks0 key v0 u) = inr u.
Proof.
  intros Hr Hu. unfold from_place. destruct (Z.eqb_spec u v0) as [->|]; [done|].
  by apply read_counter_string.
Qed.

Lemma from_place_incr_decr ks0 key v0 u :
  read_counter key ks0 = inr v0 -> (v0 <= u)%Z -> in_int64 (u + 1) = true ->
  incr_decr key 1 (from_place ks0 key v0 u) = (from_place ks0 key v0 (u + 1), RInt (u + 1)).
Proof.
  intros Hr Hu Hr1. pose proof (read_counter_range _ _ _ Hr) as Hv0.
  assert (Hiu : in_int64 u = true) by (int64_bounds; lia).
  rewrite (proj1 (incr_decr_adds key 1 _ u (from_place_read _ _ _ _ Hr Hiu) eq_refl Hr1)).
  unfold from_place at 2. destruct (Z.eqb_spec (u + 1) v0); [lia|].
  unfold from_place. destruct (u =? v0)%Z; [done|]. by rewrite insert_insert_eq.
Qed.

Lemma from_place_delete ks0 key v0 u : delete key (from_place ks0 key v0 u) = delete key ks0.
Proof. unfold from_place. destruct (u =? v0)%Z; [done|]. apply delete_insert_eq. Qed.

Section KeyParallel.
Variables (ks0 : Keyspace) (key : string) (v0 : Z) (N : nat).

Lemma key_setup_ok w :
  (forall k, w_faults w k = None) -> w_ks w = ks0 ->
  (st_ret tt : Go unit) w = (mkWorld (from_place ks0 key v0 v0) (w_ops w + 0) (w_faults w) (w_timer_on w)
                   (if w_timer_on w then w_timed w + 0 else w_timed w) (w_failed w) (w_log w), Normal tt).
Proof.
  intros _ Hks. unfold from_place. rewrite Z.eqb_refl, <- Hks, !Nat.add_0_r.
  destruct w as [? ? ? [] ? ? ?]; done.
Qed.

Lemma key_read_ok conn w :
  1 <= N -> w_faults w (w_ops w) = None -> w_ks w = from_place ks0 key v0 (v0 + Z.of_nat N)%Z ->
  GetKey conn key w = (tick (w_ks w) w, Normal (ll2string (v0 + Z.of_nat N))).
Proof.
  intros HN Hf Hks. apply GetKey_string; [done|]. rewrite Hks. unfold from_place.
  destruct (Z.eqb_spec (v0 + Z.of_nat N) v0); [lia|]. by rewrite lookup_insert_eq.
Qed.

Lemma key_cleanup_ok conn w :
  w_faults w (w_ops w) = None -> w_ks w = from_place ks0 key v0 (v0 + Z.of_nat N)%Z ->
  exists s, RemoveKey conn key w = (tick (delete key ks0) w, Normal s).
Proof. intros Hf Hks. rewrite RemoveKey_ok by done. rewrite Hks, from_place_delete. by eexists. Qed.

End KeyParallel.

Lemma hash_setup_ok ks0 conn w :
  (forall s, ks0 !! hashID <> Some (VString s)) ->
  (forall k, w_faults w k = None) -> w_ks w = ks0 ->
  (_ <- RemoveHKey conn hashID keyInHash ;; st_ret tt) w =
    (mkWorld (hash_place (hdel hashID [keyInHash] ks0).1 hashID keyInHash 0%Z) (w_ops w + 1)
       (w_faults w) (w_timer_on w) (if w_timer_on w then w_timed w + 1 else w_timed w)
       (w_failed w) (w_log w), Normal tt).
Proof.
  intros Hns Hf Hks. destruct (hash_cleanup_first ks0 Hns conn w (Hf _) Hks) as [s Hs].
  rewrite (st_bind_normal _ _ _ _ _ Hs). unfold st_ret, tick.
  rewrite Nat.add_1_r. destruct (w_timer_on w); do 2 f_equal; lia.
Qed.

(** A fault-free run of [BenchmarkINCRKeyInParallelSystem] from any
    world whose timer runs and where the key is missing. *)
Lemma parallel_INCR_run_from par rnd N w :
  dial "tcp" "127.0.0.1:6379" = None -> 1 <= N -> 1 <= parallelism par * gomaxprocs par ->
  (forall k, w_faults w k = None) -> w_ks w !! benchmark_key rnd = None -> w_timer_on w = true ->
  (Z.of_nat N <= LLONG_MAX)%Z ->
  BenchmarkINCRKeyInParallelSystem par rnd N w =
    (mkWorld (delete (benchmark_key rnd) (w_ks w)) (w_ops w + N + 2) (w_faults w) false N (w_failed w)
       (w_log w ++ [("Final value of the counter: " ++ ll2string (Z.of_nat N))%string]), Normal tt).
Proof.
  intros Hd HN HW HF Hk Ht HM.
  assert (Hr : read_counter (benchmark_key rnd) (w_ks w) = inr 0%Z) by (unfold read_counter; by rewrite Hk).
  unfold BenchmarkINCRKeyInParallelSystem.
  rewrite (parallel_benchmark_run_from 1 _ _ _ _ (w_ks w) (delete (benchmark_key rnd) (w_ks w))
           (from_place (w_ks w) (benchmark_key rnd) 0) 0 0 N (ll2string (0 + Z.of_nat N)));
    [by rewrite Nat.add_0_r, Z.add_0_l|intros; by apply key_setup_ok|
     intros conn w' Hf Hks; by apply (key_read_ok (w_ks w) _ 0 N)|
     intros conn w' Hf Hks; by apply (key_cleanup_ok (w_ks w) _ 0 N)| |done..].
  intros u Hu. apply from_place_incr_decr; [done|lia|int64_bounds; lia].
Qed.

(** [C2] (functional, finding): a fault-free run of
    [BenchmarkINCRKeyInParallelSystem], whatever the interleaving of its
    workers, ends normally with exactly [b.N] increments measured, the
    key removed and the counter logged as [v0 + b.N], where [v0] is the
    counter the key held before the run (0 when missing): the benchmark
    does not delete the key before the run, so a key left behind by an
    earlier run is counted on. *)
Theorem parallel_INCR_run par rnd N ks0 F v0 :
  dial "tcp" "127.0.0.1:6379" = None -> 1 <= N -> 1 <= parallelism par * gomaxprocs par ->
  (forall k, F k = None) -> read_counter (benchmark_key rnd) ks0 = inr v0 ->
  (v0 + Z.of_nat N <= LLONG_MAX)%Z ->
  BenchmarkINCRKeyInParallelSystem par rnd N (start_world ks0 F) =
    (mkWorld (delete (benchmark_key rnd) ks0) (N + 2) F false N false
       [("Final value of the counter: " ++ ll2string (v0 + Z.of_nat N))%string], Normal tt).
Proof.
  intros Hd HN HW HF Hr HM. pose proof (read_counter_range _ _ _ Hr) as Hv0.
  apply (parallel_benchmark_run 1 _ _ _ _ ks0 _ (from_place ks0 (benchmark_key rnd) v0) v0 0 N);
    [intros; by apply key_setup_ok|intros conn w Hf Hks; by apply (key_read_ok ks0 _ v0 N)
    |intros conn w Hf Hks; by apply (key_cleanup_ok ks0 _ v0 N)| |done..].
  intros u Hu. apply from_place_incr_decr; [done|lia|int64_bounds; lia].
Qed.

(** [C22] (functional): the same for [BenchmarkINCRBYKeyInParallelSystem],
    whose body sends [INCRBY key "1"]. *)
Theorem parallel_INCRBY_run par rnd N ks0 F v0 :
  dial "tcp" "127.0.0.1:6379" = None -> 1 <= N -> 1 <= parallelism par * gomaxprocs par ->
  (forall k, F k = None) -> read_counter (benchmark_key rnd) ks0 = inr v0 ->
  (v0 + Z.of_nat N <= LLONG_MAX)%Z ->
  BenchmarkINCRBYKeyInParallelSystem par rnd N (start_world ks0 F) =
    (mkWorld (delete (benchmark_key rnd) ks0) (N + 2) F false N false
       [("Final value of the counter: " ++ ll2string (v0 + Z.of_nat N))%string], Normal tt).
Proof.
  intros Hd HN HW HF Hr HM. pose proof (read_counter_range _ _ _ Hr) as Hv0.
  apply (parallel_benchmark_run 1 _ _ _ _ ks0 _ (from_place ks0 (benchmark_key rnd) v0) v0 0 N);
    [intros; by apply key_setup_ok|intros conn w Hf Hks; by apply (key_read_ok ks0 _ v0 N)
    |intros conn w Hf Hks; by apply (key_cleanup_ok ks0 _ v0 N)| |done..].
  intros u Hu. apply from_place_incr_decr; [done|lia|int64_bounds; lia].
Qed.

(** [C24] (functional): a fault-free run of
    [BenchmarkINCRHashInParallelSystem] on a keyspace where the hash key
    holds no string, whatever the interleaving, ends normally with the
    field's counter logged as [b.N], [b.N] increments measured, and the
    keyspace left as after the first [RemoveHKey]. *)
Theorem parallel_Hash_run par N ks0 F :
  dial "tcp" "127.0.0.1:6379" = None -> 1 <= N -> 1 <= parallelism par * gomaxprocs par ->
  (forall k, F k = None) -> (forall s, ks0 !! hashID <> Some (VString s)) ->
  (Z.of_nat N <= LLONG_MAX)%Z ->
  BenchmarkINCRHashInParallelSystem par N (start_world ks0 F) =
    (mkWorld (hdel hashID [keyInHash] ks0).1 (N + 3) F false N false
       [("Final value of the counter: " ++ ll2string (Z.of_nat N))%string], Normal tt).
Proof.
  intros Hd HN HW HF Hns HM. pose proof (hash_clean_first hashID keyInHash ks0 Hns) as Hc.
  etransitivity.
  - apply (parallel_benchmark_run 10 _ _ _ _ ks0 (hdel hashID [keyInHash] ks0).1
             (hash_place (hdel hashID [keyInHash] ks0).1 hashID keyInHash) 0 1 N
             (ll2string (Z.of_nat N)));
      [intros conn w Hf Hks; exact (hash_setup_ok ks0 conn w Hns Hf Hks)| | |intros u Hu; apply hash_place_exec; [done|lia|int64_bounds; lia]
      |first [done|lia]..].
    + intros conn w Hf Hks. rewrite (hash_read ks0 Hns conn w _ Hf Hks), Hks, Z.add_0_l.
      destruct (Z.eqb_spec (Z.of_nat N) 0); [lia|done].
    + intros conn w Hf Hks. apply (hash_cleanup_last ks0 Hns conn w _ Hf Hks). lia.
  - do 2 f_equal. lia.
Qed.

(** [C4] (error): whatever the transport faults and the interleaving,
    a run of [BenchmarkINCRKeyInParallelSystem] never ends by
    [runtime.Goexit] on the benchmark goroutine: a failed [conn.Do] in a
    worker ends only that worker ([b.Fatalf] there exits the worker's
    goroutine), the others go on, and the benchmark still reads and
    removes the key; the only abrupt end is a panic of [GetKey] or
    [RemoveKey], and when it ends normally the key is gone and nothing
    else of the keyspace changed. *)
Theorem parallel_INCR_faults par rnd N ks0 F w' o :
  dial "tcp" "127.0.0.1:6379" = None -> 1 <= parallelism par * gomaxprocs par ->
  BenchmarkINCRKeyInParallelSystem par rnd N (start_world ks0 F) = (w', o) ->
  o <> Abrupt Goexit /\ (o = Normal tt -> w_ks w' = delete (benchmark_key rnd) ks0).
Proof.
  intros Hd HW. set (key := benchmark_key rnd).
  unfold BenchmarkINCRKeyInParallelSystem, parallel_benchmark.
  rewrite (st_bind_normal _ _ _ _ _ (connect_ok 1 _ Hd)), st_bind_ret.
  unfold ResetTimer at 1. rewrite st_bind_modify.
  destruct (RunParallel_returns par N 1 (Cmd "INCR" [key])
              (set_timer true 0 (start_world ks0 F)) key) as (w1 & Hrun & Hks1);
    [done|done|intros; apply incr_decr_frame|].
  rewrite (st_bind_normal _ _ _ _ _ Hrun). unfold StopTimer at 1. rewrite st_bind_modify.
  unfold st_bind at 1.
  match goal with |- context [GetKey ?c ?k ?w] => destruct (GetKey c k w) as [w2 o2] eqn:E2 end.
  destruct (GetKey_outcome _ _ _ _ _ E2) as [[[m ->]|[v ->]] Hks2]; [intros [= <- <-]; split; congruence|].
  unfold Logf at 1. rewrite st_bind_modify. unfold st_bind at 1.
  match goal with |- context [RemoveKey ?c ?k ?w] => destruct (RemoveKey c k w) as [w3 o3] eqn:E3 end.
  destruct (RemoveKey_outcome _ _ _ _ _ E3) as [[m ->]|(s & -> & Hks3)]; [intros [= <- <-]; split; congruence|].
  intros [= <- <-]. split; [done|intros _].
  rewrite Hks3. simpl. rewrite Hks2. simpl in *. change (benchmark_key rnd) with key. by rewrite Hks1.
Qed.

(** [C7] (error): when the key of [BenchmarkINCRKeyInParallelSystem]
    already holds a string that is not an integer (the benchmark does not
    reset it), the server refuses every [INCR]: under every interleaving,
    between one and [min b.N numProcs] workers each log the error and
    exit, nothing is incremented, the benchmark is marked failed, and it
    still logs the old string and removes the key. *)
Theorem parallel_INCR_not_integer par rnd N ks0 F s :
  dial "tcp" "127.0.0.1:6379" = None -> 1 <= N -> 1 <= parallelism par * gomaxprocs par ->
  (forall k, F k = None) -> ks0 !! benchmark_key rnd = Some (VString s) -> string2ll s = None ->
  exists k, 1 <= k <= N /\ k <= parallelism par * gomaxprocs par /\
    BenchmarkINCRKeyInParallelSystem par rnd N (start_world ks0 F) =
      (mkWorld (delete (benchmark_key rnd) ks0) (k + 2) F false k true
         (repeat ("Failed to execute the query. more info: " ++ ERR_NOT_INT)%string k ++
          [("Final value of the counter: " ++ s)%string]), Normal tt).
Proof.
  intros Hd HN HW HF Hks Hs. set (key := benchmark_key rnd) in *.
  unfold BenchmarkINCRKeyInParallelSystem, parallel_benchmark.
  rewrite (st_bind_normal _ _ _ _ _ (connect_ok 1 _ Hd)), st_bind_ret.
  unfold ResetTimer at 1. rewrite st_bind_modify.
  destruct (RunParallel_fails par N 1 (Cmd "INCR" [key]) (set_timer true 0 (start_world ks0 F)) ERR_NOT_INT)
    as (k & Hk & HkW & Hrun); [done|done|done|done|done| |].
  { change (exec _ _) with (incr_decr key 1 ks0). unfold incr_decr, read_counter. by rewrite Hks, Hs. }
  exists k. split; [done|split; [done|]].
  rewrite (st_bind_normal _ _ _ _ _ Hrun). unfold StopTimer at 1. rewrite st_bind_modify.
  erewrite st_bind_normal by (apply GetKey_string; [apply HF|exact Hks]).
  unfold Logf at 1. rewrite st_bind_modify.
  erewrite st_bind_normal by (apply RemoveKey_ok; apply HF). simpl.
  unfold st_ret, tick, add_log. simpl. do 2 f_equal; lia.
Qed.

(** [C6] (safety, finding): the benchmarks interfere across runs. A
    serialized INCR run whose [j]-th increment meets a transport fault
    leaves its key behind; a later parallel INCR run, fault-free, whose
    draw of [rand.Int31()] also lies above [0x10FFFF] uses the same key,
    does not reset it, and logs [j + b.N] (one more if the failed request
    was applied) instead of [b.N]. *)
Theorem leaked_key_counted_on r1 r2 N1 N2 j f ks0 F1 F2 par :
  dial "tcp" "127.0.0.1:6379" = None ->
  (maxRune < r1 < 2 ^ 31)%Z -> (maxRune < r2 < 2 ^ 31)%Z ->
  (forall k, k <= j -> F1 k = None) -> F1 (S j) = Some f -> j < N1 ->
  1 <= N2 -> 1 <= parallelism par * gomaxprocs par -> (forall k, F2 k = None) ->
  (Z.of_nat N1 + Z.of_nat N2 <= LLONG_MAX)%Z ->
  BenchmarkINCRKeyInParallelSystem par r2 N2
    (start_world (w_ks (BenchmarkINCRKeyInSerializedSystem r1 N1 (start_world ks0 F1)).1) F2) =
  (mkWorld (delete (benchmark_key r2) ks0) (N2 + 2) F2 false N2 false
     [("Final value of the counter: " ++ ll2string (Z.of_nat j + applied f + Z.of_nat N2))%string],
   Normal tt).
Proof.
  intros Hd H1 H2 HF1 Hj HjN HN2 HW HF2 HM.
  assert (Hkey : benchmark_key r2 = benchmark_key r1)
    by (rewrite !benchmark_key_replacement; done).
  assert (Hv : (0 <= Z.of_nat j + applied f <= Z.of_nat j + 1)%Z) by (destruct f; simpl; lia).
  assert (Hser : BenchmarkINCRKeyInSerializedSystem r1 N1 (start_world ks0 F1) =
    (mkWorld (incr_place ks0 (benchmark_key r1) (Z.of_nat j + applied f)) (j + 2) F1 true (S j) true
       [("Failed to execute the query. more info: " ++ fault_msg f)%string], Abrupt Goexit)).
  { apply serial_benchmark_abort with (j := j) (place := incr_place ks0 (benchmark_key r1));
      [apply key_cleanup_first|apply incr_place_exec|done|done|lia|lia|].
    apply INCR_fault_trip; [exact Hj|lia]. }
  rewrite Hser. cbn [fst w_ks]. unfold BenchmarkINCRKeyInParallelSystem. cbv zeta.
  rewrite Hkey, <- (incr_place_delete ks0 _ (Z.of_nat j + applied f)).
  set (ks1 := incr_place ks0 (benchmark_key r1) (Z.of_nat j + applied f)).
  assert (Hr : read_counter (benchmark_key r1) ks1 = inr (Z.of_nat j + applied f)%Z)
    by (apply incr_place_read; [lia|int64_bounds; lia]).
  apply (parallel_benchmark_run 1 _ _ _ _ ks1 _ (from_place ks1 (benchmark_key r1) (Z.of_nat j + applied f))
           (Z.of_nat j + applied f) 0 N2);
    [intros; by apply key_setup_ok|intros conn w Hf Hks; by apply (key_read_ok ks1 _ _ N2)
    |intros conn w Hf Hks; by apply (key_cleanup_ok ks1 _ (Z.of_nat j + applied f) N2)| |done..].
  intros u Hu. apply from_place_incr_decr; [done|lia|int64_bounds; lia].
Qed.

(** [C17] (equivalence): [BenchmarkINCRBYKeyInParallelSystem] is
    equivalent to [BenchmarkINCRKeyInParallelSystem]: for every world
    (any keyspace, any transport faults), every [b.N] and every
    interleaving of the workers, the two runs end in the same world with
    the same outcome, since [INCRBY key "1"] has the effect of [INCR key]
    on every keyspace. *)
Theorem parallel_INCRBY_equiv_INCR par rnd N :
  BenchmarkINCRBYKeyInParallelSystem par rnd N ≡ BenchmarkINCRKeyInParallelSystem par rnd N.
Proof.
  apply parallel_benchmark_same_effect, INCRBY_one_same_effect.
Qed.

(** [C27] (error): when the key [manjinder] holds a string,
    [BenchmarkINCRHashInParallelSystem] panics in its first
    [RemoveHKey], before [b.ResetTimer] and before any worker starts,
    with the message of [GetHKey]; the keyspace is left as it was. *)
Theorem parallel_Hash_wrongtype_panics par N ks0 F s :
  dial "tcp" "127.0.0.1:6379" = None -> F 0 = None -> ks0 !! hashID = Some (VString s) ->
  BenchmarkINCRHashInParallelSystem par N (start_world ks0 F) =
    (tick ks0 (start_world ks0 F),
     Abrupt (Panic "Could not fetch the value for hash: manjinder and key: complaints from redis")).
Proof.
  intros Hd HF Hs. unfold BenchmarkINCRHashInParallelSystem, parallel_benchmark.
  rewrite (st_bind_normal _ _ _ _ _ (connect_ok 10 _ Hd)).
  unfold st_bind at 1 2. by rewrite (RemoveHKey_string _ _ _ (start_world ks0 F) s HF Hs).
Qed.

End Benchmarks.

(** ** [RunParallel] against the serialized loop *)

(** [C20] (refinement): without faults, the parallel form of a benchmark
    refines its serialized form: for every interleaving, [b.RunParallel]
    with the body [for pb.Next() { conn.Do(cmd args) }] has exactly the
    effect of the timed loop [for i := 0; i < b.N; i++ { conn.Do(cmd
    args) }] of the serialized benchmarks, on the keyspace, the round
    trips, the measured work, the failure flag and the log. *)
Theorem RunParallel_refines_serial_loop par N P conn cmd args w (place : Z -> Keyspace) v0 :
  1 <= N -> 1 <= P -> 1 <= parallelism par * gomaxprocs par ->
  (forall k, w_faults w k = None) -> w_ks w = place v0 -> w_timer_on w = true ->
  (forall u, (v0 <= u < v0 + Z.of_nat N)%Z ->
     exec (cmd :: args) (place u) = (place (u + 1)%Z, RInt (u + 1))) ->
  RunParallel par N P (Cmd cmd args) w = go_for N (fun _ => step_on conn cmd args) w.
Proof.
  intros HN HP HW Hf Hks Ht Hexec.
  rewrite (RunParallel_ok par N P _ w place v0), (counter_loop conn cmd args place N v0 w); auto.
  by rewrite Ht.
Qed.

(** ** Witnesses, on the network [local_network] *)

Lemma parallel_INCR_run_witness :
  read_counter (benchmark_key 7) {[benchmark_key 7 := VString "5"]} = inr 5%Z /\
  BenchmarkINCRKeyInParallelSystem (mkPar 1 2 0 0 [0; 1; 1]) 7 3
    (start_world {[benchmark_key 7 := VString "5"]} (fun _ => None)) =
    (mkWorld (delete (benchmark_key 7) {[benchmark_key 7 := VString "5"]}) 5 (fun _ => None) false 3 false
       ["Final value of the counter: 8"%string], Normal tt).
Proof.
  split; [reflexivity|].
  etransitivity; [apply (parallel_INCR_run (mkPar 1 2 0 0 [0; 1; 1]) 7 3 _ (fun _ => None) 5)|reflexivity];
    [reflexivity|lia|simpl; lia|intros; reflexivity|reflexivity|unfold LLONG_MAX; lia].
Defined.

Lemma parallel_INCRBY_run_witness :
  read_counter (benchmark_key 7) ∅ = inr 0%Z /\
  BenchmarkINCRBYKeyInParallelSystem (mkPar 1 4 0 0 [3; 2; 1; 0]) 7 2 (start_world ∅ (fun _ => None)) =
    (mkWorld (delete (benchmark_key 7) ∅) 4 (fun _ => None) false 2 false
       ["Final value of the counter: 2"%string], Normal tt).
Proof.
  split; [reflexivity|].
  etransitivity; [apply (parallel_INCRBY_run (mkPar 1 4 0 0 [3; 2; 1; 0]) 7 2 _ (fun _ => None) 0)|reflexivity];
    [reflexivity|lia|simpl; lia|intros; reflexivity|reflexivity|unfold LLONG_MAX; lia].
Defined.

Lemma parallel_Hash_run_witness :
  (forall s, (∅ : Keyspace) !! hashID <> Some (VString s)) /\
  BenchmarkINCRHashInParallelSystem (mkPar 1 2 100 1000000 []) 3 (start_world ∅ (fun _ => None)) =
    (mkWorld (hdel hashID [keyInHash] ∅).1 6 (fun _ => None) false 3 false
       ["Final value of the counter: 3"%string], Normal tt).
Proof.
  assert (Hns : forall s, (∅ : Keyspace) !! hashID <> Some (VString s))
    by (intros s; rewrite lookup_empty; discriminate).
  split; [done|].
  etransitivity; [apply (parallel_Hash_run (mkPar 1 2 100 1000000 []) 3 ∅ (fun _ => None))|reflexivity];
    [reflexivity|lia|simpl; lia|intros; reflexivity|done|unfold LLONG_MAX; lia].
Defined.

Lemma parallel_INCR_faults_witness :
  BenchmarkINCRKeyInParallelSystem (mkPar 1 2 0 0 [0; 1; 0; 1; 0; 1]) 7 4
    (start_world ∅ (fun k => if Nat.eqb k 1 then Some (FaultBeforeSend "EOF") else None)) =
    (mkWorld ∅ 6 (fun k => if Nat.eqb k 1 then Some (FaultBeforeSend "EOF") else None) false 4 true
       ["Failed to execute the query. more info: EOF"; "Final value of the counter: 3"]%string, Normal tt) /\
  ((Normal tt : outcome Exit unit) <> Abrupt Goexit /\
   ((Normal tt : outcome Exit unit) = Normal tt -> (∅ : Keyspace) = delete (benchmark_key 7) ∅)).
Proof.
  assert (Hrun : BenchmarkINCRKeyInParallelSystem (mkPar 1 2 0 0 [0; 1; 0; 1; 0; 1]) 7 4
    (start_world ∅ (fun k => if Nat.eqb k 1 then Some (FaultBeforeSend "EOF") else None)) =
    (mkWorld ∅ 6 (fun k => if Nat.eqb k 1 then Some (FaultBeforeSend "EOF") else None) false 4 true
       ["Failed to execute the query. more info: EOF"; "Final value of the counter: 3"]%string, Normal tt))
    by (vm_compute; reflexivity).
  split; [exact Hrun|].
  exact (parallel_INCR_faults (mkPar 1 2 0 0 [0; 1; 0; 1; 0; 1]) 7 4 ∅ _ _ _ eq_refl ltac:(simpl; lia) Hrun).
Defined.

Lemma leaked_key_counted_on_witness :
  (maxRune < 1114112 < 2 ^ 31)%Z /\ (maxRune < 2147483647 < 2 ^ 31)%Z /\
  (fun k => if Nat.eqb k 3 then Some (FaultBeforeSend "EOF") else None) 3 = Some (FaultBeforeSend "EOF") /\
  BenchmarkINCRKeyInParallelSystem (mkPar 1 2 0 0 [0; 1]) 2147483647 4
    (start_world (w_ks (BenchmarkINCRKeyInSerializedSystem 1114112 5
       (start_world ∅ (fun k => if Nat.eqb k 3 then Some (FaultBeforeSend "EOF") else None))).1)
       (fun _ => None)) =
  (mkWorld (delete (benchmark_key 2147483647) ∅) 6 (fun _ => None) false 4 false
     ["Final value of the counter: 6"%string], Normal tt).
Proof.
  unfold maxRune. split; [lia|]. split; [lia|]. split; [reflexivity|].
  etransitivity; [apply (leaked_key_counted_on 1114112 2147483647 5 4 2 (FaultBeforeSend "EOF"))|reflexivity];
    unfold maxRune; [reflexivity|lia|lia|intros k Hk; destruct k as [|[|[|]]]; [reflexivity..|lia]
    |reflexivity|lia|lia|simpl; lia|intros; reflexivity|unfold LLONG_MAX; lia].
Defined.

Lemma parallel_INCR_not_integer_witness :
  ({[benchmark_key 7 := VString "abc"]} : Keyspace) !! benchmark_key 7 = Some (VString "abc") /\
  string2ll "abc" = None /\
  exists k, 1 <= k <= 3 /\ k <= 1 * 2 /\
    BenchmarkINCRKeyInParallelSystem (mkPar 1 2 0 0 [0; 1; 0; 1]) 7 3
      (start_world {[benchmark_key 7 := VString "abc"]} (fun _ => None)) =
      (mkWorld (delete (benchmark_key 7) {[benchmark_key 7 := VString "abc"]}) (k + 2) (fun _ => None) false k true
         (repeat ("Failed to execute the query. more info: " ++ ERR_NOT_INT)%string k ++
          [("Final value of the counter: " ++ "abc")%string]), Normal tt).
Proof.
  split; [apply lookup_insert_eq|]. split; [reflexivity|].
  apply (parallel_INCR_not_integer (mkPar 1 2 0 0 [0; 1; 0; 1]) 7 3 _ (fun _ => None) "abc");
    [reflexivity|lia|simpl; lia|intros; reflexivity|apply lookup_insert_eq|reflexivity].
Defined.

Lemma RunParallel_refines_serial_loop_witness :
  (forall u, (0 <= u < 0 + Z.of_nat 3)%Z ->
     exec ("INCR" :: ["k"])%string (incr_place ∅ "k" u) = (incr_place ∅ "k" (u + 1)%Z, RInt (u + 1))) /\
  RunParallel (mkPar 1 2 0 0 [1; 1; 0]) 3 1 (Cmd "INCR" ["k"%string]) (start_world (incr_place ∅ "k" 0) (fun _ => None)) =
    go_for 3 (fun _ => step_on (mkPool "tcp" "127.0.0.1:6379" 1) "INCR" ["k"%string])
      (start_world (incr_place ∅ "k" 0) (fun _ => None)).
Proof.
  assert (Hex : forall u, (0 <= u < 0 + Z.of_nat 3)%Z ->
     exec ("INCR" :: ["k"])%string (incr_place ∅ "k" u) = (incr_place ∅ "k" (u + 1)%Z, RInt (u + 1)))
    by (intros u Hu; apply incr_place_exec; [lia|int64_bounds; lia]).
  split; [exact Hex|].
  apply (RunParallel_refines_serial_loop _ 3 1 _ "INCR" ["k"%string] _ (incr_place ∅ "k") 0);
    [lia|lia|simpl; lia|intros; reflexivity|reflexivity|reflexivity|exact Hex].
Defined.

Lemma parallel_Hash_wrongtype_panics_witness :
  ({[hashID := VString "x"]} : Keyspace) !! hashID = Some (VString "x") /\
  BenchmarkINCRHashInParallelSystem (mkPar 1 2 0 0 [0; 1]) 4 (start_world {[hashID := VString "x"]} (fun _ => None)) =
    (tick {[hashID := VString "x"]} (start_world {[hashID := VString "x"]} (fun _ => None)),
     Abrupt (Panic "Could not fetch the value for hash: manjinder and key: complaints from redis")).
Proof.
  split; [reflexivity|].
  by apply (parallel_Hash_wrongtype_panics (mkPar 1 2 0 0 [0; 1]) 4 {[hashID := VString "x"]} (fun _ => None) "x").
Defined.

End Parallel.
