(* ===== verification/Runs.v ===== *)
(** * Benchmark runs on one Redis server

    The six benchmarks of [src/main_test.go] share one server: every run,
    whatever its faults, draws and interleavings, leaves its keyspace to
    the next. This file states what a run may change, from what each
    request may change: a request [writes_only k] when it changes no key
    but [k], and [no_new_string] when it never stores a string. The key
    benchmarks write only their counter key, the hash benchmarks only
    the key [manjinder] ([hashID]), and never as a string.

    The runs on one server are the step relation [bench_run], one
    constructor per benchmark; [server_inv] (no empty hash, no string at
    [hashID]) holds in every keyspace reachable from one where it holds,
    so the WRONGTYPE panics of the hash benchmarks can only come from
    another client of the server. *)

From S2P Require Import Prelude Decimal Redis Radix Utf8 GoTesting KeyHelpers Serial Workers Parallel.
Import Decimal Redis Radix Utf8 GoTesting KeyHelpers Serial Workers Parallel.

Module Runs.

(** ** What a request may change *)

Definition writes_only (k : string) (req : list string) : Prop :=
  forall ks, delete k (exec req ks).1 = delete k ks.

Definition no_new_string (req : list string) : Prop :=
  forall ks k s, (exec req ks).1 !! k = Some (VString s) -> ks !! k = Some (VString s).

(** The key of the hash benchmarks holds no string. *)
Definition hash_free (ks : Keyspace) : Prop := forall s, ks !! hashID <> Some (VString s).

(** The invariant of the server across runs. *)
Definition server_inv (ks : Keyspace) : Prop := keyspace_wf ks /\ hash_free ks.

Create HintDb runs.

Lemma writes_only_INCR k : writes_only k ["INCR"; k]%string.
Proof. intros ks. apply incr_decr_frame. Qed.

Lemma writes_only_INCRBY k : writes_only k ["INCRBY"; k; incrementBy]%string.
Proof. intros ks. unfold incrementBy. rewrite (INCRBY_one_same_effect k ks). apply writes_only_INCR. Qed.

Lemma writes_only_DEL k : writes_only k ["DEL"; k]%string.
Proof. intros ks. rewrite (proj1 (del_single_idempotent k ks)). apply delete_delete_eq. Qed.

Lemma writes_only_GET k k' : writes_only k ["GET"; k']%string.
Proof. intros ks. by apply (kept_GET (fun x => delete k x = delete k ks)). Qed.

Lemma writes_only_HGET k h f : writes_only k ["HGET"; h; f]%string.
Proof. intros ks. by apply (kept_HGET (fun x => delete k x = delete k ks)). Qed.

Lemma writes_only_HDEL k f : writes_only k ["HDEL"; k; f]%string.
Proof.
  intros ks. cbn. unfold hdel. destruct (ks !! k) as [[|h]|]; [done| |done]. cbn.
  case_decide; [apply delete_delete_eq|apply delete_insert_eq].
Qed.

Lemma writes_only_HINCRBY k f i : writes_only k ["HINCRBY"; k; f; i]%string.
Proof.
  intros ks. cbn. unfold hincrby.
  repeat case_match; simpl; try done. apply delete_insert_eq.
Qed.

Lemma no_new_string_DEL k : no_new_string ["DEL"; k]%string.
Proof.
  intros ks k' s. rewrite (proj1 (del_single_idempotent k ks)). simpl.
  destruct (decide (k = k')) as [<-|Hne]; [by rewrite lookup_delete_eq|by rewrite lookup_delete_ne].
Qed.

Lemma no_new_string_HDEL k f : no_new_string ["HDEL"; k; f]%string.
Proof.
  intros ks k' s. cbn. unfold hdel. destruct (ks !! k) as [[|h]|] eqn:Hk; cbn; [done| |done].
  destruct (decide (k = k')) as [<-|Hne]; case_decide;
    rewrite ?lookup_delete_eq, ?lookup_insert_eq, ?lookup_delete_ne, ?lookup_insert_ne by done; done.
Qed.

Lemma no_new_string_HINCRBY k f i : no_new_string ["HINCRBY"; k; f; i]%string.
Proof.
  intros ks k' s. cbn. unfold hincrby. repeat case_match; simpl; try done.
  destruct (decide (k = k')) as [<-|Hne]; [by rewrite lookup_insert_eq|by rewrite lookup_insert_ne].
Qed.

Lemma benchmark_key_ne_hashID rnd : benchmark_key rnd <> hashID.
Proof.
  unfold benchmark_key, hashID. intros E. apply (f_equal String.length) in E.
  rewrite !string_length_app in E. simpl in E. lia.
Qed.

(** From what a request changes to what it keeps. *)
Lemma kept_frame k D req : writes_only k req -> kept (fun ks => delete k ks = D) req.
Proof. intros Hw ks <-. apply Hw. Qed.

Lemma kept_hash_free_other k req : writes_only k req -> k <> hashID -> kept hash_free req.
Proof.
  intros Hw Hk ks H s E. apply (H s).
  rewrite <- (lookup_delete_ne ks k hashID) by done. rewrite <- Hw, lookup_delete_ne by done. exact E.
Qed.

Lemma kept_hash_free_no_new req : no_new_string req -> kept hash_free req.
Proof. intros Hn ks H s E. exact (H s (Hn _ _ _ E)). Qed.

Lemma kept_server_inv req : kept hash_free req -> kept server_inv req.
Proof. intros Hh ks [Hwf Hf]. split; [by apply kept_wf|by apply Hh]. Qed.

#[export] Hint Resolve writes_only_INCR writes_only_INCRBY writes_only_DEL writes_only_GET writes_only_HGET
  writes_only_HDEL writes_only_HINCRBY no_new_string_DEL no_new_string_HDEL no_new_string_HINCRBY
  benchmark_key_ne_hashID kept_frame kept_hash_free_no_new kept_server_inv : keeps.
#[export] Hint Extern 2 (kept hash_free (_ :: ?k :: _)) => apply (kept_hash_free_other k) : keeps.

(** A run that keeps every frame of [k] changes no key but [k]. *)
Lemma frame_of_keeps {A} (k : string) (m : Go A) w :
  (forall D, keeps (fun ks => delete k ks = D) m) -> delete k (w_ks (m w).1) = delete k (w_ks w).
Proof. intros Hm. by apply (Hm (delete k (w_ks w))). Qed.

Ltac bench_keeps :=
  unfold BenchmarkINCRKeyInSerializedSystem, BenchmarkINCRBYKeyInSerializedSystem,
    BenchmarkINCRHashInSerializedSystem, BenchmarkINCRKeyInParallelSystem,
    BenchmarkINCRBYKeyInParallelSystem, BenchmarkINCRHashInParallelSystem;
  first [apply keeps_serial_benchmark | apply keeps_parallel_benchmark];
  unfold INCR_step, INCRBY_step, HINCRBY_step, Cmd; keeps_tac.

Section Server.
Context `{Dialer}.

(** ** The runs on one server *)

(** One run of one of the six benchmarks, from any world whose keyspace
    is the server's: any faults, draw, [b.N] and interleaving, ending
    normally or not. *)
Inductive bench_run : Keyspace -> Keyspace -> Prop :=
| run_serial_INCR rnd N w : bench_run (w_ks w) (w_ks (BenchmarkINCRKeyInSerializedSystem rnd N w).1)
| run_serial_INCRBY rnd N w : bench_run (w_ks w) (w_ks (BenchmarkINCRBYKeyInSerializedSystem rnd N w).1)
| run_serial_Hash N w : bench_run (w_ks w) (w_ks (BenchmarkINCRHashInSerializedSystem N w).1)
| run_parallel_INCR par rnd N w : bench_run (w_ks w) (w_ks (BenchmarkINCRKeyInParallelSystem par rnd N w).1)
| run_parallel_INCRBY par rnd N w : bench_run (w_ks w) (w_ks (BenchmarkINCRBYKeyInParallelSystem par rnd N w).1)
| run_parallel_Hash par N w : bench_run (w_ks w) (w_ks (BenchmarkINCRHashInParallelSystem par N w).1).

(** [C14] (safety): whatever the faults, the draw, [b.N] and the
    interleaving, and however the run ends, a run of a key benchmark
    changes no key of the server but its own counter key, and a run of
    a hash benchmark no key but [manjinder]: a leaked or left key is the
    only trace one benchmark can leave for another. *)
Theorem benchmarks_write_only_their_key rnd N par w :
  delete (benchmark_key rnd) (w_ks (BenchmarkINCRKeyInSerializedSystem rnd N w).1) = delete (benchmark_key rnd) (w_ks w) /\
  delete (benchmark_key rnd) (w_ks (BenchmarkINCRBYKeyInSerializedSystem rnd N w).1) = delete (benchmark_key rnd) (w_ks w) /\
  delete hashID (w_ks (BenchmarkINCRHashInSerializedSystem N w).1) = delete hashID (w_ks w) /\
  delete (benchmark_key rnd) (w_ks (BenchmarkINCRKeyInParallelSystem par rnd N w).1) = delete (benchmark_key rnd) (w_ks w) /\
  delete (benchmark_key rnd) (w_ks (BenchmarkINCRBYKeyInParallelSystem par rnd N w).1) = delete (benchmark_key rnd) (w_ks w) /\
  delete hashID (w_ks (BenchmarkINCRHashInParallelSystem par N w).1) = delete hashID (w_ks w).
Proof. split_and!; apply frame_of_keeps; intros D; bench_keeps. Qed.

Lemma bench_run_inv ks ks' : bench_run ks ks' -> server_inv ks -> server_inv ks'.
Proof.
  destruct 1; match goal with |- context [(?m ?w).1] => revert w; enough (keeps server_inv m) by eauto end;
    bench_keeps.
Qed.

Lemma rtc_bench_run_inv ks ks' : rtc bench_run ks ks' -> server_inv ks -> server_inv ks'.
Proof. induction 1 as [|ks1 ks2 ks3 Hr _ IH]; [done|]. intros Hi. apply IH, (bench_run_inv _ _ Hr Hi). Qed.

(** [C13] (invariant): across any sequence of runs of the six benchmarks
    on one server, whatever their faults, draws, [b.N] and interleavings
    and however each ends, a server with no empty hash and no string at
    the key [manjinder] keeps both properties. So, without another client
    writing to the server, the cleanup [RemoveHKey] of the hash
    benchmarks never meets WRONGTYPE: without a transport fault it
    returns normally. *)
Theorem server_invariant_across_runs ks ks' :
  rtc bench_run ks ks' -> keyspace_wf ks -> hash_free ks ->
  keyspace_wf ks' /\ hash_free ks' /\
  (forall conn w, w_ks w = ks' -> w_faults w (w_ops w) = None ->
     exists v, (RemoveHKey conn hashID keyInHash w).2 = Normal v).
Proof.
  intros Hr Hwf Hh. destruct (rtc_bench_run_inv _ _ Hr (conj Hwf Hh)) as [Hwf' Hh'].
  split_and!; [done|done|]. intros conn w <- Hf. unfold RemoveHKey.
  rewrite (st_bind_normal _ _ _ _ _ (do_string_ok _ _ _ _ _ Hf)). cbn. unfold hdel.
  destruct (w_ks w !! hashID) as [[s|h]|] eqn:E; [by destruct (Hh' s)| |eexists; reflexivity].
  destruct (hdel_fields _ h). eexists. reflexivity.
Qed.

End Server.

(** ** Witness, on the network [local_network]: a fresh server, then one
    serialized INCR run. *)
Lemma server_invariant_across_runs_witness :
  let ks' := w_ks (BenchmarkINCRKeyInSerializedSystem 7 3 (start_world ∅ (fun _ => None))).1 in
  rtc bench_run ∅ ks' /\ keyspace_wf ∅ /\ hash_free ∅ /\
  (keyspace_wf ks' /\ hash_free ks' /\
   (forall conn w, w_ks w = ks' -> w_faults w (w_ops w) = None ->
      exists v, (RemoveHKey conn hashID keyInHash w).2 = Normal v)).
Proof.
  cbv zeta.
  assert (Hr : rtc bench_run ∅ (w_ks (BenchmarkINCRKeyInSerializedSystem 7 3 (start_world ∅ (fun _ => None))).1))
    by (apply rtc_once; exact (run_serial_INCR 7 3 (start_world ∅ (fun _ => None)))).
  assert (Hwf : keyspace_wf ∅) by apply map_Forall_empty.
  assert (Hh : hash_free ∅) by (intros s; rewrite lookup_empty; discriminate).
  split; [exact Hr|]. split; [exact Hwf|]. split; [exact Hh|].
  exact (server_invariant_across_runs _ _ Hr Hwf Hh).
Defined.

End Runs.
