(* ===== verification/Launch.v ===== *)
(** * The growth of [b.N]: [runN], [launch] and [roundUp] of [testing]

    A benchmark function is not called once: Go's [testing] package
    (benchmark.go, Go 1.12, the GOPATH toolchain the repository's relative
    import ["./common"] needs) first runs it with [b.N = 1] ([run1]),
    then, in [launch], predicts from the time per iteration how many
    iterations fill the benchmark time, runs the function again with that
    [b.N] rounded up to a number of the form [1eX], [2eX], [3eX] or [5eX]
    ([roundUp]), and repeats until the run fails, the last run took at
    least the benchmark time, or [b.N] reached [1e9]. Every run goes
    through [runN]: set [b.N], reset and start the timer, call the
    function, stop the timer, remember [b.N] and the duration as
    [previousN] and [previousDuration] (which [b.RunParallel] reads for
    its grain).

    The package is not part of the repository: it is modelled from its
    source. Go's [int] is 64 bits wide; the arithmetic of the prediction
    wraps ([wrap64]). Time is the measured work of the world, [w_timed]
    round trips, each costing [tick_ns] nanoseconds.

    The loop of [launch] is a [Fixpoint] with fuel [launch_fuel]. Every
    [b.N] it tries is a round number above the last one, and there are
    35 round numbers between 1 and [1e9]: [rounds_above] counts those
    still ahead and drops at every run, so the fuel is never what stops
    the loop. *)

From S2P Require Import Prelude Decimal Redis Radix GoTesting.
Import Decimal Redis Radix GoTesting.

Module Launch.

(** ** Round numbers *)

(** Go's [int] arithmetic: the result is taken modulo [2^64], signed. *)
Definition wrap64 (z : Z) : Z := ((z + 2 ^ 63) mod 2 ^ 64 - 2 ^ 63)%Z.

(** The first loop of [roundDown10]: [for n >= 10 { n = n / 10; tens++ }].
    An [int] is below [10^19], so 19 trips are enough. *)
Fixpoint count_tens (fuel : nat) (n tens : Z) : Z :=
  match fuel with
  | O => tens
  | S f => if (10 <=? n)%Z then count_tens f (n / 10) (tens + 1) else tens
  end.

(** [roundDown10(n)]: [10^floor(log10 n)], the power computed by the
    second loop [for i := 0; i < tens; i++ { result *= 10 }]. *)
Definition roundDown10 (n : Z) : Z :=
  let tens := count_tens 19 n 0 in
  Nat.iter (Z.to_nat tens) (fun result => (result * 10)%Z) 1%Z.

(** [roundUp(n)]: the least of [1eX], [2eX], [3eX], [5eX], [10eX] that is
    at least [n], where [1eX = roundDown10 n]. *)
Definition roundUp (n : Z) : Z :=
  let base := roundDown10 n in
  if (n <=? base)%Z then base
  else if (n <=? 2 * base)%Z then (2 * base)%Z
  else if (n <=? 3 * base)%Z then (3 * base)%Z
  else if (n <=? 5 * base)%Z then (5 * base)%Z
  else (10 * base)%Z.

(** The round numbers below [1e9]: [1], [2], [3], [5], [10], ..., [5e8]. *)
Definition round_numbers : list Z :=
  flat_map (fun k => List.map (fun c => (c * 10 ^ Z.of_nat k)%Z) [1; 2; 3; 5]%Z) (seq 0 9).

(** How many round numbers below [1e9] lie above [n]. *)
Definition rounds_above (n : Z) : nat := List.length (List.filter (fun r => (n <? r)%Z) round_numbers).

(** ** Lemmas on round numbers *)

Lemma count_tens_spec f n t :
  (1 <= n < 10 ^ (Z.of_nat f + 1))%Z ->
  exists k, count_tens f n t = (t + k)%Z /\ (0 <= k)%Z /\ (10 ^ k <= n < 10 ^ (k + 1))%Z.
Proof.
  revert n t. induction f as [|f IH]; intros n t Hn; simpl.
  - exists 0%Z. simpl in Hn. split_and!; lia.
  - destruct (Z.leb_spec 10 n) as [Hge|Hlt]; [|exists 0%Z; split_and!; simpl; lia].
    rewrite Nat2Z.inj_succ, <- Z.add_1_r, Z.pow_add_r in Hn by lia.
    destruct (IH (n / 10) (t + 1))%Z as (k & Hk & Hk0 & Hb).
    { split; [apply Z.div_le_lower_bound; lia|apply Z.div_lt_upper_bound; lia]. }
    exists (k + 1)%Z. rewrite Hk.
    assert (E1 : (10 ^ (k + 1) = 10 ^ k * 10)%Z) by (rewrite Z.pow_add_r; lia).
    assert (E2 : (10 ^ (k + 1 + 1) = 10 ^ k * 100)%Z) by (rewrite !Z.pow_add_r; lia).
    rewrite E1 in Hb. rewrite E1, E2. pose proof (Z.div_mod n 10). pose proof (Z.mod_pos_bound n 10).
    split_and!; lia.
Qed.

Lemma iter_times10 m : Nat.iter m (fun r => (r * 10)%Z) 1%Z = (10 ^ Z.of_nat m)%Z.
Proof.
  induction m as [|m IH]; [done|].
  rewrite Nat2Z.inj_succ, Z.pow_succ_r by lia. simpl. rewrite IH. lia.
Qed.

Lemma roundDown10_spec n :
  (1 <= n <= LLONG_MAX)%Z ->
  exists k, (0 <= k)%Z /\ roundDown10 n = (10 ^ k)%Z /\ (10 ^ k <= n < 10 ^ (k + 1))%Z.
Proof.
  intros Hn. assert (Hmax : (LLONG_MAX < 10 ^ (Z.of_nat 19 + 1))%Z) by reflexivity.
  destruct (count_tens_spec 19 n 0) as (k & Hk & Hk0 & Hb); [lia|].
  exists k. unfold roundDown10. rewrite Hk, iter_times10, Z2Nat.id by lia.
  split; [lia|split; [reflexivity|exact Hb]].
Qed.

(** [roundUp n] is a round number [c * 10^k] with [10^k <= n], at least
    [n] and at most [2 n]. *)
Lemma roundUp_spec n :
  (1 <= n <= LLONG_MAX)%Z ->
  exists k c, (0 <= k)%Z /\ c ∈ [1; 2; 3; 5; 10]%Z /\ roundUp n = (c * 10 ^ k)%Z /\
    (10 ^ k <= n)%Z /\ (n <= roundUp n <= 2 * n)%Z.
Proof.
  intros Hn. destruct (roundDown10_spec n Hn) as (k & Hk0 & Hb & Hkn).
  unfold roundUp. rewrite Hb. exists k.
  destruct (Z.leb_spec n (10 ^ k)); [exists 1%Z; split_and!; [lia|apply list_elem_of_In; simpl; tauto|lia..]|].
  destruct (Z.leb_spec n (2 * 10 ^ k)); [exists 2%Z; split_and!; [lia|apply list_elem_of_In; simpl; tauto|lia..]|].
  destruct (Z.leb_spec n (3 * 10 ^ k)); [exists 3%Z; split_and!; [lia|apply list_elem_of_In; simpl; tauto|lia..]|].
  destruct (Z.leb_spec n (5 * 10 ^ k)); [exists 5%Z; split_and!; [lia|apply list_elem_of_In; simpl; tauto|lia..]|].
  exists 10%Z. rewrite Z.pow_add_r in Hkn by lia. split_and!; [lia|apply list_elem_of_In; simpl; tauto|lia..].
Qed.

(** Below [1e9], [roundUp] lands on [round_numbers]. *)
Lemma roundUp_round n :
  (1 <= n <= LLONG_MAX)%Z -> (roundUp n < 10 ^ 9)%Z -> In (roundUp n) round_numbers.
Proof.
  intros Hn Hlt. destruct (roundUp_spec n Hn) as (k & c & Hk0 & Hc & Hr & _ & _).
  rewrite Hr in Hlt |- *. unfold round_numbers. apply in_flat_map.
  assert (Hpos : (0 < 10 ^ k)%Z) by (apply Z.pow_pos_nonneg; lia).
  repeat (apply elem_of_cons in Hc as [->|Hc]).
  6: { exfalso. by eapply not_elem_of_nil. }
  5: { exists (Z.to_nat (k + 1)). rewrite in_seq, Z2Nat.id by lia.
       assert (k + 1 < 9)%Z by (apply (Z.pow_lt_mono_r_iff 10); [lia|lia|]; rewrite Z.pow_add_r; lia).
       split; [lia|]. left. rewrite Z.pow_add_r; lia. }
  all: exists (Z.to_nat k); rewrite in_seq, Z2Nat.id by lia.
  all: assert (k < 9)%Z by (apply (Z.pow_lt_mono_r_iff 10); lia).
  all: split; [lia|simpl; tauto].
Qed.

Lemma filter_above_mono (l : list Z) a b :
  (a <= b)%Z -> List.length (List.filter (fun r => (b <? r)%Z) l) <= List.length (List.filter (fun r => (a <? r)%Z) l).
Proof.
  intros Hab. induction l as [|r l IH]; simpl; [lia|].
  destruct (Z.ltb_spec b r), (Z.ltb_spec a r); simpl; lia.
Qed.

(** A round number between [a] and [b] makes fewer of them lie above [b]. *)
Lemma rounds_above_lt a b :
  (a < b)%Z -> In b round_numbers -> rounds_above b < rounds_above a.
Proof.
  unfold rounds_above. generalize round_numbers. intros l Hab Hb.
  induction l as [|r l IH]; [done|]. simpl.
  destruct Hb as [->|Hb].
  - destruct (Z.ltb_spec b b), (Z.ltb_spec a b); [lia|lia| |lia]. simpl.
    pose proof (filter_above_mono l a b). lia.
  - specialize (IH Hb). destruct (Z.ltb_spec b r), (Z.ltb_spec a r); simpl; lia.
Qed.

(** ** [runN], [launch], [run1] *)

(** A benchmark function as the framework calls it: the number of the
    call (which draw of [rand.Int31()] the call gets, and which
    interleaving the scheduler picks for it), [b.N], and
    [b.previousN] and [b.previousDuration] in ns, which only
    [b.RunParallel] reads. *)
Definition BenchFunc : Type := nat -> nat -> Z -> Z -> Go unit.

(** The fields of [b] that [runN] and [launch] set and read besides the
    timer, the failure flag and the log of the world. *)
Record B := mkB {
  b_N : Z;
  b_previousN : Z;
  b_previousDuration : Z;
  b_calls : nat            (** how many times [runN] called the function *)
}.

(** [b.benchTime]: [-benchtime=1s] or [-benchtime=100x]. *)
Inductive BenchTime : Type :=
| ForDuration (d : Z)      (** in ns *)
| ForCount (n : Z).

Definition billion : Z := 1000000000.

Section Runs.
(** The wall-clock cost of one round trip, in ns. *)
Variable tick_ns : Z.

(** [b.duration]: the measured work, in ns. *)
Definition duration (w : World) : Z := (tick_ns * Z.of_nat (w_timed w))%Z.

(** [b.nsPerOp()]. *)
Definition nsPerOp (b : B) (w : World) : Z :=
  if (b_N b <=? 0)%Z then 0%Z else Z.quot (duration w) (b_N b).

(** [b.runN(n)]: set [b.N], reset and start the timer, call the function,
    stop the timer, keep [b.N] and the duration for the next run. *)
Definition runN (f : BenchFunc) (n : Z) (b : B) : Go B :=
  ResetTimer ;;
  StartTimer ;;
  f (b_calls b) (Z.to_nat n) (b_previousN b) (b_previousDuration b) ;;
  StopTimer ;;
  w <- st_get ;;
  st_ret (mkB n n (duration w) (S (b_calls b))).

(** The body of the loop of [launch]: the iterations that fill [d] at
    [nsop] ns each, 1.2 times that, at most [100 * last] and at least
    [last + 1], rounded up. *)
Definition predictN (d nsop last : Z) : Z :=
  let n := if (nsop =? 0)%Z then d else Z.quot d nsop in
  let n := Z.max (Z.min (wrap64 (n + Z.quot n 5)) (wrap64 (100 * last))) (wrap64 (last + 1)) in
  roundUp n.

(** [for n := 1; !b.failed && b.duration < d && n < 1e9; { ... b.runN(n) }]. *)
Fixpoint launch_loop (fuel : nat) (f : BenchFunc) (d n : Z) (b : B) : Go B :=
  match fuel with
  | O => st_ret b
  | S fuel' =>
      w <- st_get ;;
      if negb (w_failed w) && (duration w <? d)%Z && (n <? billion)%Z then
        let n' := predictN d (nsPerOp b w) n in
        b' <- runN f n' b ;;
        launch_loop fuel' f d n' b'
      else st_ret b
  end.

(** Enough fuel for the loop: there are 35 round numbers above 1 and below
    [1e9] ([launch_loop_fuel]). *)
Definition launch_fuel : nat := 37.

(** [b.launch()]: the runs, then [b.result = BenchmarkResult{b.N,
    b.duration}]. *)
Definition launch (f : BenchFunc) (bt : BenchTime) (b : B) : Go (Z * Z) :=
  b' <- match bt with
        | ForCount n => runN f n b
        | ForDuration d => launch_loop launch_fuel f d 1 b
        end ;;
  w <- st_get ;;
  st_ret (b_N b', duration w).

(** [go fn(); <-b.signal]: [fn] runs on its own goroutine and signals
    when it ends; [runtime.Goexit] ends that goroutine only, a panic ends
    the program. *)
Definition go_wait {A} (m : Go A) : Go (option A) :=
  fun w =>
    match m w with
    | (w', Normal a) => (w', Normal (Some a))
    | (w', Abrupt Goexit) => (w', Normal None)
    | (w', Abrupt (Panic msg)) => (w', Abrupt (Panic msg))
    end.

(** [b.run1()], and [b.run()] when it succeeded: one run with [b.N = 1]
    on a goroutine; unless it failed, [launch] on another. The result is
    [None] when a run failed. *)
Definition run_benchmark (f : BenchFunc) (bt : BenchTime) : Go (option (Z * Z)) :=
  r <- go_wait (runN f 1 (mkB 0 0 0 0)) ;;
  w <- st_get ;;
  match r with
  | Some b => if w_failed w then st_ret None
              else r' <- go_wait (launch f bt b) ;;
                   w' <- st_get ;;
                   st_ret (if w_failed w' then None else r')
  | None => st_ret None
  end.

(** ** The loop of [launch] stops by its own condition *)

Lemma wrap64_id z : (LLONG_MIN <= z <= LLONG_MAX)%Z -> wrap64 z = z.
Proof. intros Hz. unfold wrap64, LLONG_MIN, LLONG_MAX in *. rewrite Z.mod_small; lia. Qed.

(** The next [b.N] is above the last, at most 200 times it, and a round
    number when it is below [1e9]. *)
Lemma predictN_spec d nsop last :
  (1 <= last < billion)%Z ->
  (last < predictN d nsop last <= 200 * last)%Z /\
  ((predictN d nsop last < billion)%Z -> In (predictN d nsop last) round_numbers).
Proof.
  intros Hl. unfold predictN.
  rewrite (wrap64_id (100 * last)), (wrap64_id (last + 1)) by (unfold billion, LLONG_MIN, LLONG_MAX in *; lia).
  match goal with |- context [roundUp ?x] => set (m := x) end.
  assert (Hm : (last + 1 <= m <= 100 * last)%Z) by (subst m; lia).
  destruct (roundUp_spec m) as (k & c & _ & _ & _ & _ & Hr); [unfold LLONG_MAX, billion in *; lia|].
  split; [lia|]. intros Hlt. apply roundUp_round; [unfold LLONG_MAX, billion in *; lia|exact Hlt].
Qed.

(** The runs the loop can still make from [n]. *)
Definition need (n : Z) : nat := if (n <? billion)%Z then rounds_above n + 2 else 1.

Lemma need_step n n' :
  (1 <= n < billion)%Z -> (n < n')%Z -> ((n' < billion)%Z -> In n' round_numbers) -> need n' < need n.
Proof.
  intros Hn Hlt Hr. unfold need. destruct (Z.ltb_spec n billion); [|lia].
  destruct (Z.ltb_spec n' billion); [|lia]. pose proof (rounds_above_lt n n' Hlt (Hr ltac:(lia))). lia.
Qed.

(** With fuel for every run it can still make, one more unit of fuel
    changes nothing. *)
Lemma launch_loop_enough fuel f d n b :
  (1 <= n)%Z -> need n <= fuel -> launch_loop fuel f d n b ≡ launch_loop (S fuel) f d n b.
Proof.
  revert n b. induction fuel as [|fuel IH]; intros n b Hn Hneed w.
  { unfold need in Hneed. destruct (n <? billion)%Z; lia. }
  cbn [launch_loop st_bind st_get].
  destruct (negb (w_failed w) && (duration w <? d)%Z && (n <? billion)%Z) eqn:G; [|done].
  apply andb_true_iff in G as [_ Hlt%Z.ltb_lt].
  destruct (predictN_spec d (nsPerOp b w) n) as [Hp Hr]; [lia|].
  unfold st_bind. destruct (runN f _ b w) as [w1 [b'|e]]; [|done].
  apply IH; [lia|]. pose proof (need_step n _ ltac:(lia) (proj1 Hp) Hr). lia.
Qed.

(** [launch_fuel] runs are enough: any more fuel gives the same result. *)
Lemma launch_loop_fuel fuel f d b :
  launch_fuel <= fuel -> launch_loop fuel f d 1 b ≡ launch_loop launch_fuel f d 1 b.
Proof.
  assert (Hneed : need 1 = launch_fuel) by reflexivity.
  induction 1 as [|fuel Hle IH]; [reflexivity|].
  rewrite <- IH. symmetry. apply launch_loop_enough; lia.
Qed.

End Runs.

End Launch.
