(* ===== verification/Rounds.v ===== *)
(** * The benchmarks under the framework: the rounds of [b.N]

    [go test -bench] calls each benchmark function several times, through
    [run1] and [launch] ([Launch]): with [b.N = 1], then with growing
    round values of [b.N], on the same Redis server, each call drawing a
    new [rand.Int31()] and, for the parallel benchmarks, reading the
    previous call's [b.N] and duration for the grain of [RunParallel].

    Section [CleanRuns] follows a benchmark function whose fault-free call
    with [b.N = N] makes [N] measured round trips and a fixed number of
    others, updates the keyspace by [upd], and logs [line N]: the calls
    of [launch] then take [b.N] through the values [growth] computes, the
    log holds one line per call, and the keyspace is updated once per
    call. The key benchmarks, serialized and parallel, are such
    functions, so the rounds do not interfere: each logs exactly its own
    [b.N], under [-benchtime] as a duration and as a count of iterations.
    A first call that ends by [runtime.Goexit] ends the run
    ([run_benchmark_exit]): with the server unreachable, every benchmark
    fails there. *)

From Stdlib Require Import Sorted.
From S2P Require Import Prelude Decimal Redis Radix Utf8 GoTesting KeyHelpers Serial Parallel Launch.
Import Decimal Redis Radix Utf8 GoTesting KeyHelpers Serial Parallel Launch.

Module Rounds.

Section Growth.
(** The wall-clock cost of a round trip, in ns. *)
Variable t : Z.

(** The values of [b.N] that [launch] tries after a call with [b.N = n]
    when every call measures [b.N] round trips and nothing fails: the
    time per iteration is [t], the prediction [predictN]. *)
Fixpoint growth (fuel : nat) (d n : Z) : list Z :=
  match fuel with
  | O => []
  | S f =>
      if (t * n <? d)%Z && (n <? billion)%Z then
        let n' := predictN d t n in n' :: growth f d n'
      else []
  end.

Lemma growth_bounds fuel d n :
  (1 <= n)%Z -> Forall (fun m => n < m <= 200 * billion)%Z (growth fuel d n).
Proof.
  revert n. induction fuel as [|fuel IH]; intros n Hn; simpl; [constructor|].
  destruct (t * n <? d)%Z; simpl; [|constructor].
  destruct (Z.ltb_spec n billion); simpl; [|constructor].
  destruct (predictN_spec d t n) as [Hp _]; [lia|].
  constructor; [lia|]. eapply Forall_impl; [apply IH; lia|]. simpl. lia.
Qed.

(** Every value is above the one before it. *)
Lemma growth_sorted fuel d n : (1 <= n)%Z -> Sorted Z.lt (n :: growth fuel d n).
Proof.
  revert n. induction fuel as [|fuel IH]; intros n Hn; simpl; [repeat constructor|].
  destruct (t * n <? d)%Z; simpl; [|repeat constructor].
  destruct (Z.ltb_spec n billion); simpl; [|repeat constructor].
  destruct (predictN_spec d t n) as [Hp _]; [lia|].
  constructor; [apply IH; lia|constructor; lia].
Qed.

(** At most [need n - 1] values: the loop of [launch] never runs out of
    fuel. *)
Lemma growth_length fuel d n : (1 <= n)%Z -> List.length (growth fuel d n) < need n.
Proof.
  revert n. induction fuel as [|fuel IH]; intros n Hn; simpl; [unfold need; case_match; lia|].
  destruct (t * n <? d)%Z; simpl; [|unfold need; case_match; lia].
  destruct (Z.ltb_spec n billion); simpl; [|unfold need; case_match; lia].
  destruct (predictN_spec d t n) as [Hp Hr]; [lia|].
  pose proof (need_step n _ ltac:(lia) (proj1 Hp) Hr). specialize (IH (predictN d t n) ltac:(lia)). lia.
Qed.

End Growth.

(** The values of [b.N] of a whole run lie between 1 and [200 * 1e9]. *)
Lemma last_growth_bounds t d :
  let ns := 1%Z :: growth t launch_fuel d 1 in Forall (fun m => 1 <= m <= 200 * billion)%Z ns.
Proof.
  cbv zeta. constructor; [unfold billion; lia|].
  eapply Forall_impl; [apply growth_bounds; lia|]. simpl. lia.
Qed.

(** The calls of a whole run take [b.N] through increasing values, and
    there are at most 37 of them. *)
Lemma growth_calls t d :
  let ns := 1%Z :: growth t launch_fuel d 1 in Sorted Z.lt ns /\ List.length ns <= 37.
Proof.
  cbv zeta. split; [by apply growth_sorted|].
  pose proof (growth_length t launch_fuel d 1 ltac:(lia)) as Hl.
  change (need 1) with 37 in Hl.
  change (List.length (1%Z :: growth t launch_fuel d 1)) with (S (List.length (growth t launch_fuel d 1))). lia.
Qed.

Section CleanRuns.
Variable t : Z.
Hypothesis t_pos : (1 <= t)%Z.
Variable f : BenchFunc.
(** The round trips of a call besides the measured ones, the keyspace it
    leaves, the line it logs, and what a call needs of the keyspace. *)
Variable extra : nat.
Variable upd : nat -> Keyspace -> Keyspace.
Variable line : Z -> string.
Variable ready : nat -> Keyspace -> Prop.
Hypothesis ready_next : forall r ks, ready r ks -> ready (S r) (upd r ks).
Hypothesis f_run : forall r N pN pD w,
  1 <= N -> (Z.of_nat N <= 200 * billion)%Z ->
  ready r (w_ks w) -> w_timer_on w = true -> (forall k, w_faults w k = None) ->
  f r N pN pD w =
    (mkWorld (upd r (w_ks w)) (w_ops w + N + extra) (w_faults w) false N (w_failed w)
       (w_log w ++ [line (Z.of_nat N)]), Normal tt).

(** The world after the call number [r] with [b.N = n]. *)
Definition after_call (r : nat) (n : Z) (w : World) : World :=
  mkWorld (upd r (w_ks w)) (w_ops w + Z.to_nat n + extra) (w_faults w) false (Z.to_nat n) (w_failed w)
    (w_log w ++ [line n]).

Fixpoint after_calls (r : nat) (ns : list Z) (w : World) : World :=
  match ns with
  | [] => w
  | n :: ns' => after_calls (S r) ns' (after_call r n w)
  end.

(** [b] after the calls. *)
Fixpoint b_after (b : B) (ns : list Z) : B :=
  match ns with
  | [] => b
  | n :: ns' => b_after (mkB n n (t * n) (S (b_calls b))) ns'
  end.

Lemma runN_clean n b w :
  (1 <= n <= 200 * billion)%Z -> ready (b_calls b) (w_ks w) -> (forall k, w_faults w k = None) ->
  runN t f n b w = (after_call (b_calls b) n w, Normal (mkB n n (t * n) (S (b_calls b)))).
Proof.
  intros Hn Hr HF. unfold runN, ResetTimer, StartTimer. rewrite !st_bind_modify.
  erewrite st_bind_normal by (apply f_run; [lia|lia|exact Hr|reflexivity|exact HF]).
  unfold after_call, duration. cbn. rewrite Z2Nat.id by lia. done.
Qed.

Lemma launch_loop_clean fuel d n b w :
  (1 <= n <= 200 * billion)%Z -> b_N b = n -> w_timed w = Z.to_nat n -> w_failed w = false ->
  ready (b_calls b) (w_ks w) -> (forall k, w_faults w k = None) ->
  launch_loop t fuel f d n b w = (after_calls (b_calls b) (growth t fuel d n) w, Normal (b_after b (growth t fuel d n))).
Proof.
  revert n b w. induction fuel as [|fuel IH]; intros n b w Hn HN Ht Hfl Hr HF; [done|].
  cbn [launch_loop growth st_bind st_get].
  assert (Hd : duration t w = (t * n)%Z) by (unfold duration; rewrite Ht, Z2Nat.id; lia).
  assert (Hns : nsPerOp t b w = t) by (unfold nsPerOp; rewrite HN, Hd; zbool; [lia|apply Z.quot_mul; lia]).
  rewrite Hfl, Hd, Hns. simpl.
  destruct (t * n <? d)%Z, (Z.ltb_spec n billion); simpl; try done.
  destruct (predictN_spec d t n) as [Hp _]; [lia|].
  erewrite st_bind_normal by (apply runN_clean; [lia|exact Hr|exact HF]).
  apply IH; simpl; [lia|done|done|done|by apply ready_next|done].
Qed.

(** [run1]: the first call, with [b.N = 1]. *)
Lemma run1_clean w :
  ready 0 (w_ks w) -> (forall k, w_faults w k = None) ->
  go_wait (runN t f 1 (mkB 0 0 0 0)) w = (after_call 0 1 w, Normal (Some (mkB 1 1 t 1))).
Proof.
  intros Hr HF. unfold go_wait. rewrite runN_clean by (done || unfold billion; lia). by rewrite Z.mul_1_r.
Qed.

(** When [run1] did not fail and [launch] returns without failing,
    [go test] reports what [launch] returns. *)
Lemma run_benchmark_launch bt w w2 res :
  w_failed w = false -> ready 0 (w_ks w) -> (forall k, w_faults w k = None) ->
  launch t f bt (mkB 1 1 t 1) (after_call 0 1 w) = (w2, Normal res) -> w_failed w2 = false ->
  run_benchmark t f bt w = (w2, Normal (Some res)).
Proof.
  intros Hfl Hr HF Hl Hfl2. unfold run_benchmark.
  rewrite (st_bind_normal _ _ _ _ _ (run1_clean w Hr HF)). cbn [st_bind st_get]. simpl (w_failed _).
  rewrite Hfl.
  assert (H3 : go_wait (launch t f bt (mkB 1 1 t 1)) (after_call 0 1 w) = (w2, Normal (Some res)))
    by (unfold go_wait; by rewrite Hl).
  rewrite (st_bind_normal _ _ _ _ _ H3). cbn [st_bind st_get st_ret]. by rewrite Hfl2.
Qed.

Lemma after_calls_failed r ns w : w_failed (after_calls r ns w) = w_failed w.
Proof. revert r w. induction ns as [|n ns IH]; intros r w; simpl; [done|by rewrite IH]. Qed.

(** [run1] then [launch]: the calls take [b.N] through [1] and then the
    values [growth] predicts, each call updates the keyspace and logs its
    line, and the result is the last [b.N] with its duration. *)
Lemma run_benchmark_clean d w :
  w_failed w = false -> ready 0 (w_ks w) -> (forall k, w_faults w k = None) ->
  run_benchmark t f (ForDuration d) w =
    (after_calls 0 (1%Z :: growth t launch_fuel d 1) w,
     Normal (Some (b_N (b_after (mkB 1 1 t 1) (growth t launch_fuel d 1)),
                   (t * Z.of_nat (w_timed (after_calls 0 (1%Z :: growth t launch_fuel d 1) w)))%Z))).
Proof.
  intros Hfl Hr HF. apply run_benchmark_launch; [done|done|done| |by rewrite after_calls_failed].
  unfold launch. erewrite st_bind_normal; [done|].
  apply launch_loop_clean; simpl; [unfold billion; lia|done|done|done|by apply ready_next|done].
Qed.

(** [-benchtime=nx]: [run1], then one call with [b.N = n]. *)
Lemma run_benchmark_count n w :
  (1 <= n <= 200 * billion)%Z -> w_failed w = false -> ready 0 (w_ks w) -> (forall k, w_faults w k = None) ->
  run_benchmark t f (ForCount n) w = (after_calls 0 [1%Z; n] w, Normal (Some (n, (t * n)%Z))).
Proof.
  intros Hn Hfl Hr HF. apply run_benchmark_launch; [done|done|done| |done].
  unfold launch. erewrite st_bind_normal by (apply runN_clean; [done|by apply ready_next|done]).
  unfold duration. cbn. rewrite Z2Nat.id by lia. done.
Qed.

(** What the calls leave: the log, the failure flag, the keyspace, the
    measured work and [b.N]. *)
Lemma after_calls_log r ns w : w_log (after_calls r ns w) = w_log w ++ List.map line ns.
Proof.
  revert r w. induction ns as [|n ns IH]; intros r w; simpl; [by rewrite app_nil_r|].
  rewrite IH. simpl. by rewrite <- app_assoc.
Qed.


Lemma after_calls_ks r ns w :
  w_ks (after_calls r ns w) = fold_left (fun ks i => upd i ks) (seq r (List.length ns)) (w_ks w).
Proof. revert r w. induction ns as [|n ns IH]; intros r w; simpl; [done|by rewrite IH]. Qed.

Lemma after_calls_timed r n ns w : w_timed (after_calls r (n :: ns) w) = Z.to_nat (List.last (n :: ns) n).
Proof.
  revert r n w. induction ns as [|m ns IH]; intros r n w; [done|].
  change (w_timed (after_calls (S r) (m :: ns) (after_call r n w)) = Z.to_nat (List.last (m :: ns) n)).
  rewrite IH. f_equal. apply last_cons_default.
Qed.

Lemma b_after_N b ns : b_N (b_after b ns) = List.last ns (b_N b).
Proof.
  revert b. induction ns as [|n ns IH]; intros b; [done|]. simpl. rewrite IH.
  destruct ns; [done|]. apply last_cons_default.
Qed.

(** The whole run of the benchmark, from a world that has not failed:
    one call per value of [b.N] in [1 :: growth ...], each logging its
    line and updating the keyspace; the result is the last [b.N] and the
    time it took. *)
Lemma run_benchmark_rounds d w :
  w_failed w = false -> ready 0 (w_ks w) -> (forall k, w_faults w k = None) ->
  let ns := 1%Z :: growth t launch_fuel d 1 in
  exists w', run_benchmark t f (ForDuration d) w = (w', Normal (Some (List.last ns 1%Z, (t * List.last ns 1)%Z))) /\
    w_log w' = w_log w ++ List.map line ns /\ w_failed w' = false /\
    w_ks w' = fold_left (fun ks i => upd i ks) (seq 0 (List.length ns)) (w_ks w).
Proof.
  intros Hfl Hr HF. cbv zeta. exists (after_calls 0 (1%Z :: growth t launch_fuel d 1) w).
  pose proof (last_growth_bounds t d) as Hb. cbv zeta in Hb.
  split_and!; [|apply after_calls_log|by rewrite after_calls_failed|apply after_calls_ks].
  rewrite run_benchmark_clean by done. rewrite after_calls_timed, b_after_N.
  apply (Forall_last _ _ _ 1%Z) in Hb. cbv beta in Hb.
  rewrite Z2Nat.id by lia. simpl b_N.
  replace (List.last (growth t launch_fuel d 1) 1%Z) with (List.last (1%Z :: growth t launch_fuel d 1) 1%Z);
    [done|by destruct (growth t launch_fuel d 1)].
Qed.

(** The whole run under [-benchtime=nx]: two calls, with [b.N = 1] and
    [b.N = n]. *)
Lemma run_benchmark_count_rounds n w :
  (1 <= n <= 200 * billion)%Z -> w_failed w = false -> ready 0 (w_ks w) -> (forall k, w_faults w k = None) ->
  exists w', run_benchmark t f (ForCount n) w = (w', Normal (Some (n, (t * n)%Z))) /\
    w_log w' = w_log w ++ [line 1%Z; line n] /\ w_failed w' = false /\ w_ks w' = upd 1 (upd 0 (w_ks w)).
Proof.
  intros Hn Hfl Hr HF. exists (after_calls 0 [1%Z; n] w).
  split_and!; [by apply run_benchmark_count|apply after_calls_log|by rewrite after_calls_failed|apply after_calls_ks].
Qed.

End CleanRuns.

(** A first call that ends by [runtime.Goexit]: [run1] reports the
    failure and [launch] never calls the function again. *)
Lemma run_benchmark_exit t f bt w w1 :
  f 0 1 0%Z 0%Z (set_timer true 0 w) = (w1, Abrupt Goexit) -> run_benchmark t f bt w = (w1, Normal None).
Proof.
  intros Hf. unfold run_benchmark, runN, ResetTimer, StartTimer, go_wait, st_bind at 1.
  rewrite !st_bind_modify. erewrite st_bind_abrupt by exact Hf. reflexivity.
Qed.

Section Benchmarks.
Context `{Dialer}.

(** One fault-free call of each key benchmark, as [runN] makes it. *)
Lemma serial_INCR_call (rnd : nat -> Z) :
  dial "tcp" "127.0.0.1:6379" = None ->
  forall r N (pN pD : Z) w, 1 <= N -> (Z.of_nat N <= 200 * billion)%Z -> True ->
    w_timer_on w = true -> (forall k, w_faults w k = None) ->
    BenchmarkINCRKeyInSerializedSystem (rnd r) N w =
      (mkWorld (delete (benchmark_key (rnd r)) (w_ks w)) (w_ops w + N + 3) (w_faults w) false N (w_failed w)
         (w_log w ++ [("Final value of the counter: " ++ ll2string (Z.of_nat N))%string]), Normal tt).
Proof.
  intros Hd r N pN pD w HN HB _ Hon HF.
  rewrite serial_INCR_run_from; [|done|done|intros; apply HF|unfold billion, LLONG_MAX in *; lia].
  destruct (Z.eqb_spec (Z.of_nat N) 0); [lia|done].
Qed.

(** The keys of the calls are absent; a call removes its own key. *)
Definition keys_absent (rnd : nat -> Z) (_ : nat) (ks : Keyspace) : Prop :=
  forall r, ks !! benchmark_key (rnd r) = None.

Lemma keys_absent_next rnd r ks :
  keys_absent rnd r ks -> keys_absent rnd (S r) (delete (benchmark_key (rnd r)) ks).
Proof.
  intros Hr r'. destruct (decide (benchmark_key (rnd r) = benchmark_key (rnd r'))) as [<-|Hne].
  - apply lookup_delete_eq.
  - rewrite lookup_delete_ne by done. apply Hr.
Qed.

Lemma parallel_INCR_call procs sched (rnd : nat -> Z) :
  dial "tcp" "127.0.0.1:6379" = None -> 1 <= procs ->
  forall r N (pN pD : Z) w, 1 <= N -> (Z.of_nat N <= 200 * billion)%Z -> keys_absent rnd r (w_ks w) ->
    w_timer_on w = true -> (forall k, w_faults w k = None) ->
    BenchmarkINCRKeyInParallelSystem (mkPar 1 procs pN pD (sched r)) (rnd r) N w =
      (mkWorld (delete (benchmark_key (rnd r)) (w_ks w)) (w_ops w + N + 2) (w_faults w) false N (w_failed w)
         (w_log w ++ [("Final value of the counter: " ++ ll2string (Z.of_nat N))%string]), Normal tt).
Proof.
  intros Hd Hp r N pN pD w HN HB Hr Hon HF.
  apply parallel_INCR_run_from; [done|done|simpl; lia|done|apply Hr|done|unfold billion, LLONG_MAX in *; lia].
Qed.

(** [C8] (functional): under [go test -bench], with the server
    reachable and no round trip failing, [BenchmarkINCRKeyInSerializedSystem]
    is called with [b.N = 1] and then with the values [growth] predicts
    (each call of [b.N] iterations taking [t] ns each): at most 37
    calls, with increasing values of [b.N], all between 1 and [2e11];
    every call logs exactly its own [b.N] as the final value of
    the counter, none fails, each removes its key, and the benchmark
    reports the last [b.N] and its duration. *)
Theorem serial_INCR_rounds t rnd d ks0 :
  dial "tcp" "127.0.0.1:6379" = None -> (1 <= t)%Z ->
  let Ns := 1%Z :: growth t launch_fuel d 1 in
  exists w, run_benchmark t (fun r N _ _ => BenchmarkINCRKeyInSerializedSystem (rnd r) N) (ForDuration d)
              (mkWorld ks0 0 (fun _ => None) false 0 false []) =
            (w, Normal (Some (List.last Ns 1%Z, (t * List.last Ns 1)%Z))) /\
    w_log w = List.map (fun n => ("Final value of the counter: " ++ ll2string n)%string) Ns /\
    w_failed w = false /\
    w_ks w = fold_left (fun ks r => delete (benchmark_key (rnd r)) ks) (seq 0 (List.length Ns)) ks0 /\
    Forall (fun n => 1 <= n <= 200 * billion)%Z Ns /\ Sorted Z.lt Ns /\ List.length Ns <= 37.
Proof.
  intros Hd Ht. cbv zeta.
  destruct (run_benchmark_rounds t Ht (fun r N _ _ => BenchmarkINCRKeyInSerializedSystem (rnd r) N) 3
    (fun r ks => delete (benchmark_key (rnd r)) ks) (fun n => ("Final value of the counter: " ++ ll2string n)%string)
    (fun _ _ => True) (fun _ _ _ => I) (serial_INCR_call rnd Hd) d (mkWorld ks0 0 (fun _ => None) false 0 false []))
    as (w & Hrun & Hlog & Hfl & Hks); [done|done|done|].
  exists w. split_and!; [done|done|done|done|apply (last_growth_bounds t d)|apply (growth_calls t d)..].
Qed.

(** [C9] (functional): the same for [BenchmarkINCRKeyInParallelSystem],
    whatever interleavings the scheduler picks and [GOMAXPROCS]: although
    the benchmark does not delete its key before a call, each call
    removes it at the end, so on a server that holds none of the keys
    every call logs exactly its own [b.N]. The grain of each call comes
    from the [b.N] and duration of the call before it. *)
Theorem parallel_INCR_rounds t procs sched rnd d ks0 :
  dial "tcp" "127.0.0.1:6379" = None -> (1 <= t)%Z -> 1 <= procs ->
  (forall r, ks0 !! benchmark_key (rnd r) = None) ->
  let Ns := 1%Z :: growth t launch_fuel d 1 in
  exists w, run_benchmark t (fun r N pN pD =>
                BenchmarkINCRKeyInParallelSystem (mkPar 1 procs pN pD (sched r)) (rnd r) N) (ForDuration d)
              (mkWorld ks0 0 (fun _ => None) false 0 false []) =
            (w, Normal (Some (List.last Ns 1%Z, (t * List.last Ns 1)%Z))) /\
    w_log w = List.map (fun n => ("Final value of the counter: " ++ ll2string n)%string) Ns /\
    w_failed w = false /\
    w_ks w = fold_left (fun ks r => delete (benchmark_key (rnd r)) ks) (seq 0 (List.length Ns)) ks0 /\
    Forall (fun n => 1 <= n <= 200 * billion)%Z Ns /\ Sorted Z.lt Ns /\ List.length Ns <= 37.
Proof.
  intros Hd Ht Hp Hks. cbv zeta.
  destruct (run_benchmark_rounds t Ht _ 2 (fun r ks => delete (benchmark_key (rnd r)) ks)
    (fun n => ("Final value of the counter: " ++ ll2string n)%string) (keys_absent rnd) (keys_absent_next rnd)
    (parallel_INCR_call procs sched rnd Hd Hp) d
    (mkWorld ks0 0 (fun _ => None) false 0 false []))
    as (w & Hrun & Hlog & Hfl & Hks'); [done|exact Hks|done|].
  exists w. split_and!; [done|done|done|done|apply (last_growth_bounds t d)|apply (growth_calls t d)..].
Qed.

(** [C12] (functional): under [go test -bench -benchtime=nx] the
    framework calls each key benchmark twice, with [b.N = 1] ([run1])
    and then with [b.N = n] (the count branch of [launch]); with the
    server reachable and no round trip failing, the serialized and the
    parallel benchmark each log exactly [1] and then [n], none fails,
    each call removes its own key, and the result is [n] iterations in
    [n] times the cost of one. *)
Theorem INCR_rounds_count t procs sched rnd n ks0 :
  dial "tcp" "127.0.0.1:6379" = None -> 1 <= procs -> (1 <= n <= 200 * billion)%Z ->
  (forall r, ks0 !! benchmark_key (rnd r) = None) ->
  let w0 := mkWorld ks0 0 (fun _ => None) false 0 false [] in
  let lines := List.map (fun m => ("Final value of the counter: " ++ ll2string m)%string) [1%Z; n] in
  let ks := delete (benchmark_key (rnd 1)) (delete (benchmark_key (rnd 0)) ks0) in
  (exists w, run_benchmark t (fun r N _ _ => BenchmarkINCRKeyInSerializedSystem (rnd r) N) (ForCount n) w0 =
               (w, Normal (Some (n, (t * n)%Z))) /\ w_log w = lines /\ w_failed w = false /\ w_ks w = ks) /\
  (exists w, run_benchmark t (fun r N pN pD =>
                BenchmarkINCRKeyInParallelSystem (mkPar 1 procs pN pD (sched r)) (rnd r) N) (ForCount n) w0 =
               (w, Normal (Some (n, (t * n)%Z))) /\ w_log w = lines /\ w_failed w = false /\ w_ks w = ks).
Proof.
  intros Hd Hp Hn Hks. cbv zeta. split.
  - destruct (run_benchmark_count_rounds t _ 3 (fun r ks => delete (benchmark_key (rnd r)) ks)
      (fun m => ("Final value of the counter: " ++ ll2string m)%string) (fun _ _ => True) (fun _ _ _ => I)
      (serial_INCR_call rnd Hd) n (mkWorld ks0 0 (fun _ => None) false 0 false []))
      as (w & Hrun & Hlog & Hfl & Hks'); [done..|].
    by exists w.
  - destruct (run_benchmark_count_rounds t _ 2 (fun r ks => delete (benchmark_key (rnd r)) ks)
      (fun m => ("Final value of the counter: " ++ ll2string m)%string) (keys_absent rnd) (keys_absent_next rnd)
      (parallel_INCR_call procs sched rnd Hd Hp) n (mkWorld ks0 0 (fun _ => None) false 0 false []))
      as (w & Hrun & Hlog & Hfl & Hks'); [done|done|exact Hks|done|].
    by exists w.
Qed.

(** [C10] (error): when the Redis server cannot be reached, each of the
    six benchmarks fails in its first call: [ConnectToSingleNode] returns
    the error, [b.Fatalf] logs it and ends the goroutine, [run1] reports
    the failure and [launch] never runs. Nothing is sent to the server,
    and the timer, started by [runN], is never stopped. *)
Theorem unreachable_server_fails t procs sched rnd bt ks0 F e :
  dial "tcp" "127.0.0.1:6379" = Some e ->
  let w0 := mkWorld ks0 0 F false 0 false [] in
  let w1 := mkWorld ks0 0 F true 0 true
              [("Connection error occured. More info: Unable to connect to the node. More info: " ++ e)%string] in
  run_benchmark t (fun r N _ _ => BenchmarkINCRKeyInSerializedSystem (rnd r) N) bt w0 = (w1, Normal None) /\
  run_benchmark t (fun r N _ _ => BenchmarkINCRBYKeyInSerializedSystem (rnd r) N) bt w0 = (w1, Normal None) /\
  run_benchmark t (fun _ N _ _ => BenchmarkINCRHashInSerializedSystem N) bt w0 = (w1, Normal None) /\
  run_benchmark t (fun r N pN pD =>
    BenchmarkINCRKeyInParallelSystem (mkPar 1 procs pN pD (sched r)) (rnd r) N) bt w0 = (w1, Normal None) /\
  run_benchmark t (fun r N pN pD =>
    BenchmarkINCRBYKeyInParallelSystem (mkPar 1 procs pN pD (sched r)) (rnd r) N) bt w0 = (w1, Normal None) /\
  run_benchmark t (fun _ N pN pD =>
    BenchmarkINCRHashInParallelSystem (mkPar 1 procs pN pD (sched 0)) N) bt w0 = (w1, Normal None).
Proof.
  intros Hd. cbv zeta.
  split_and!; apply run_benchmark_exit;
    unfold BenchmarkINCRKeyInSerializedSystem, BenchmarkINCRBYKeyInSerializedSystem,
      BenchmarkINCRHashInSerializedSystem, BenchmarkINCRKeyInParallelSystem,
      BenchmarkINCRBYKeyInParallelSystem, BenchmarkINCRHashInParallelSystem, serial_benchmark, parallel_benchmark;
    by erewrite st_bind_abrupt by (apply connect_fail, Hd).
Qed.

(** [C11] (error): under [go test -bench], whatever the benchmark time, a
    transport fault on the first increment of
    [BenchmarkINCRKeyInSerializedSystem] (in [run1], with [b.N = 1])
    ends the whole run: [b.Fatalf] exits before [RemoveKey], [go test]
    reports the failure with no result and never calls the benchmark
    again, so the key stays on the server, holding [1] when the server
    applied the increment. *)
Theorem serial_INCR_fault_fails_run t rnd bt ks0 F f :
  dial "tcp" "127.0.0.1:6379" = None -> F 0 = None -> F 1 = Some f ->
  run_benchmark t (fun r N _ _ => BenchmarkINCRKeyInSerializedSystem (rnd r) N) bt
    (mkWorld ks0 0 F false 0 false []) =
  (mkWorld (incr_place ks0 (benchmark_key (rnd 0)) (applied f)) 2 F true 1 true
     [("Failed to execute the query. more info: " ++ fault_msg f)%string], Normal None).
Proof.
  intros Hd H0 H1. apply run_benchmark_exit. change (set_timer true 0 _) with (start_world ks0 F).
  replace (applied f) with (Z.of_nat 0 + applied f)%Z by lia.
  apply serial_benchmark_abort with (j := 0) (place := incr_place ks0 (benchmark_key (rnd 0)));
    [apply key_cleanup_first|apply incr_place_exec|done|intros [|k] Hk; [done|lia]|lia|unfold LLONG_MAX; lia|].
  apply INCR_fault_trip; [exact H1|unfold LLONG_MAX; lia].
Qed.

End Benchmarks.

(** ** Witnesses, on the network [local_network], one round trip per ns
    and a benchmark time of 3 ns: [b.N] takes the values 1 and 3. *)

Lemma serial_INCR_rounds_witness :
  dial "tcp" "127.0.0.1:6379" = None /\ (1 <= 1)%Z /\
  exists w, run_benchmark 1 (fun r N _ _ => BenchmarkINCRKeyInSerializedSystem 7 N) (ForDuration 3)
              (mkWorld ∅ 0 (fun _ => None) false 0 false []) = (w, Normal (Some (3%Z, 3%Z))) /\
    w_log w = ["Final value of the counter: 1"; "Final value of the counter: 3"]%string.
Proof.
  split; [reflexivity|]. split; [lia|].
  destruct (serial_INCR_rounds 1 (fun _ => 7%Z) 3 ∅) as (w & Hrun & Hlog & _); [reflexivity|lia|].
  exists w. split; [exact Hrun|exact Hlog].
Defined.

Lemma parallel_INCR_rounds_witness :
  dial "tcp" "127.0.0.1:6379" = None /\ (1 <= 1)%Z /\ 1 <= 2 /\
  (forall r : nat, (∅ : Keyspace) !! benchmark_key ((fun _ => 7%Z) r) = None) /\
  exists w, run_benchmark 1 (fun r N pN pD =>
              BenchmarkINCRKeyInParallelSystem (mkPar 1 2 pN pD [0; 1; 0; 1]) 7 N) (ForDuration 3)
              (mkWorld ∅ 0 (fun _ => None) false 0 false []) = (w, Normal (Some (3%Z, 3%Z))) /\
    w_log w = ["Final value of the counter: 1"; "Final value of the counter: 3"]%string.
Proof.
  split; [reflexivity|]. split; [lia|]. split; [lia|]. split; [intros; reflexivity|].
  destruct (parallel_INCR_rounds 1 2 (fun _ => [0; 1; 0; 1]) (fun _ => 7%Z) 3 ∅) as (w & Hrun & Hlog & _);
    [reflexivity|lia|lia|intros; reflexivity|].
  exists w. split; [exact Hrun|exact Hlog].
Defined.

Lemma INCR_rounds_count_witness :
  dial "tcp" "127.0.0.1:6379" = None /\ 1 <= 2 /\ (1 <= 3 <= 200 * billion)%Z /\
  (forall r : nat, (∅ : Keyspace) !! benchmark_key ((fun _ => 7%Z) r) = None) /\
  exists w, run_benchmark 1 (fun r N pN pD =>
              BenchmarkINCRKeyInParallelSystem (mkPar 1 2 pN pD [0; 1; 0; 1]) 7 N) (ForCount 3)
              (mkWorld ∅ 0 (fun _ => None) false 0 false []) = (w, Normal (Some (3%Z, 3%Z))) /\
    w_log w = ["Final value of the counter: 1"; "Final value of the counter: 3"]%string.
Proof.
  split; [reflexivity|]. split; [lia|]. split; [unfold billion; lia|]. split; [intros; reflexivity|].
  destruct (INCR_rounds_count 1 2 (fun _ => [0; 1; 0; 1]) (fun _ => 7%Z) 3 ∅) as [_ (w & Hrun & Hlog & _)];
    [reflexivity|lia|unfold billion; lia|intros; reflexivity|].
  exists w. split; [exact Hrun|exact Hlog].
Defined.

(** On the network [server_down]. *)
Lemma unreachable_server_fails_witness :
  @dial server_down "tcp" "127.0.0.1:6379" = Some "dial tcp 127.0.0.1:6379: connection refused"%string /\
  run_benchmark 1 (fun r N _ _ => @BenchmarkINCRKeyInSerializedSystem server_down 7 N) (ForDuration 3)
    (mkWorld ∅ 0 (fun _ => None) false 0 false []) =
  (mkWorld ∅ 0 (fun _ => None) true 0 true
     ["Connection error occured. More info: Unable to connect to the node. More info: dial tcp 127.0.0.1:6379: connection refused"%string],
   Normal None).
Proof.
  split; [reflexivity|].
  exact (proj1 (@unreachable_server_fails server_down 1 2 (fun _ => [0]) (fun _ => 7%Z) (ForDuration 3) ∅
    (fun _ => None) _ eq_refl)).
Defined.

Lemma serial_INCR_fault_fails_run_witness :
  dial "tcp" "127.0.0.1:6379" = None /\
  (fun k => if Nat.eqb k 1 then Some (FaultBeforeSend "EOF") else None) 0 = None /\
  (fun k => if Nat.eqb k 1 then Some (FaultBeforeSend "EOF") else None) 1 = Some (FaultBeforeSend "EOF") /\
  run_benchmark 1 (fun r N _ _ => BenchmarkINCRKeyInSerializedSystem 7 N) (ForDuration 3)
    (mkWorld ∅ 0 (fun k => if Nat.eqb k 1 then Some (FaultBeforeSend "EOF") else None) false 0 false []) =
  (mkWorld (incr_place ∅ (benchmark_key 7) 0) 2 (fun k => if Nat.eqb k 1 then Some (FaultBeforeSend "EOF") else None)
     true 1 true ["Failed to execute the query. more info: EOF"%string], Normal None).
Proof.
  split; [reflexivity|]. split; [reflexivity|]. split; [reflexivity|].
  exact (serial_INCR_fault_fails_run 1 (fun _ => 7%Z) (ForDuration 3) ∅ _ (FaultBeforeSend "EOF")
    eq_refl eq_refl eq_refl).
Defined.

End Rounds.
