(* ===== verification/Main.v ===== *)
(** * The entry point [src/main.go]

    [main] (lines 9-14) connects to a single node with
    [common.ConnectToSingleNode("tcp", "127.0.0.1", 1)] and prints
    ["Error: "] followed by the error, if any, with [fmt.Printf]. Its
    effect is modelled as the text it writes on standard output. The
    address has no port, so over TCP the connection always fails: the
    spec's default configuration names [127.0.0.1:6379]. *)

From S2P Require Import Prelude Decimal Redis Radix.
Import Radix.

Module Main.

Section Entry.
Context `{Dialer}.

(** [fmt.Printf("Error: %v", err)] (line 12): the text printed. *)
Definition print_error (err : string) : string := ("Error: " ++ err)%string.

(** [main] (lines 9-14): what it prints. *)
Definition main : string :=
  match ConnectToSingleNode "tcp" "127.0.0.1" 1 with
  | Err err => print_error err
  | Ok _ => ""%string
  end.

(** [C5] (error, finding): whatever the network, [main] prints a
    connection error: its address ["127.0.0.1"] has no port, and a TCP
    dial of an address without a port always fails. *)
Theorem main_reports_error :
  exists e, main = ("Error: Unable to connect to the node. More info: " ++ e)%string.
Proof.
  unfold main. destruct (ConnectToSingleNode_no_port "127.0.0.1" 1 eq_refl) as [e ->].
  by exists e.
Qed.

End Entry.

Lemma main_reports_error_witness :
  exists e, @main local_network = ("Error: Unable to connect to the node. More info: " ++ e)%string.
Proof. exact (@main_reports_error local_network). Defined.

End Main.
